(** * hterm.ScrollPort: a shallow embedding and its verified properties

    The development follows [hterm/js/hterm_scrollport.js].  The viewport
    keeps only the visible rows of a large row source in the DOM, pins the
    rows that carry the live selection outside two fold markers, and
    coalesces redraw requests through the host timer queue.

    Conventions of the embedding:
    - JavaScript numbers that measure pixels are rationals ([Q]) with exact
      arithmetic; row indices and row counts are integers ([Z]).
    - The children of the [rowNodes_] container are a [list Node]; the DOM
      calls [insertBefore], [appendChild], [removeChild], [nextSibling] are
      functions on that list and fail where the DOM throws.
    - A JavaScript function is a function from the [ScrollPort] object (and
      the host state it reaches) to an [outcome]: a value, a thrown
      exception, or exhausted loop fuel.  Writes that only restyle an
      element are not tracked.
    - A [while] loop that removes one child per round runs on fuel one
      more than the number of children; the [for] loop of
      [drawVisibleRows_] recurses on its round count. *)

From Stdlib Require Import QArith Qround Lqa.
From stdpp Require Import gmap strings list pretty.

Set Default Proof Using "Type".

(** ** Outcomes *)

Inductive outcome (A : Type) : Type :=
  | Ok (a : A)
  | Throw (msg : string)
  | OutOfFuel.
Arguments Ok {A} a.
Arguments Throw {A} msg.
Arguments OutOfFuel {A}.

#[global] Instance outcome_ret : MRet outcome := λ A a, Ok a.
#[global] Instance outcome_bind : MBind outcome := λ A B f m,
  match m with
  | Ok a => f a
  | Throw e => Throw e
  | OutOfFuel => OutOfFuel
  end.

Definition TypeError : string := "TypeError".
Definition NotFoundError : string := "NotFoundError".


(** ** DOM nodes *)

(** An [x-row] element: its identity and the [rowIndex] the row provider
    gave it. *)
Record row : Type := mkRow { uid : nat; rowIndex : Z }.

(** The nodes the scroll port handles, compared by identity. *)
Inductive Node : Type :=
  | TopFold
  | BottomFold
  | TopSelectBag
  | BottomSelectBag
  | XRow (r : row)
  | Span (id : nat)
  | TextNode (id : nat).

#[global] Instance row_eq_dec : EqDecision row.
Proof. solve_decision. Defined.
#[global] Instance node_eq_dec : EqDecision Node.
Proof. solve_decision. Defined.

Definition nodeName (n : Node) : string :=
  match n with
  | TopFold | BottomFold => "X-FOLD"
  | TopSelectBag | BottomSelectBag => "X-SELECT-BAG"
  | XRow _ => "X-ROW"
  | Span _ => "SPAN"
  | TextNode _ => "#text"
  end.

(** [n.rowIndex]: defined for rows only. *)
Definition rowIndexOf (n : Node) : option Z :=
  match n with
  | XRow r => Some (rowIndex r)
  | _ => None
  end.

Definition asRow (n : Node) : option row :=
  match n with
  | XRow r => Some r
  | _ => None
  end.

(** ** The child list of [rowNodes_] *)

Module Dom.

Definition firstChild (kids : list Node) : option Node := head kids.

Definition lastChild (kids : list Node) : option Node := last kids.

(** [n.nextSibling]; [null] for the last child and for a detached node. *)
Fixpoint nextSibling (kids : list Node) (n : Node) : option Node :=
  match kids with
  | [] => None
  | x :: rest => if decide (x = n) then head rest else nextSibling rest n
  end.

(** [n.previousSibling]. *)
Fixpoint previousSibling (kids : list Node) (n : Node) : option Node :=
  match kids with
  | [] => None
  | x :: rest =>
      match rest with
      | [] => None
      | y :: _ => if decide (x = n) then None
                  else if decide (y = n) then Some x
                  else previousSibling rest n
      end
  end.

(** The list without [n]. *)
Definition detach (n : Node) (kids : list Node) : list Node :=
  filter (λ x, x ≠ n) kids.

(** [parent.removeChild(n)]. *)
Definition removeChild (kids : list Node) (n : option Node)
  : outcome (list Node) :=
  match n with
  | None => Throw TypeError
  | Some n => if decide (n ∈ kids) then Ok (detach n kids)
              else Throw NotFoundError
  end.

Fixpoint insertAt (kids : list Node) (new ref : Node) : list Node :=
  match kids with
  | [] => []
  | x :: rest => if decide (x = ref) then new :: x :: rest
                 else x :: insertAt rest new ref
  end.

(** [parent.appendChild(new)]: [new] leaves its old place first. *)
Definition appendChild (kids : list Node) (new : Node) : list Node :=
  detach new kids ++ [new].

(** [parent.insertBefore(new, ref)]: with [ref = null] it appends; a
    [ref] that is not a child throws; inserting a node before itself
    leaves the list as it is. *)
Definition insertBefore (kids : list Node) (new : Node) (ref : option Node)
  : outcome (list Node) :=
  match ref with
  | None => Ok (appendChild kids new)
  | Some r =>
      if decide (r ∈ kids) then
        if decide (r = new) then Ok kids
        else Ok (insertAt (detach new kids) new r)
      else Throw NotFoundError
  end.

(** The slots strictly between the two folds. *)
Fixpoint upTo (stop : Node) (kids : list Node) : list Node :=
  match kids with
  | [] => []
  | x :: rest => if decide (x = stop) then [] else x :: upTo stop rest
  end.

Fixpoint after (start : Node) (kids : list Node) : list Node :=
  match kids with
  | [] => []
  | x :: rest => if decide (x = start) then rest else after start rest
  end.

Definition betweenFolds (kids : list Node) : list Node :=
  upTo BottomFold (after TopFold kids).

(** The slots before the top fold and after the bottom fold. *)
Definition beforeTopFold (kids : list Node) : list Node := upTo TopFold kids.
Definition afterBottomFold (kids : list Node) : list Node :=
  after BottomFold kids.

End Dom.

#[global] Arguments Dom.removeChild : simpl never.
#[global] Arguments Dom.insertBefore : simpl never.
#[global] Arguments Dom.appendChild : simpl never.
#[global] Arguments Dom.detach : simpl never.

(** ** The document tree seen from the native selection *)

(** A node object with the two links [sync] follows: [parentNode] upwards
    and [childNodes] downwards. *)
#[local] Unset Elimination Schemes.
Inductive DomNode : Type :=
  mkDomNode (self : Node) (parentNode : option DomNode)
            (childNodes : list DomNode).
#[local] Set Elimination Schemes.

Definition self (d : DomNode) : Node :=
  match d with mkDomNode s _ _ => s end.
Definition parentNode (d : DomNode) : option DomNode :=
  match d with mkDomNode _ p _ => p end.
Definition childNodes (d : DomNode) : list DomNode :=
  match d with mkDomNode _ _ k => k end.

(** The native selection: anchor and focus positions.  A selection
    without a range has no anchor and no focus. *)
Record DomSelection : Type := mkDomSelection {
  anchorNode : option DomNode;
  anchorOffset : nat;
  focusNode : option DomNode;
  focusOffset : nat
}.

(** [a == b] on node objects. *)
Definition sameNode (a b : option DomNode) : bool :=
  bool_decide (self <$> a = self <$> b).

(** [selection.isCollapsed]: anchor and focus are the same position. *)
Definition dom_isCollapsed (s : DomSelection) : bool :=
  sameNode (anchorNode s) (focusNode s)
  && bool_decide (anchorOffset s = focusOffset s).

(** ** hterm.ScrollPort.Selection *)

Record Selection : Type := mkSelection {
  startRow : option row;
  endRow : option row;
  startNode : option Node;
  startOffset : option nat;
  endNode : option Node;
  endOffset : option nat;
  isMultiline : option bool;
  isCollapsed : option bool
}.

Definition newSelection : Selection :=
  {| startRow := None; endRow := None; startNode := None;
     startOffset := None; endNode := None; endOffset := None;
     isMultiline := None; isCollapsed := None |}.

Module SelectionProxy.

(** [findFirstChild(parent, childAry)]: the first node of [childAry]
    in a depth-first walk below [parent]. *)
Fixpoint findFirstChild (parent : DomNode) (childAry : list Node)
  : option Node :=
  match parent with
  | mkDomNode _ _ kids =>
      (fix walk (ns : list DomNode) : option Node :=
         match ns with
         | [] => None
         | n :: rest =>
             if decide (self n ∈ childAry) then Some (self n)
             else match findFirstChild n childAry with
                  | Some rv => Some rv
                  | None => walk rest
                  end
         end) kids
  end.

(** [while (r && r.nodeName != 'X-ROW') r = r.parentNode]. *)
Fixpoint closestRow (n : DomNode) : option (row * DomNode) :=
  match n with
  | mkDomNode s p _ =>
      match asRow s with
      | Some r => Some (r, n)
      | None => match p with
                | Some p' => closestRow p'
                | None => None
                end
      end
  end.

Definition resolveRow (n : option DomNode) : option (row * DomNode) :=
  n ≫= closestRow.

Definition anchorFirst (s : DomSelection) (anchorRow focusRow : row)
    (sel : Selection) : Selection :=
  {| startRow := Some anchorRow;
     startNode := self <$> anchorNode s;
     startOffset := Some (anchorOffset s);
     endRow := Some focusRow;
     endNode := self <$> focusNode s;
     endOffset := Some (focusOffset s);
     isMultiline := isMultiline sel;
     isCollapsed := isCollapsed sel |}.

Definition focusFirst (s : DomSelection) (anchorRow focusRow : row)
    (sel : Selection) : Selection :=
  {| startRow := Some focusRow;
     startNode := self <$> focusNode s;
     startOffset := Some (focusOffset s);
     endRow := Some anchorRow;
     endNode := self <$> anchorNode s;
     endOffset := Some (anchorOffset s);
     isMultiline := isMultiline sel;
     isCollapsed := isCollapsed sel |}.

Definition setMultiline (b : bool) (sel : Selection) : Selection :=
  {| startRow := startRow sel; startNode := startNode sel;
     startOffset := startOffset sel; endRow := endRow sel;
     endNode := endNode sel; endOffset := endOffset sel;
     isMultiline := Some b; isCollapsed := isCollapsed sel |}.

(** The fields [sync] resets before it looks at the native selection. *)
Definition cleared (collapsed : bool) (sel : Selection) : Selection :=
  {| startRow := None; endRow := None;
     startNode := startNode sel; startOffset := startOffset sel;
     endNode := endNode sel; endOffset := endOffset sel;
     isMultiline := None; isCollapsed := Some collapsed |}.

(** [sync()]: copy the native selection [selection] into the proxy. *)
Definition sync (selection : option DomSelection)
    (accessibilityEnabled : bool) (this : Selection) : outcome Selection :=
  match selection with
  | None => Ok (cleared true this)
  | Some s =>
      let this := cleared (dom_isCollapsed s) this in
      if dom_isCollapsed s && negb accessibilityEnabled then Ok this
      else
        match resolveRow (anchorNode s) with
        | None => Ok this
        | Some (anchorRow, anchorRowNode) =>
            match resolveRow (focusNode s) with
            | None => Ok this
            | Some (focusRow, _) =>
                let multiline :=
                  negb (rowIndex anchorRow =? rowIndex focusRow)%Z in
                if (rowIndex anchorRow <? rowIndex focusRow)%Z then
                  Ok (setMultiline multiline
                        (anchorFirst s anchorRow focusRow this))
                else if (rowIndex anchorRow >? rowIndex focusRow)%Z then
                  Ok (setMultiline multiline
                        (focusFirst s anchorRow focusRow this))
                else if sameNode (focusNode s) (anchorNode s) then
                  if (anchorOffset s <? focusOffset s)%nat then
                    Ok (setMultiline multiline
                          (anchorFirst s anchorRow focusRow this))
                  else
                    Ok (setMultiline multiline
                          (focusFirst s anchorRow focusRow this))
                else
                  match findFirstChild anchorRowNode
                          (omap (fmap self)
                             [anchorNode s; focusNode s]) with
                  | None => Throw "Unexpected error syncing selection."
                  | Some firstNode =>
                      if decide (Some firstNode = self <$> anchorNode s)
                      then Ok (setMultiline multiline
                                 (anchorFirst s anchorRow focusRow this))
                      else Ok (setMultiline multiline
                                 (focusFirst s anchorRow focusRow this))
                  end
            end
        end
  end.

End SelectionProxy.

(** ** The scroll port object and the host state it reaches *)

Record Size : Type := mkSize { width : Q; height : Q }.

(** What [scrubTouch] keeps of a touch point. *)
Record Touch : Type := mkTouch { id : Z; y : Q; x : Q }.

(** The row provider: [getRowNode] answers nothing for a row it cannot
    supply. *)
Record RowProvider : Type := mkRowProvider {
  getRowCount : Z;
  getRowNode : Z → option row;
  getRowsText : option Z → option Z → string
}.

(** The callbacks the scroll port hands to [setTimeout]. *)
Inductive TimerTask : Type := RedrawTask | InvalidateTask.

#[global] Instance TimerTask_eq_dec : EqDecision TimerTask.
Proof. solve_decision. Defined.

(** The fields of [hterm.ScrollPort], followed by the state of the host
    the object reads and writes: the children of [rowNodes_], the text of
    the two select bags, the [x-screen] element ([scrollTop], its measured
    client size, and the values its [getWidth()] and [getHeight()]
    return), the height given to [scrollArea_], the native selection, the
    accessibility reader's flag, the pending timers, the calls made to
    [getRowsText], and the console. *)
Record ScrollPort : Type := mkScrollPort {
  rowProvider_ : RowProvider;
  characterSize : Size;
  selection : Selection;
  currentRowNodeCache_ : option (gmap Z row);
  previousRowNodeCache_ : option (gmap Z row);
  lastScreenWidth_ : option Q;
  lastScreenHeight_ : option Q;
  lastRowCount_ : Z;
  scrollWheelMultiplier_ : Q;
  lastTouch_ : gmap Z Touch;
  isScrolledEnd : bool;
  currentScrollbarWidthPx : Q;
  timeouts_ : gmap string positive;
  ariaHiddenSelectionRows_ : list row;
  visibleRowCount : Z;
  visibleRowTopMargin : Q;
  visibleRowBottomMargin : Q;
  rowNodes_ : list Node;
  topSelectBag_text : string;
  bottomSelectBag_text : string;
  screen_scrollTop : Q;
  screen_clientSize : Size;
  screen_getWidth : Q;
  screen_getHeight : Q;
  scrollArea_height : Q;
  document_selection : option DomSelection;
  accessibilityEnabled : bool;
  timerQueue : list (positive * TimerTask);
  nextTimerId : positive;
  rowsTextCalls : list (option Z * option Z);
  console : list string
}.

(** Field updates ([this.f = v]). *)

Definition set_selection (v : Selection) (s : ScrollPort)
  : ScrollPort :=
  mkScrollPort (rowProvider_ s) (characterSize s) v (currentRowNodeCache_ s)
    (previousRowNodeCache_ s) (lastScreenWidth_ s) (lastScreenHeight_ s)
    (lastRowCount_ s) (scrollWheelMultiplier_ s) (lastTouch_ s)
    (isScrolledEnd s) (currentScrollbarWidthPx s) (timeouts_ s)
    (ariaHiddenSelectionRows_ s) (visibleRowCount s) (visibleRowTopMargin s)
    (visibleRowBottomMargin s) (rowNodes_ s) (topSelectBag_text s)
    (bottomSelectBag_text s) (screen_scrollTop s) (screen_clientSize s)
    (screen_getWidth s) (screen_getHeight s) (scrollArea_height s)
    (document_selection s) (accessibilityEnabled s) (timerQueue s)
    (nextTimerId s) (rowsTextCalls s) (console s).

Definition set_currentRowNodeCache_ (v : option (gmap Z row)) (s : ScrollPort)
  : ScrollPort :=
  mkScrollPort (rowProvider_ s) (characterSize s) (selection s) v
    (previousRowNodeCache_ s) (lastScreenWidth_ s) (lastScreenHeight_ s)
    (lastRowCount_ s) (scrollWheelMultiplier_ s) (lastTouch_ s)
    (isScrolledEnd s) (currentScrollbarWidthPx s) (timeouts_ s)
    (ariaHiddenSelectionRows_ s) (visibleRowCount s) (visibleRowTopMargin s)
    (visibleRowBottomMargin s) (rowNodes_ s) (topSelectBag_text s)
    (bottomSelectBag_text s) (screen_scrollTop s) (screen_clientSize s)
    (screen_getWidth s) (screen_getHeight s) (scrollArea_height s)
    (document_selection s) (accessibilityEnabled s) (timerQueue s)
    (nextTimerId s) (rowsTextCalls s) (console s).

Definition set_previousRowNodeCache_ (v : option (gmap Z row)) (s : ScrollPort)
  : ScrollPort :=
  mkScrollPort (rowProvider_ s) (characterSize s) (selection s)
    (currentRowNodeCache_ s) v (lastScreenWidth_ s) (lastScreenHeight_ s)
    (lastRowCount_ s) (scrollWheelMultiplier_ s) (lastTouch_ s)
    (isScrolledEnd s) (currentScrollbarWidthPx s) (timeouts_ s)
    (ariaHiddenSelectionRows_ s) (visibleRowCount s) (visibleRowTopMargin s)
    (visibleRowBottomMargin s) (rowNodes_ s) (topSelectBag_text s)
    (bottomSelectBag_text s) (screen_scrollTop s) (screen_clientSize s)
    (screen_getWidth s) (screen_getHeight s) (scrollArea_height s)
    (document_selection s) (accessibilityEnabled s) (timerQueue s)
    (nextTimerId s) (rowsTextCalls s) (console s).

Definition set_lastScreenWidth_ (v : option Q) (s : ScrollPort)
  : ScrollPort :=
  mkScrollPort (rowProvider_ s) (characterSize s) (selection s)
    (currentRowNodeCache_ s) (previousRowNodeCache_ s) v
    (lastScreenHeight_ s) (lastRowCount_ s) (scrollWheelMultiplier_ s)
    (lastTouch_ s) (isScrolledEnd s) (currentScrollbarWidthPx s)
    (timeouts_ s) (ariaHiddenSelectionRows_ s) (visibleRowCount s)
    (visibleRowTopMargin s) (visibleRowBottomMargin s) (rowNodes_ s)
    (topSelectBag_text s) (bottomSelectBag_text s) (screen_scrollTop s)
    (screen_clientSize s) (screen_getWidth s) (screen_getHeight s)
    (scrollArea_height s) (document_selection s) (accessibilityEnabled s)
    (timerQueue s) (nextTimerId s) (rowsTextCalls s) (console s).

Definition set_lastScreenHeight_ (v : option Q) (s : ScrollPort)
  : ScrollPort :=
  mkScrollPort (rowProvider_ s) (characterSize s) (selection s)
    (currentRowNodeCache_ s) (previousRowNodeCache_ s) (lastScreenWidth_ s)
    v (lastRowCount_ s) (scrollWheelMultiplier_ s) (lastTouch_ s)
    (isScrolledEnd s) (currentScrollbarWidthPx s) (timeouts_ s)
    (ariaHiddenSelectionRows_ s) (visibleRowCount s) (visibleRowTopMargin s)
    (visibleRowBottomMargin s) (rowNodes_ s) (topSelectBag_text s)
    (bottomSelectBag_text s) (screen_scrollTop s) (screen_clientSize s)
    (screen_getWidth s) (screen_getHeight s) (scrollArea_height s)
    (document_selection s) (accessibilityEnabled s) (timerQueue s)
    (nextTimerId s) (rowsTextCalls s) (console s).

Definition set_lastRowCount_ (v : Z) (s : ScrollPort)
  : ScrollPort :=
  mkScrollPort (rowProvider_ s) (characterSize s) (selection s)
    (currentRowNodeCache_ s) (previousRowNodeCache_ s) (lastScreenWidth_ s)
    (lastScreenHeight_ s) v (scrollWheelMultiplier_ s) (lastTouch_ s)
    (isScrolledEnd s) (currentScrollbarWidthPx s) (timeouts_ s)
    (ariaHiddenSelectionRows_ s) (visibleRowCount s) (visibleRowTopMargin s)
    (visibleRowBottomMargin s) (rowNodes_ s) (topSelectBag_text s)
    (bottomSelectBag_text s) (screen_scrollTop s) (screen_clientSize s)
    (screen_getWidth s) (screen_getHeight s) (scrollArea_height s)
    (document_selection s) (accessibilityEnabled s) (timerQueue s)
    (nextTimerId s) (rowsTextCalls s) (console s).

Definition set_lastTouch_ (v : gmap Z Touch) (s : ScrollPort)
  : ScrollPort :=
  mkScrollPort (rowProvider_ s) (characterSize s) (selection s)
    (currentRowNodeCache_ s) (previousRowNodeCache_ s) (lastScreenWidth_ s)
    (lastScreenHeight_ s) (lastRowCount_ s) (scrollWheelMultiplier_ s) v
    (isScrolledEnd s) (currentScrollbarWidthPx s) (timeouts_ s)
    (ariaHiddenSelectionRows_ s) (visibleRowCount s) (visibleRowTopMargin s)
    (visibleRowBottomMargin s) (rowNodes_ s) (topSelectBag_text s)
    (bottomSelectBag_text s) (screen_scrollTop s) (screen_clientSize s)
    (screen_getWidth s) (screen_getHeight s) (scrollArea_height s)
    (document_selection s) (accessibilityEnabled s) (timerQueue s)
    (nextTimerId s) (rowsTextCalls s) (console s).

Definition set_isScrolledEnd (v : bool) (s : ScrollPort)
  : ScrollPort :=
  mkScrollPort (rowProvider_ s) (characterSize s) (selection s)
    (currentRowNodeCache_ s) (previousRowNodeCache_ s) (lastScreenWidth_ s)
    (lastScreenHeight_ s) (lastRowCount_ s) (scrollWheelMultiplier_ s)
    (lastTouch_ s) v (currentScrollbarWidthPx s) (timeouts_ s)
    (ariaHiddenSelectionRows_ s) (visibleRowCount s) (visibleRowTopMargin s)
    (visibleRowBottomMargin s) (rowNodes_ s) (topSelectBag_text s)
    (bottomSelectBag_text s) (screen_scrollTop s) (screen_clientSize s)
    (screen_getWidth s) (screen_getHeight s) (scrollArea_height s)
    (document_selection s) (accessibilityEnabled s) (timerQueue s)
    (nextTimerId s) (rowsTextCalls s) (console s).

Definition set_timeouts_ (v : gmap string positive) (s : ScrollPort)
  : ScrollPort :=
  mkScrollPort (rowProvider_ s) (characterSize s) (selection s)
    (currentRowNodeCache_ s) (previousRowNodeCache_ s) (lastScreenWidth_ s)
    (lastScreenHeight_ s) (lastRowCount_ s) (scrollWheelMultiplier_ s)
    (lastTouch_ s) (isScrolledEnd s) (currentScrollbarWidthPx s) v
    (ariaHiddenSelectionRows_ s) (visibleRowCount s) (visibleRowTopMargin s)
    (visibleRowBottomMargin s) (rowNodes_ s) (topSelectBag_text s)
    (bottomSelectBag_text s) (screen_scrollTop s) (screen_clientSize s)
    (screen_getWidth s) (screen_getHeight s) (scrollArea_height s)
    (document_selection s) (accessibilityEnabled s) (timerQueue s)
    (nextTimerId s) (rowsTextCalls s) (console s).

Definition set_ariaHiddenSelectionRows_ (v : list row) (s : ScrollPort)
  : ScrollPort :=
  mkScrollPort (rowProvider_ s) (characterSize s) (selection s)
    (currentRowNodeCache_ s) (previousRowNodeCache_ s) (lastScreenWidth_ s)
    (lastScreenHeight_ s) (lastRowCount_ s) (scrollWheelMultiplier_ s)
    (lastTouch_ s) (isScrolledEnd s) (currentScrollbarWidthPx s)
    (timeouts_ s) v (visibleRowCount s) (visibleRowTopMargin s)
    (visibleRowBottomMargin s) (rowNodes_ s) (topSelectBag_text s)
    (bottomSelectBag_text s) (screen_scrollTop s) (screen_clientSize s)
    (screen_getWidth s) (screen_getHeight s) (scrollArea_height s)
    (document_selection s) (accessibilityEnabled s) (timerQueue s)
    (nextTimerId s) (rowsTextCalls s) (console s).

Definition set_visibleRowCount (v : Z) (s : ScrollPort)
  : ScrollPort :=
  mkScrollPort (rowProvider_ s) (characterSize s) (selection s)
    (currentRowNodeCache_ s) (previousRowNodeCache_ s) (lastScreenWidth_ s)
    (lastScreenHeight_ s) (lastRowCount_ s) (scrollWheelMultiplier_ s)
    (lastTouch_ s) (isScrolledEnd s) (currentScrollbarWidthPx s)
    (timeouts_ s) (ariaHiddenSelectionRows_ s) v (visibleRowTopMargin s)
    (visibleRowBottomMargin s) (rowNodes_ s) (topSelectBag_text s)
    (bottomSelectBag_text s) (screen_scrollTop s) (screen_clientSize s)
    (screen_getWidth s) (screen_getHeight s) (scrollArea_height s)
    (document_selection s) (accessibilityEnabled s) (timerQueue s)
    (nextTimerId s) (rowsTextCalls s) (console s).

Definition set_visibleRowTopMargin (v : Q) (s : ScrollPort)
  : ScrollPort :=
  mkScrollPort (rowProvider_ s) (characterSize s) (selection s)
    (currentRowNodeCache_ s) (previousRowNodeCache_ s) (lastScreenWidth_ s)
    (lastScreenHeight_ s) (lastRowCount_ s) (scrollWheelMultiplier_ s)
    (lastTouch_ s) (isScrolledEnd s) (currentScrollbarWidthPx s)
    (timeouts_ s) (ariaHiddenSelectionRows_ s) (visibleRowCount s) v
    (visibleRowBottomMargin s) (rowNodes_ s) (topSelectBag_text s)
    (bottomSelectBag_text s) (screen_scrollTop s) (screen_clientSize s)
    (screen_getWidth s) (screen_getHeight s) (scrollArea_height s)
    (document_selection s) (accessibilityEnabled s) (timerQueue s)
    (nextTimerId s) (rowsTextCalls s) (console s).

Definition set_visibleRowBottomMargin (v : Q) (s : ScrollPort)
  : ScrollPort :=
  mkScrollPort (rowProvider_ s) (characterSize s) (selection s)
    (currentRowNodeCache_ s) (previousRowNodeCache_ s) (lastScreenWidth_ s)
    (lastScreenHeight_ s) (lastRowCount_ s) (scrollWheelMultiplier_ s)
    (lastTouch_ s) (isScrolledEnd s) (currentScrollbarWidthPx s)
    (timeouts_ s) (ariaHiddenSelectionRows_ s) (visibleRowCount s)
    (visibleRowTopMargin s) v (rowNodes_ s) (topSelectBag_text s)
    (bottomSelectBag_text s) (screen_scrollTop s) (screen_clientSize s)
    (screen_getWidth s) (screen_getHeight s) (scrollArea_height s)
    (document_selection s) (accessibilityEnabled s) (timerQueue s)
    (nextTimerId s) (rowsTextCalls s) (console s).

Definition set_rowNodes_ (v : list Node) (s : ScrollPort)
  : ScrollPort :=
  mkScrollPort (rowProvider_ s) (characterSize s) (selection s)
    (currentRowNodeCache_ s) (previousRowNodeCache_ s) (lastScreenWidth_ s)
    (lastScreenHeight_ s) (lastRowCount_ s) (scrollWheelMultiplier_ s)
    (lastTouch_ s) (isScrolledEnd s) (currentScrollbarWidthPx s)
    (timeouts_ s) (ariaHiddenSelectionRows_ s) (visibleRowCount s)
    (visibleRowTopMargin s) (visibleRowBottomMargin s) v
    (topSelectBag_text s) (bottomSelectBag_text s) (screen_scrollTop s)
    (screen_clientSize s) (screen_getWidth s) (screen_getHeight s)
    (scrollArea_height s) (document_selection s) (accessibilityEnabled s)
    (timerQueue s) (nextTimerId s) (rowsTextCalls s) (console s).

Definition set_topSelectBag_text (v : string) (s : ScrollPort)
  : ScrollPort :=
  mkScrollPort (rowProvider_ s) (characterSize s) (selection s)
    (currentRowNodeCache_ s) (previousRowNodeCache_ s) (lastScreenWidth_ s)
    (lastScreenHeight_ s) (lastRowCount_ s) (scrollWheelMultiplier_ s)
    (lastTouch_ s) (isScrolledEnd s) (currentScrollbarWidthPx s)
    (timeouts_ s) (ariaHiddenSelectionRows_ s) (visibleRowCount s)
    (visibleRowTopMargin s) (visibleRowBottomMargin s) (rowNodes_ s) v
    (bottomSelectBag_text s) (screen_scrollTop s) (screen_clientSize s)
    (screen_getWidth s) (screen_getHeight s) (scrollArea_height s)
    (document_selection s) (accessibilityEnabled s) (timerQueue s)
    (nextTimerId s) (rowsTextCalls s) (console s).

Definition set_bottomSelectBag_text (v : string) (s : ScrollPort)
  : ScrollPort :=
  mkScrollPort (rowProvider_ s) (characterSize s) (selection s)
    (currentRowNodeCache_ s) (previousRowNodeCache_ s) (lastScreenWidth_ s)
    (lastScreenHeight_ s) (lastRowCount_ s) (scrollWheelMultiplier_ s)
    (lastTouch_ s) (isScrolledEnd s) (currentScrollbarWidthPx s)
    (timeouts_ s) (ariaHiddenSelectionRows_ s) (visibleRowCount s)
    (visibleRowTopMargin s) (visibleRowBottomMargin s) (rowNodes_ s)
    (topSelectBag_text s) v (screen_scrollTop s) (screen_clientSize s)
    (screen_getWidth s) (screen_getHeight s) (scrollArea_height s)
    (document_selection s) (accessibilityEnabled s) (timerQueue s)
    (nextTimerId s) (rowsTextCalls s) (console s).

Definition set_screen_scrollTop (v : Q) (s : ScrollPort)
  : ScrollPort :=
  mkScrollPort (rowProvider_ s) (characterSize s) (selection s)
    (currentRowNodeCache_ s) (previousRowNodeCache_ s) (lastScreenWidth_ s)
    (lastScreenHeight_ s) (lastRowCount_ s) (scrollWheelMultiplier_ s)
    (lastTouch_ s) (isScrolledEnd s) (currentScrollbarWidthPx s)
    (timeouts_ s) (ariaHiddenSelectionRows_ s) (visibleRowCount s)
    (visibleRowTopMargin s) (visibleRowBottomMargin s) (rowNodes_ s)
    (topSelectBag_text s) (bottomSelectBag_text s) v (screen_clientSize s)
    (screen_getWidth s) (screen_getHeight s) (scrollArea_height s)
    (document_selection s) (accessibilityEnabled s) (timerQueue s)
    (nextTimerId s) (rowsTextCalls s) (console s).

Definition set_scrollArea_height (v : Q) (s : ScrollPort)
  : ScrollPort :=
  mkScrollPort (rowProvider_ s) (characterSize s) (selection s)
    (currentRowNodeCache_ s) (previousRowNodeCache_ s) (lastScreenWidth_ s)
    (lastScreenHeight_ s) (lastRowCount_ s) (scrollWheelMultiplier_ s)
    (lastTouch_ s) (isScrolledEnd s) (currentScrollbarWidthPx s)
    (timeouts_ s) (ariaHiddenSelectionRows_ s) (visibleRowCount s)
    (visibleRowTopMargin s) (visibleRowBottomMargin s) (rowNodes_ s)
    (topSelectBag_text s) (bottomSelectBag_text s) (screen_scrollTop s)
    (screen_clientSize s) (screen_getWidth s) (screen_getHeight s) v
    (document_selection s) (accessibilityEnabled s) (timerQueue s)
    (nextTimerId s) (rowsTextCalls s) (console s).

Definition set_timerQueue (v : list (positive * TimerTask)) (s : ScrollPort)
  : ScrollPort :=
  mkScrollPort (rowProvider_ s) (characterSize s) (selection s)
    (currentRowNodeCache_ s) (previousRowNodeCache_ s) (lastScreenWidth_ s)
    (lastScreenHeight_ s) (lastRowCount_ s) (scrollWheelMultiplier_ s)
    (lastTouch_ s) (isScrolledEnd s) (currentScrollbarWidthPx s)
    (timeouts_ s) (ariaHiddenSelectionRows_ s) (visibleRowCount s)
    (visibleRowTopMargin s) (visibleRowBottomMargin s) (rowNodes_ s)
    (topSelectBag_text s) (bottomSelectBag_text s) (screen_scrollTop s)
    (screen_clientSize s) (screen_getWidth s) (screen_getHeight s)
    (scrollArea_height s) (document_selection s) (accessibilityEnabled s) v
    (nextTimerId s) (rowsTextCalls s) (console s).

Definition set_nextTimerId (v : positive) (s : ScrollPort)
  : ScrollPort :=
  mkScrollPort (rowProvider_ s) (characterSize s) (selection s)
    (currentRowNodeCache_ s) (previousRowNodeCache_ s) (lastScreenWidth_ s)
    (lastScreenHeight_ s) (lastRowCount_ s) (scrollWheelMultiplier_ s)
    (lastTouch_ s) (isScrolledEnd s) (currentScrollbarWidthPx s)
    (timeouts_ s) (ariaHiddenSelectionRows_ s) (visibleRowCount s)
    (visibleRowTopMargin s) (visibleRowBottomMargin s) (rowNodes_ s)
    (topSelectBag_text s) (bottomSelectBag_text s) (screen_scrollTop s)
    (screen_clientSize s) (screen_getWidth s) (screen_getHeight s)
    (scrollArea_height s) (document_selection s) (accessibilityEnabled s)
    (timerQueue s) v (rowsTextCalls s) (console s).

Definition set_rowsTextCalls (v : list (option Z * option Z)) (s : ScrollPort)
  : ScrollPort :=
  mkScrollPort (rowProvider_ s) (characterSize s) (selection s)
    (currentRowNodeCache_ s) (previousRowNodeCache_ s) (lastScreenWidth_ s)
    (lastScreenHeight_ s) (lastRowCount_ s) (scrollWheelMultiplier_ s)
    (lastTouch_ s) (isScrolledEnd s) (currentScrollbarWidthPx s)
    (timeouts_ s) (ariaHiddenSelectionRows_ s) (visibleRowCount s)
    (visibleRowTopMargin s) (visibleRowBottomMargin s) (rowNodes_ s)
    (topSelectBag_text s) (bottomSelectBag_text s) (screen_scrollTop s)
    (screen_clientSize s) (screen_getWidth s) (screen_getHeight s)
    (scrollArea_height s) (document_selection s) (accessibilityEnabled s)
    (timerQueue s) (nextTimerId s) v (console s).

Definition set_console (v : list string) (s : ScrollPort)
  : ScrollPort :=
  mkScrollPort (rowProvider_ s) (characterSize s) (selection s)
    (currentRowNodeCache_ s) (previousRowNodeCache_ s) (lastScreenWidth_ s)
    (lastScreenHeight_ s) (lastRowCount_ s) (scrollWheelMultiplier_ s)
    (lastTouch_ s) (isScrolledEnd s) (currentScrollbarWidthPx s)
    (timeouts_ s) (ariaHiddenSelectionRows_ s) (visibleRowCount s)
    (visibleRowTopMargin s) (visibleRowBottomMargin s) (rowNodes_ s)
    (topSelectBag_text s) (bottomSelectBag_text s) (screen_scrollTop s)
    (screen_clientSize s) (screen_getWidth s) (screen_getHeight s)
    (scrollArea_height s) (document_selection s) (accessibilityEnabled s)
    (timerQueue s) (nextTimerId s) (rowsTextCalls s) v.

(** ** Numbers *)

(** [Math.round]: the nearest integer, halves rounded up. *)
Definition Math_round (q : Q) : Z := Qfloor (q + (1 # 2)).

Definition Qlt_bool (a b : Q) : bool := negb (Qle_bool b a).

(** [clamp lo hi v]: the order of the two tests in [onScrollWheel_] and
    [onTouch_] ([if (v < lo) v = lo; if (v > hi) v = hi]). *)
Definition clamp (lo hi v : Q) : Q :=
  let v := if Qlt_bool v lo then lo else v in
  if Qlt_bool hi v then hi else v.

(** Modelled from the spec: [lib.f.smartFloorDivide] is defined outside
    this file; section 4.1 of the specification defines the visible row
    count as the integer floor of the division. *)
Definition smartFloorDivide (numerator denominator : Q) : Z :=
  Qfloor (numerator / denominator).

(** ** Geometry *)

Definition getScreenSize (sp : ScrollPort) : Size :=
  {| height := height (screen_clientSize sp);
     width := width (screen_clientSize sp) - currentScrollbarWidthPx sp |}.

Definition getScreenWidth (sp : ScrollPort) : Q := width (getScreenSize sp).
Definition getScreenHeight (sp : ScrollPort) : Q := height (getScreenSize sp).

Definition syncRowNodesDimensions_ (sp : ScrollPort) : ScrollPort :=
  let screenSize := getScreenSize sp in
  let sp := set_lastScreenWidth_ (Some (width screenSize)) sp in
  let sp := set_lastScreenHeight_ (Some (height screenSize)) sp in
  let sp := set_visibleRowCount
              (smartFloorDivide (height screenSize)
                 (height (characterSize sp))) sp in
  let visibleRowsHeight :=
    (inject_Z (visibleRowCount sp) * height (characterSize sp))%Q in
  let sp := set_visibleRowTopMargin 0%Q sp in
  set_visibleRowBottomMargin (height screenSize - visibleRowsHeight)%Q sp.

Definition syncScrollHeight (sp : ScrollPort) : ScrollPort :=
  let sp := set_lastRowCount_ (getRowCount (rowProvider_ sp)) sp in
  set_scrollArea_height
    (height (characterSize sp) * inject_Z (lastRowCount_ sp)
     + visibleRowTopMargin sp + visibleRowBottomMargin sp)%Q sp.

Definition getScrollMax_ (sp : ScrollPort) : Q :=
  (scrollArea_height sp + visibleRowTopMargin sp + visibleRowBottomMargin sp
   - height (screen_clientSize sp))%Q.

Definition getTopRowIndex (sp : ScrollPort) : Z :=
  Math_round (screen_scrollTop sp / height (characterSize sp)).

Definition getBottomRowIndex (sp : ScrollPort) (topRowIndex : Z) : Z :=
  (topRowIndex + visibleRowCount sp - 1)%Z.

(** ** The redraw scheduler *)

(** [setTimeout(task, 0)]: queue the callback, answer its handle. *)
Definition setTimeout (task : TimerTask) (sp : ScrollPort)
  : positive * ScrollPort :=
  let handle := nextTimerId sp in
  (handle,
   set_nextTimerId (Pos.succ handle)
     (set_timerQueue (timerQueue sp ++ [(handle, task)]) sp)).

Definition scheduleRedraw (sp : ScrollPort) : ScrollPort :=
  match timeouts_ sp !! "redraw" with
  | Some _ => sp
  | None =>
      let '(handle, sp) := setTimeout RedrawTask sp in
      set_timeouts_ (<["redraw" := handle]> (timeouts_ sp)) sp
  end.

(** ** Scrolling *)

Definition scrollRowToTop (rowIndex : Z) (sp : ScrollPort) : ScrollPort :=
  let sp := syncScrollHeight sp in
  let sp := set_isScrolledEnd
              (lastRowCount_ sp <=? rowIndex + visibleRowCount sp)%Z sp in
  let scrollTop :=
    (inject_Z rowIndex * height (characterSize sp)
     + visibleRowTopMargin sp)%Q in
  let scrollMax := getScrollMax_ sp in
  let scrollTop := if Qlt_bool scrollMax scrollTop then scrollMax
                   else scrollTop in
  if Qeq_bool (screen_scrollTop sp) scrollTop then sp
  else scheduleRedraw (set_screen_scrollTop scrollTop sp).


(** ** The row node cache *)

(** [cacheRowNode_(rowNode)] reads [rowNode.rowIndex]: it throws on a
    missing node. *)
Definition cacheRowNode_ (rowNode : option row) (sp : ScrollPort)
  : outcome ScrollPort :=
  match rowNode with
  | None => Throw TypeError
  | Some r =>
      match currentRowNodeCache_ sp with
      | None => Throw TypeError
      | Some cache =>
          Ok (set_currentRowNodeCache_ (Some (<[rowIndex r := r]> cache)) sp)
      end
  end.

Definition fetchRowNode_ (rowIndex : Z) (sp : ScrollPort)
  : outcome (option row * ScrollPort) :=
  let node :=
    match previousRowNodeCache_ sp ≫= (λ cache, cache !! rowIndex) with
    | Some r => Some r
    | None => getRowNode (rowProvider_ sp) rowIndex
    end in
  match currentRowNodeCache_ sp with
  | Some _ => sp ← cacheRowNode_ node sp; Ok (node, sp)
  | None => Ok (node, sp)
  end.

(** ** Reconciling the rendered window *)

Definition resetSelectBags_ (sp : ScrollPort) : ScrollPort :=
  let sp :=
    if decide (TopSelectBag ∈ rowNodes_ sp) then
      set_rowNodes_ (Dom.detach TopSelectBag (rowNodes_ sp))
        (set_topSelectBag_text "" sp)
    else sp in
  if decide (BottomSelectBag ∈ rowNodes_ sp) then
    set_rowNodes_ (Dom.detach BottomSelectBag (rowNodes_ sp))
      (set_bottomSelectBag_text "" sp)
  else sp.

(** [while (startRow.nextSibling != endRow)
       rowNodes_.removeChild(startRow.nextSibling)]. *)
Fixpoint trimIntermediate (fuel : nat) (s e : row) (kids : list Node)
  : outcome (list Node) :=
  if decide (Dom.nextSibling kids (XRow s) = Some (XRow e)) then Ok kids
  else match fuel with
       | O => OutOfFuel
       | S fuel =>
           kids ← Dom.removeChild kids (Dom.nextSibling kids (XRow s));
           trimIntermediate fuel s e kids
       end.

(** [while (rowNodes_.firstChild != startRow)
       rowNodes_.removeChild(rowNodes_.firstChild)]. *)
Fixpoint removeLeading (fuel : nat) (s : row) (kids : list Node)
  : outcome (list Node) :=
  if decide (Dom.firstChild kids = Some (XRow s)) then Ok kids
  else match fuel with
       | O => OutOfFuel
       | S fuel =>
           kids ← Dom.removeChild kids (Dom.firstChild kids);
           removeLeading fuel s kids
       end.

(** [while (rowNodes_.lastChild != endRow)
       rowNodes_.removeChild(rowNodes_.lastChild)]. *)
Fixpoint removeTrailing (fuel : nat) (e : row) (kids : list Node)
  : outcome (list Node) :=
  if decide (Dom.lastChild kids = Some (XRow e)) then Ok kids
  else match fuel with
       | O => OutOfFuel
       | S fuel =>
           kids ← Dom.removeChild kids (Dom.lastChild kids);
           removeTrailing fuel e kids
       end.

(** A JavaScript truth test on [isMultiline] ([null] is false). *)
Definition truthy (b : option bool) : bool := default false b.

(** [if (rowNodes_.firstChild != topFold_)
       rowNodes_.insertBefore(topFold_, rowNodes_.firstChild)]. *)
Definition foldFirst (kids : list Node) : outcome (list Node) :=
  if decide (Dom.firstChild kids = Some TopFold) then Ok kids
  else Dom.insertBefore kids TopFold (Dom.firstChild kids).

(** [if (r.nextSibling != topFold_)
       rowNodes_.insertBefore(topFold_, r.nextSibling)]. *)
Definition foldAfter (r : row) (kids : list Node) : outcome (list Node) :=
  if decide (Dom.nextSibling kids (XRow r) = Some TopFold) then Ok kids
  else Dom.insertBefore kids TopFold (Dom.nextSibling kids (XRow r)).

(** [if (rowNodes_.lastChild != bottomFold_)
       rowNodes_.appendChild(bottomFold_)]. *)
Definition foldLast (kids : list Node) : list Node :=
  if decide (Dom.lastChild kids = Some BottomFold) then kids
  else Dom.appendChild kids BottomFold.

(** [if (bottomFold_.nextSibling != r)
       rowNodes_.insertBefore(bottomFold_, r)]. *)
Definition foldBefore (r : row) (kids : list Node) : outcome (list Node) :=
  if decide (Dom.nextSibling kids BottomFold = Some (XRow r)) then Ok kids
  else Dom.insertBefore kids BottomFold (Some (XRow r)).

(** What [drawTopFold_] does to the children of [rowNodes_]. *)
Definition topFoldChildren (sel : Selection) (topRowIndex : Z)
    (kids : list Node) : outcome (list Node) :=
  match startRow sel with
  | None => foldFirst kids
  | Some s =>
      if (topRowIndex <=? rowIndex s)%Z then
        (* Selection is entirely below the top fold. *)
        foldFirst kids
      else
        kids ←
          (if negb (truthy (isMultiline sel)) then foldAfter s kids
           else
             match endRow sel with
             | None => Throw TypeError
             | Some e =>
                 if (topRowIndex <=? rowIndex e)%Z then
                   (* Only the startRow is above the fold. *)
                   foldAfter s kids
                 else
                   (* Both rows are above the fold. *)
                   kids ← foldAfter e kids;
                   trimIntermediate (S (length kids)) s e kids
             end);
        removeLeading (S (length kids)) s kids
  end.

Definition drawTopFold_ (topRowIndex : Z) (sp : ScrollPort)
  : outcome ScrollPort :=
  kids ← topFoldChildren (selection sp) topRowIndex (rowNodes_ sp);
  Ok (set_rowNodes_ kids sp).

(** What [drawBottomFold_] does to the children of [rowNodes_]. *)
Definition bottomFoldChildren (sel : Selection) (bottomRowIndex : Z)
    (kids : list Node) : outcome (list Node) :=
  match endRow sel with
  | None => Ok (foldLast kids)
  | Some e =>
      if (rowIndex e <=? bottomRowIndex)%Z then
        (* Selection is entirely above the bottom fold. *)
        Ok (foldLast kids)
      else
        kids ←
          (if negb (truthy (isMultiline sel)) then foldBefore e kids
           else
             match startRow sel with
             | None => Throw TypeError
             | Some s =>
                 if (rowIndex s <=? bottomRowIndex)%Z then
                   (* Only the endRow is below the fold. *)
                   foldBefore e kids
                 else
                   (* Both rows are below the fold. *)
                   kids ← foldBefore s kids;
                   trimIntermediate (S (length kids)) s e kids
             end);
        removeTrailing (S (length kids)) e kids
  end.

Definition drawBottomFold_ (bottomRowIndex : Z) (sp : ScrollPort)
  : outcome ScrollPort :=
  kids ← bottomFoldChildren (selection sp) bottomRowIndex (rowNodes_ sp);
  Ok (set_rowNodes_ kids sp).

(** [removeUntilNode(currentNode, targetNode)] of [drawVisibleRows_]. *)
Fixpoint removeUntilNode (fuel : nat) (kids : list Node)
    (currentNode : option Node) (targetNode : Node) : outcome (list Node) :=
  if decide (currentNode = Some targetNode) then Ok kids
  else match fuel with
       | O => OutOfFuel
       | S fuel =>
           match currentNode with
           | None => Throw "Did not encounter target node"
           | Some deadNode =>
               if decide (deadNode = BottomFold)
               then Throw "Encountered bottom fold before target node"
               else
                 let currentNode := Dom.nextSibling kids deadNode in
                 kids ← Dom.removeChild kids (Some deadNode);
                 removeUntilNode fuel kids currentNode targetNode
           end
       end.

(** One round of the [for] loop of [drawVisibleRows_]: it ends in
    [continue] or in [break], with the node under examination. *)
Inductive loopStep : Type :=
  | Continue (node : option Node) (sp : ScrollPort)
  | Break (node : option Node) (sp : ScrollPort).

Definition couldNotFetch (rowIndex : Z) (sp : ScrollPort) : ScrollPort :=
  set_console
    (console sp ++ ["Couldn't fetch row index: " +:+ pretty rowIndex]) sp.

(** Fetch the row and insert it before [node]. *)
Definition insertNewRow (rowIndex : Z) (node : option Node)
    (sp : ScrollPort) : outcome loopStep :=
  '(newNode, sp) ← fetchRowNode_ rowIndex sp;
  match newNode with
  | None => Ok (Break node (couldNotFetch rowIndex sp))
  | Some r =>
      kids ← Dom.insertBefore (rowNodes_ sp) (XRow r) node;
      Ok (Continue node (set_rowNodes_ kids sp))
  end.

(** [selectionRow && selectionRow.rowIndex == index]. *)
Definition isSelectionRow (selectionRow : option row) (index : Z) : bool :=
  match selectionRow with
  | Some r => (rowIndex r =? index)%Z
  | None => false
  end.

Definition drawRow (index : Z) (node : option Node) (sp : ScrollPort)
  : outcome loopStep :=
  let selectionStartRow := startRow (selection sp) in
  let selectionEndRow := endRow (selection sp) in
  if decide (node = Some BottomFold) then
    (* We've hit the bottom fold, we need to insert a new row. *)
    insertNewRow index node sp
  else
    match node with
    | None => Throw TypeError
    | Some n =>
        if decide (rowIndexOf n = Some index) then
          (* This node is in the right place, move along. *)
          Ok (Continue (Dom.nextSibling (rowNodes_ sp) n) sp)
        else if isSelectionRow selectionStartRow index then
          match selectionStartRow with
          | None => Throw TypeError
          | Some s =>
              kids ← removeUntilNode (S (length (rowNodes_ sp))) (rowNodes_ sp)
                       node (XRow s);
              Ok (Continue (Dom.nextSibling kids (XRow s))
                    (set_rowNodes_ kids sp))
          end
        else if isSelectionRow selectionEndRow index then
          match selectionEndRow with
          | None => Throw TypeError
          | Some e =>
              kids ← removeUntilNode (S (length (rowNodes_ sp))) (rowNodes_ sp)
                       node (XRow e);
              Ok (Continue (Dom.nextSibling kids (XRow e))
                    (set_rowNodes_ kids sp))
          end
        else if bool_decide (node = XRow <$> selectionStartRow)
                || bool_decide (node = XRow <$> selectionEndRow) then
          (* The start/end of the selection, not wanted yet. *)
          insertNewRow index node sp
        else
          (* Replace the node with the one that should be here. *)
          '(newNode, sp) ← fetchRowNode_ index sp;
          match newNode with
          | None => Ok (Break node (couldNotFetch index sp))
          | Some r =>
              if decide (n = XRow r) then
                Ok (Continue (Dom.nextSibling (rowNodes_ sp) n) sp)
              else
                kids ← Dom.insertBefore (rowNodes_ sp) (XRow r) node;
                kids ← Dom.removeChild kids node;
                Ok (Continue (Dom.nextSibling kids (XRow r))
                      (set_rowNodes_ kids sp))
          end
    end.

(** The [for] loop: [count] rounds left, the next one draws [index]. *)
Fixpoint drawRows (count : nat) (index : Z) (node : option Node)
    (sp : ScrollPort) : outcome (option Node * ScrollPort) :=
  match count with
  | O => Ok (node, sp)
  | S count =>
      step ← drawRow index node sp;
      match step with
      | Continue node sp => drawRows count (index + 1)%Z node sp
      | Break node sp => Ok (node, sp)
      end
  end.

Definition drawVisibleRows_ (topRowIndex bottomRowIndex : Z)
    (sp : ScrollPort) : outcome ScrollPort :=
  let node := Dom.nextSibling (rowNodes_ sp) TopFold in
  let targetDrawCount :=
    Z.min (visibleRowCount sp) (getRowCount (rowProvider_ sp)) in
  '(node, sp) ← drawRows (Z.to_nat targetDrawCount) topRowIndex node sp;
  if decide (node = Some BottomFold) then Ok sp
  else
    kids ← removeUntilNode (S (length (rowNodes_ sp))) (rowNodes_ sp)
             node BottomFold;
    Ok (set_rowNodes_ kids sp).

Definition ariaHideOffscreenSelectionRows_ (topRowIndex bottomRowIndex : Z)
    (sp : ScrollPort) : ScrollPort :=
  let checkRow (r : option row) : list row :=
    match r with
    | Some r =>
        if (rowIndex r <? topRowIndex)%Z || (bottomRowIndex <? rowIndex r)%Z
        then [r] else []
    | None => []
    end in
  set_ariaHiddenSelectionRows_
    (checkRow (startRow (selection sp)) ++ checkRow (endRow (selection sp)))
    sp.

(** [this.selection.sync()]. *)
Definition syncSelection (sp : ScrollPort) : outcome ScrollPort :=
  sel ← SelectionProxy.sync (document_selection sp)
           (accessibilityEnabled sp) (selection sp);
  Ok (set_selection sel sp).

Definition redraw_ (sp : ScrollPort) : outcome ScrollPort :=
  let sp := resetSelectBags_ sp in
  sp ← syncSelection sp;
  let sp := syncScrollHeight sp in
  let sp := set_currentRowNodeCache_ (Some ∅) sp in
  let topRowIndex := getTopRowIndex sp in
  let bottomRowIndex := getBottomRowIndex sp topRowIndex in
  sp ← drawTopFold_ topRowIndex sp;
  sp ← drawBottomFold_ bottomRowIndex sp;
  sp ← drawVisibleRows_ topRowIndex bottomRowIndex sp;
  let sp := ariaHideOffscreenSelectionRows_ topRowIndex bottomRowIndex sp in
  let sp := syncRowNodesDimensions_ sp in
  let sp := set_previousRowNodeCache_ (currentRowNodeCache_ sp) sp in
  let sp := set_currentRowNodeCache_ None sp in
  Ok (set_isScrolledEnd
        (lastRowCount_ sp <=? getTopRowIndex sp + visibleRowCount sp)%Z sp).

(** [while (node != bottomFold_) { remove node; node = next }] of
    [invalidate]. *)
Fixpoint removeVisible (fuel : nat) (kids : list Node) (node : option Node)
  : outcome (list Node) :=
  if decide (node = Some BottomFold) then Ok kids
  else match fuel with
       | O => OutOfFuel
       | S fuel =>
           match node with
           | None => Throw TypeError
           | Some n =>
               let nextSibling := Dom.nextSibling kids n in
               kids ← Dom.removeChild kids (Some n);
               removeVisible fuel kids nextSibling
           end
       end.

Definition invalidate (sp : ScrollPort) : outcome ScrollPort :=
  kids ← removeVisible (S (length (rowNodes_ sp))) (rowNodes_ sp)
           (Dom.nextSibling (rowNodes_ sp) TopFold);
  let sp := set_rowNodes_ kids sp in
  let sp := set_previousRowNodeCache_ None sp in
  let topRowIndex := getTopRowIndex sp in
  let bottomRowIndex := getBottomRowIndex sp topRowIndex in
  drawVisibleRows_ topRowIndex bottomRowIndex sp.

Definition scheduleInvalidate (sp : ScrollPort) : ScrollPort :=
  match timeouts_ sp !! "invalidate" with
  | Some _ => sp
  | None =>
      let '(handle, sp) := setTimeout InvalidateTask sp in
      set_timeouts_ (<["invalidate" := handle]> (timeouts_ sp)) sp
  end.

(** ** The host timer queue *)

(** The body of a deferred callback. *)
Definition runTask (task : TimerTask) (sp : ScrollPort) : outcome ScrollPort :=
  match task with
  | RedrawTask =>
      redraw_ (set_timeouts_ (delete "redraw" (timeouts_ sp)) sp)
  | InvalidateTask =>
      invalidate (set_timeouts_ (delete "invalidate" (timeouts_ sp)) sp)
  end.

(** The host fires the oldest pending timer, if there is one. *)
Definition fireTimer (sp : ScrollPort)
  : option (TimerTask * outcome ScrollPort) :=
  match timerQueue sp with
  | [] => None
  | (_, task) :: pending =>
      Some (task, runTask task (set_timerQueue pending sp))
  end.

(** The number of redraw passes the pending timers will run. *)
Definition pendingRedraws (sp : ScrollPort) : nat :=
  length (filter (λ t, t.2 = RedrawTask) (timerQueue sp)).

(** ** Wheel input *)

Module Delta.
Record t : Type := mk { x : Q; y : Q }.
End Delta.

Module WheelEvent.
(** The unit of the deltas of a wheel event. *)
Definition DOM_DELTA_PIXEL : Z := 0.
Definition DOM_DELTA_LINE : Z := 1.
Definition DOM_DELTA_PAGE : Z := 2.

Record t : Type := mk {
  deltaMode : Z;
  deltaX : Q;
  deltaY : Q;
  defaultPrevented : bool;
  cancelable : bool
}.

Definition preventDefault (e : t) : t :=
  mk (deltaMode e) (deltaX e) (deltaY e) true (cancelable e).
End WheelEvent.

Definition scrollWheelDelta (e : WheelEvent.t) (sp : ScrollPort) : Delta.t :=
  let delta :=
    if (WheelEvent.deltaMode e =? WheelEvent.DOM_DELTA_PIXEL)%Z then
      Delta.mk (WheelEvent.deltaX e * scrollWheelMultiplier_ sp)
               (WheelEvent.deltaY e * scrollWheelMultiplier_ sp)
    else if (WheelEvent.deltaMode e =? WheelEvent.DOM_DELTA_LINE)%Z then
      Delta.mk (WheelEvent.deltaX e * width (characterSize sp))
               (WheelEvent.deltaY e * height (characterSize sp))
    else if (WheelEvent.deltaMode e =? WheelEvent.DOM_DELTA_PAGE)%Z then
      Delta.mk (WheelEvent.deltaX e * width (characterSize sp)
                * screen_getWidth sp)
               (WheelEvent.deltaY e * height (characterSize sp)
                * screen_getHeight sp)
    else Delta.mk 0 0 in
  Delta.mk (Delta.x delta) (Delta.y delta * -1).

(** [onScrollWheel_], after the client hook [onScrollWheel] ran. *)
Definition onScrollWheel_ (e : WheelEvent.t) (sp : ScrollPort)
  : WheelEvent.t * ScrollPort :=
  if WheelEvent.defaultPrevented e || negb (WheelEvent.cancelable e)
  then (e, sp)
  else
    let delta := scrollWheelDelta e sp in
    let top := clamp 0 (getScrollMax_ sp)
                 (screen_scrollTop sp - Delta.y delta) in
    if Qeq_bool top (screen_scrollTop sp) then (e, sp)
    else (WheelEvent.preventDefault e, set_screen_scrollTop top sp).

(** ** Touch input *)

Module TouchPoint.
Record t : Type := mk { identifier : Z; clientX : Q; clientY : Q }.
End TouchPoint.

Module TouchEvent.
Record t : Type := mk {
  type : string;
  changedTouches : list TouchPoint.t;
  defaultPrevented : bool
}.

Definition preventDefault (e : t) : t :=
  mk (type e) (changedTouches e) true.
End TouchEvent.

Definition scrubTouch (t : TouchPoint.t) : Touch :=
  {| id := TouchPoint.identifier t;
     y := TouchPoint.clientY t;
     x := TouchPoint.clientX t |}.

(** The [touchstart] loop. *)
Fixpoint saveTouches (touches : list TouchPoint.t) (lastTouch : gmap Z Touch)
  : gmap Z Touch :=
  match touches with
  | [] => lastTouch
  | t :: touches =>
      let touch := scrubTouch t in
      saveTouches touches (<[id touch := touch]> lastTouch)
  end.

(** The [touchend]/[touchcancel] loop. *)
Fixpoint dropTouches (touches : list TouchPoint.t) (lastTouch : gmap Z Touch)
  : gmap Z Touch :=
  match touches with
  | [] => lastTouch
  | t :: touches =>
      dropTouches touches (delete (TouchPoint.identifier t) lastTouch)
  end.

(** The [touchmove] loop: [delta += lastTouch_[id].y - touch.y], which
    throws on a touch that was never recorded. *)
Fixpoint mergeTouches (touches : list TouchPoint.t) (delta : Q)
    (lastTouch : gmap Z Touch) : outcome (Q * gmap Z Touch) :=
  match touches with
  | [] => Ok (delta, lastTouch)
  | t :: touches =>
      let touch := scrubTouch t in
      match lastTouch !! id touch with
      | None => Throw TypeError
      | Some last =>
          mergeTouches touches (delta + (y last - y touch))
            (<[id touch := touch]> lastTouch)
      end
  end.

(** [onTouch_], after the client hook [onTouch] ran. *)
Definition onTouch_ (e : TouchEvent.t) (sp : ScrollPort)
  : outcome (TouchEvent.t * ScrollPort) :=
  if TouchEvent.defaultPrevented e then Ok (e, sp)
  else
    sp ←
      (if String.eqb (TouchEvent.type e) "touchstart" then
         Ok (set_lastTouch_
               (saveTouches (TouchEvent.changedTouches e) (lastTouch_ sp))
               sp)
       else if String.eqb (TouchEvent.type e) "touchcancel"
               || String.eqb (TouchEvent.type e) "touchend" then
         Ok (set_lastTouch_
               (dropTouches (TouchEvent.changedTouches e) (lastTouch_ sp))
               sp)
       else if String.eqb (TouchEvent.type e) "touchmove" then
         '(delta, lastTouch) ←
           mergeTouches (TouchEvent.changedTouches e) 0 (lastTouch_ sp);
         let sp := set_lastTouch_ lastTouch sp in
         let delta := (delta * -1)%Q in
         let top := clamp 0 (getScrollMax_ sp) (screen_scrollTop sp - delta) in
         Ok (if Qeq_bool top (screen_scrollTop sp) then sp
             else set_screen_scrollTop top sp)
       else Ok sp);
    Ok (TouchEvent.preventDefault e, sp).

(** ** Copy *)

(** [onCopy_], after the client hook [onCopy] ran; [defaultPrevented] is
    the flag of the event. *)
Definition onCopy_ (defaultPrevented : bool) (sp : ScrollPort)
  : outcome ScrollPort :=
  if defaultPrevented then Ok sp
  else
    let sp := resetSelectBags_ sp in
    sp ← syncSelection sp;
    if truthy (isCollapsed (selection sp)) then Ok sp
    else
      match endRow (selection sp), startRow (selection sp) with
      | Some e, Some s =>
          if (rowIndex e - rowIndex s <? 2)%Z then Ok sp
          else
            let topRowIndex := getTopRowIndex sp in
            let bottomRowIndex := getBottomRowIndex sp topRowIndex in
            sp ←
              (if (rowIndex s <? topRowIndex)%Z then
                 endBackfillIndex ←
                   (if (rowIndex e <? topRowIndex)%Z
                    then Ok (Some (rowIndex e))
                    else match Dom.nextSibling (rowNodes_ sp) TopFold with
                         | None => Throw TypeError
                         | Some n => Ok (rowIndexOf n)
                         end);
                 let first := Some (rowIndex s + 1)%Z in
                 let sp := set_rowsTextCalls
                             (rowsTextCalls sp ++ [(first, endBackfillIndex)])
                             sp in
                 let sp := set_topSelectBag_text
                             (getRowsText (rowProvider_ sp) first
                                endBackfillIndex) sp in
                 kids ← Dom.insertBefore (rowNodes_ sp) TopSelectBag
                          (Dom.nextSibling (rowNodes_ sp) (XRow s));
                 Ok (syncRowNodesDimensions_ (set_rowNodes_ kids sp))
               else Ok sp);
            if (bottomRowIndex <? rowIndex e)%Z then
              startBackfillIndex ←
                (if (bottomRowIndex <? rowIndex s)%Z
                 then Ok (Some (rowIndex s + 1)%Z)
                 else match Dom.previousSibling (rowNodes_ sp) BottomFold with
                      | None => Throw TypeError
                      | Some n => Ok ((λ i, i + 1)%Z <$> rowIndexOf n)
                      end);
              let last := Some (rowIndex e) in
              let sp := set_rowsTextCalls
                          (rowsTextCalls sp ++ [(startBackfillIndex, last)])
                          sp in
              let sp := set_bottomSelectBag_text
                          (getRowsText (rowProvider_ sp) startBackfillIndex
                             last) sp in
              kids ← Dom.insertBefore (rowNodes_ sp) BottomSelectBag
                       (Some (XRow e));
              Ok (set_rowNodes_ kids sp)
            else Ok sp
      | _, _ => Throw TypeError
      end.

(** ** Vocabulary of the proofs *)

Definition providerCoherent (p : RowProvider) : Prop :=
  ∀ i r, getRowNode p i = Some r → rowIndex r = i.
Definition cacheCoherent (c : option (gmap Z row)) : Prop :=
  ∀ m i r, c = Some m → m !! i = Some r → rowIndex r = i.

(** ** Frames: what a window fill leaves alone *)
Definition withFill (kids : list Node) (cache : option (gmap Z row))
    (log : list string) (sp : ScrollPort) : ScrollPort :=
  set_rowNodes_ kids (set_currentRowNodeCache_ cache (set_console log sp)).

Definition fills (sp sp' : ScrollPort) : Prop :=
  ∃ kids cache log, sp' = withFill kids cache log sp.

(** [l] is [l0] without some rows whose index lies in the [k] indices
    drawn so far. *)
Definition prunes (top : Z) (k : nat) (l0 l : list Node) : Prop :=
  l `sublist_of` l0
  ∧ ∀ x, x ∈ l0 → x ∉ l →
         ∃ i, rowIndexOf x = Some i ∧ (top ≤ i < top + Z.of_nat k)%Z.

Definition fillInv (top : Z) (k : nat) (pre0 suf0 kids : list Node)
    (node : option Node) : Prop :=
  ∃ pre placed rest,
    kids = pre ++ TopFold :: placed ++ rest ∧ node = head rest
    ∧ rowIndexOf <$> placed = Some <$> seqZ top (Z.of_nat k)
    ∧ prunes top k pre0 pre
    ∧ prunes top k suf0 (Dom.after BottomFold rest).

Definition stepPost (top : Z) (k : nat) (pre0 suf0 : list Node)
    (sp : ScrollPort) (node : option Node) (step : loopStep) : Prop :=
  match step with
  | Continue node' sp' =>
      fills sp sp' ∧ NoDup (rowNodes_ sp')
      ∧ fillInv top (S k) pre0 suf0 (rowNodes_ sp') node'
      ∧ (is_Some (currentRowNodeCache_ sp) →
         is_Some (currentRowNodeCache_ sp'))
  | Break node' sp' =>
      fills sp sp' ∧ node' = node ∧ rowNodes_ sp' = rowNodes_ sp
      ∧ currentRowNodeCache_ sp = None
      ∧ getRowNode (rowProvider_ sp) (top + Z.of_nat k) = None
  end.

Definition beforeFolds (sel : Selection) (sp : ScrollPort) : ScrollPort :=
  set_currentRowNodeCache_ (Some ∅)
    (syncScrollHeight (set_selection sel (resetSelectBags_ sp))).

Definition afterFill (topRowIndex bottomRowIndex : Z) (sp : ScrollPort)
  : ScrollPort :=
  let sp := ariaHideOffscreenSelectionRows_ topRowIndex bottomRowIndex sp in
  let sp := syncRowNodesDimensions_ sp in
  let sp := set_previousRowNodeCache_ (currentRowNodeCache_ sp) sp in
  let sp := set_currentRowNodeCache_ None sp in
  set_isScrolledEnd
    (lastRowCount_ sp <=? getTopRowIndex sp + visibleRowCount sp)%Z sp.

(** ** Consecutive passes over a pinned selection *)

(** [n] reconciliation passes in a row, with nothing else in between. *)
Fixpoint passes (n : nat) (sp : ScrollPort) : outcome ScrollPort :=
  match n with
  | O => Ok sp
  | S n => sp ← redraw_ sp; passes n sp
  end.

(** The scenario of a selection pinned at rows 2 and 2000 around a window
    that shows rows 500 to 524: what [sync] reads from the native
    selection, where the scroll offset and the geometry put the window,
    and the standing assumptions on the DOM (a node is a child once, the
    start row precedes the end row) and on the row provider (a row it
    hands out carries the index it was asked for, and it can supply the
    rows of the window). *)
Record pinnedSelection (s e : row) (sp : ScrollPort) : Prop := {
  pinned_sync :
    ∃ sel, SelectionProxy.sync (document_selection sp)
             (accessibilityEnabled sp) (selection sp) = Ok sel
           ∧ startRow sel = Some s ∧ endRow sel = Some e;
  pinned_start : rowIndex s = 2%Z;
  pinned_end : rowIndex e = 2000%Z;
  window_top : getTopRowIndex sp = 500%Z;
  window_rows : visibleRowCount sp = 25%Z;
  geometry_settled :
    smartFloorDivide (height (getScreenSize sp)) (height (characterSize sp))
    = 25%Z;
  kids_distinct : NoDup (rowNodes_ sp);
  kids_order : ∃ A B C, rowNodes_ sp = A ++ XRow s :: B ++ XRow e :: C;
  provider_coherent : providerCoherent (rowProvider_ sp);
  cache_coherent : cacheCoherent (previousRowNodeCache_ sp);
  rows_supplied :
    ∀ i, (500 ≤ i < 525)%Z → is_Some (getRowNode (rowProvider_ sp) i)
}.

(** What no reconciliation pass writes: the row provider, the character
    size, the scroll offset, the measured screen, the native selection and
    the accessibility flag. *)
Definition env (sp : ScrollPort) :=
  (rowProvider_ sp, characterSize sp, screen_scrollTop sp,
   screen_clientSize sp, currentScrollbarWidthPx sp, document_selection sp,
   accessibilityEnabled sp).

(** ** Example states *)

(** A provider of [n] rows: the node of row [i] has identity [i]. *)
Definition exampleProvider (n : Z) : RowProvider :=
  {| getRowCount := n;
     getRowNode i := if decide (0 ≤ i < n)%Z
                     then Some (mkRow (Z.to_nat i) i) else None;
     getRowsText first last := "" |}.

(** A scroll port over [provider], freshly decorated and resized to a
    screen of [screenHeight] pixels with cells of 16 by 8 pixels, scrolled
    to [scrollTop], with the children [kids] and the native selection
    [native]. *)
Definition exampleScrollPort (provider : RowProvider) (screenHeight : Q)
    (scrollTop : Q) (kids : list Node) (native : option DomSelection)
  : ScrollPort :=
  {| rowProvider_ := provider;
     characterSize := {| width := 8; height := 16 |};
     selection := newSelection;
     currentRowNodeCache_ := None;
     previousRowNodeCache_ := Some ∅;
     lastScreenWidth_ := Some 784%Q;
     lastScreenHeight_ := Some screenHeight;
     lastRowCount_ := getRowCount provider;
     scrollWheelMultiplier_ := 1;
     lastTouch_ := ∅;
     isScrolledEnd := true;
     currentScrollbarWidthPx := 16;
     timeouts_ := ∅;
     ariaHiddenSelectionRows_ := [];
     visibleRowCount := smartFloorDivide screenHeight 16;
     visibleRowTopMargin := 0;
     visibleRowBottomMargin :=
       screenHeight - inject_Z (smartFloorDivide screenHeight 16) * 16;
     rowNodes_ := kids;
     topSelectBag_text := "";
     bottomSelectBag_text := "";
     screen_scrollTop := scrollTop;
     screen_clientSize := {| width := 800; height := screenHeight |};
     screen_getWidth := 98;
     screen_getHeight := 25;
     scrollArea_height := 0;
     document_selection := native;
     accessibilityEnabled := false;
     timerQueue := [];
     nextTimerId := 1%positive;
     rowsTextCalls := [];
     console := [] |}.

(** A row element holding one text node, and that text node. *)
Definition rowElement (r : row) : DomNode :=
  mkDomNode (XRow r) None [mkDomNode (TextNode (uid r)) None []].
Definition textOf (r : row) : DomNode :=
  mkDomNode (TextNode (uid r)) (Some (rowElement r)) [].

(** A native selection from the text of row [a] to the text of row [f]. *)
Definition selectRows (a f : row) : option DomSelection :=
  Some {| anchorNode := Some (textOf a); anchorOffset := 0;
          focusNode := Some (textOf f); focusOffset := 3 |}.

Definition row2 : row := mkRow 2 2.
Definition row2000 : row := mkRow 2000 2000.

(** Rows 2 and 2000 selected, the window at row 500 of 3000, 25 rows
    high, before its first pass. *)
Definition pinnedExample : ScrollPort :=
  exampleScrollPort (exampleProvider 3000) 400 8000
    [TopFold; XRow row2; XRow (mkRow 3 3); BottomFold; XRow row2000]
    (selectRows row2000 row2).

(** ** Geometry in step with the screen *)

(** What [syncRowNodesDimensions_] establishes: no top margin, and a bottom
    margin that is the part of the screen height left over by the visible
    rows. *)
Definition geometrySynced (sp : ScrollPort) : Prop :=
  (visibleRowTopMargin sp == 0
   ∧ visibleRowBottomMargin sp
     == height (screen_clientSize sp)
        - inject_Z (visibleRowCount sp) * height (characterSize sp)
   ∧ 0 <= visibleRowBottomMargin sp
   ∧ 0 < height (characterSize sp))%Q.

(** The offset [scrollRowToTop] aims at: the top of row [i], but not
    beyond the maximum scroll position. *)
Definition scrollTopTarget (i : Z) (sp : ScrollPort) : Q :=
  let sp := syncScrollHeight sp in
  let scrollTop :=
    (inject_Z i * height (characterSize sp) + visibleRowTopMargin sp)%Q in
  if Qlt_bool (getScrollMax_ sp) scrollTop then getScrollMax_ sp
  else scrollTop.

(** 1000 rows on a screen of 409 pixels: 25 rows of 16 pixels and a
    bottom margin of 9. *)
Definition tallExample : ScrollPort :=
  exampleScrollPort (exampleProvider 1000) 409 0 [TopFold; BottomFold] None.

(** 1000 rows on a screen of 400 pixels: 25 rows of 16 pixels, no
    margin. *)
Definition evenExample : ScrollPort :=
  exampleScrollPort (exampleProvider 1000) 400 0 [TopFold; BottomFold] None.

(** ** The scheduler *)

(** What the redraw scheduler and the host timer queue hold. *)
Definition sched (sp : ScrollPort) :=
  (timerQueue sp, timeouts_ sp, nextTimerId sp).

(** The state in which the deferred redraw callback of [armed] runs: the
    host has taken the callback off its queue and the callback has deleted
    its handle. *)
Definition redrawCallbackState (armed : ScrollPort) : ScrollPort :=
  set_timeouts_ (delete "redraw" (timeouts_ (set_timerQueue [] armed)))
    (set_timerQueue [] armed).

(** ** Touch movement *)

(** The change of the vertical coordinate of touch [t] since the position
    recorded for it in [lastTouch]. *)
Definition touchChange (lastTouch : gmap Z Touch) (t : TouchPoint.t) : Q :=
  match lastTouch !! TouchPoint.identifier t with
  | Some last => TouchPoint.clientY t - y last
  | None => 0
  end.

Definition sumQ (l : list Q) : Q := foldr Qplus 0%Q l.

(** Two fingers down at heights 100 and 200, the offset at 8000 of a
    possible 47600. *)
Definition touchExample : ScrollPort :=
  set_lastTouch_ {[ 1%Z := mkTouch 1 100 0; 2%Z := mkTouch 2 200 0 ]}
    (syncScrollHeight pinnedExample).

(** Both fingers move up, by 10 and by 20 pixels. *)
Definition twoFingerMove : TouchEvent.t :=
  TouchEvent.mk "touchmove"
    [TouchPoint.mk 1 0 90; TouchPoint.mk 2 0 180] false.

(** ** Wheel events *)

(** Three lines down. *)
Definition threeLines : WheelEvent.t :=
  WheelEvent.mk WheelEvent.DOM_DELTA_LINE 0 3 false true.

(** The state a round of the [for] loop ends in. *)
Definition stateOf (step : loopStep) : ScrollPort :=
  match step with Continue _ sp | Break _ sp => sp end.

(** ** A selection the row does not contain *)



(** ** Select bags *)




(** ** A provider with a gap *)

(** A provider that reports three rows and has no node for row 1. *)
Definition gappyProvider : RowProvider :=
  {| getRowCount := 3;
     getRowNode i := if decide (i = 1%Z) then None
                     else if decide (0 ≤ i < 3)%Z
                          then Some (mkRow (Z.to_nat i) i) else None;
     getRowsText first last := "" |}.

(** An empty window over it, 25 rows high, at the top. *)
Definition gappyExample : ScrollPort :=
  exampleScrollPort gappyProvider 400 0 [TopFold; BottomFold] None.

(** ** Further vocabulary *)

(** The nodes below [parent] in document order (depth first, a node
    before its children). *)
Fixpoint descendants (parent : DomNode) : list Node :=
  match parent with
  | mkDomNode _ _ kids =>
      (fix walk (ns : list DomNode) : list Node :=
         match ns with
         | [] => []
         | n :: rest => self n :: descendants n ++ walk rest
         end) kids
  end.

(** ** Further field updates *)

Definition set_rowProvider_ (v : RowProvider) (s : ScrollPort)
  : ScrollPort :=
  mkScrollPort v (characterSize s) (selection s) (currentRowNodeCache_ s)
    (previousRowNodeCache_ s) (lastScreenWidth_ s) (lastScreenHeight_ s)
    (lastRowCount_ s) (scrollWheelMultiplier_ s) (lastTouch_ s)
    (isScrolledEnd s) (currentScrollbarWidthPx s) (timeouts_ s)
    (ariaHiddenSelectionRows_ s) (visibleRowCount s) (visibleRowTopMargin s)
    (visibleRowBottomMargin s) (rowNodes_ s) (topSelectBag_text s)
    (bottomSelectBag_text s) (screen_scrollTop s) (screen_clientSize s)
    (screen_getWidth s) (screen_getHeight s) (scrollArea_height s)
    (document_selection s) (accessibilityEnabled s) (timerQueue s)
    (nextTimerId s) (rowsTextCalls s) (console s).

Definition set_scrollWheelMultiplier_ (v : Q) (s : ScrollPort)
  : ScrollPort :=
  mkScrollPort (rowProvider_ s) (characterSize s) (selection s)
    (currentRowNodeCache_ s) (previousRowNodeCache_ s) (lastScreenWidth_ s)
    (lastScreenHeight_ s) (lastRowCount_ s) v (lastTouch_ s)
    (isScrolledEnd s) (currentScrollbarWidthPx s) (timeouts_ s)
    (ariaHiddenSelectionRows_ s) (visibleRowCount s) (visibleRowTopMargin s)
    (visibleRowBottomMargin s) (rowNodes_ s) (topSelectBag_text s)
    (bottomSelectBag_text s) (screen_scrollTop s) (screen_clientSize s)
    (screen_getWidth s) (screen_getHeight s) (scrollArea_height s)
    (document_selection s) (accessibilityEnabled s) (timerQueue s)
    (nextTimerId s) (rowsTextCalls s) (console s).

Definition set_document_selection (v : option DomSelection) (s : ScrollPort)
  : ScrollPort :=
  mkScrollPort (rowProvider_ s) (characterSize s) (selection s)
    (currentRowNodeCache_ s) (previousRowNodeCache_ s) (lastScreenWidth_ s)
    (lastScreenHeight_ s) (lastRowCount_ s) (scrollWheelMultiplier_ s)
    (lastTouch_ s) (isScrolledEnd s) (currentScrollbarWidthPx s)
    (timeouts_ s) (ariaHiddenSelectionRows_ s) (visibleRowCount s)
    (visibleRowTopMargin s) (visibleRowBottomMargin s) (rowNodes_ s)
    (topSelectBag_text s) (bottomSelectBag_text s) (screen_scrollTop s)
    (screen_clientSize s) (screen_getWidth s) (screen_getHeight s)
    (scrollArea_height s) v (accessibilityEnabled s) (timerQueue s)
    (nextTimerId s) (rowsTextCalls s) (console s).

(** ** Changing the row provider *)

Definition resetCache (sp : ScrollPort) : ScrollPort :=
  let sp := set_currentRowNodeCache_ None sp in
  set_previousRowNodeCache_ (Some ∅) sp.

Definition setRowProvider (rowProvider : RowProvider) (sp : ScrollPort)
  : ScrollPort :=
  let sp := resetCache sp in
  let sp := set_rowProvider_ rowProvider sp in
  scheduleRedraw sp.

Definition setScrollWheelMoveMultipler (multiplier : Q) (sp : ScrollPort)
  : ScrollPort :=
  set_scrollWheelMultiplier_ multiplier sp.

(** The end of [redraw_]: the cache of this pass becomes the cache of the
    next one. *)
Definition rotateCaches (sp : ScrollPort) : ScrollPort :=
  let sp := set_previousRowNodeCache_ (currentRowNodeCache_ sp) sp in
  set_currentRowNodeCache_ None sp.

(** ** Further example states *)

(** Rows 2 and 2000 selected and pinned around a window that holds rows
    500 and 501. *)
Definition copyExample : ScrollPort :=
  exampleScrollPort (exampleProvider 3000) 400 8000
    [XRow row2; TopFold; XRow (mkRow 500 500); XRow (mkRow 501 501);
     BottomFold; XRow row2000]
    (selectRows row2 row2000).

(** ** Announcing the screen *)

(** The node [fetchRowNode_] finds for row [i]: the one filed in the
    previous cache, else the row provider's. *)
Definition cachedOrProvided (sp : ScrollPort) (i : Z) : option row :=
  match previousRowNodeCache_ sp ≫= (λ cache, cache !! i) with
  | Some r => Some r
  | None => getRowNode (rowProvider_ sp) i
  end.

(** What [assertiveAnnounce_] hands to the accessibility reader: the
    percentage scrolled and the rows whose text it reads out. *)
Record Announcement : Type := mkAnnouncement {
  percentScrolled : Z;
  announcedRows : list row
}.

(** [for (let i = topRow; i <= bottomRow; ++i)
       content += this.fetchRowNode_(i).textContent], over the indices
    left to visit: reading the text of a missing node throws. *)
Fixpoint announceRows (indices : list Z) (sp : ScrollPort)
  : outcome (list row * ScrollPort) :=
  match indices with
  | [] => Ok ([], sp)
  | i :: indices =>
      '(node, sp) ← fetchRowNode_ i sp;
      match node with
      | None => Throw TypeError
      | Some r =>
          '(rows, sp) ← announceRows indices sp;
          Ok (r :: rows, sp)
      end
  end.

(** [assertiveAnnounce_]; [accessibilityReader_] tells whether the scroll
    port was given an accessibility reader. *)
Definition assertiveAnnounce_ (accessibilityReader_ : bool) (sp : ScrollPort)
  : outcome (option Announcement * ScrollPort) :=
  if negb accessibilityReader_ then Ok (None, sp)
  else
    let topRow := getTopRowIndex sp in
    let bottomRow := getBottomRowIndex sp topRow in
    let percentScrolled :=
      (100 * inject_Z topRow
       / inject_Z (Z.max 1 (getRowCount (rowProvider_ sp)
                            - visibleRowCount sp)))%Q in
    let percentScrolled := Z.min 100 (Math_round percentScrolled) in
    '(rows, sp) ← announceRows (seqZ topRow (bottomRow - topRow + 1)) sp;
    Ok (Some (mkAnnouncement percentScrolled rows), sp).

(** ** Scrolling by pages *)

Definition scrollPageUp (accessibilityReader_ : bool) (sp : ScrollPort)
  : outcome (option Announcement * ScrollPort) :=
  if (getTopRowIndex sp =? 0)%Z then Ok (None, sp)
  else
    let i := getTopRowIndex sp in
    let sp := scrollRowToTop (i - visibleRowCount sp + 1) sp in
    assertiveAnnounce_ accessibilityReader_ sp.

Definition scrollPageDown (accessibilityReader_ : bool) (sp : ScrollPort)
  : outcome (option Announcement * ScrollPort) :=
  if isScrolledEnd sp then Ok (None, sp)
  else
    let i := getTopRowIndex sp in
    let sp := scrollRowToTop (i + visibleRowCount sp - 1) sp in
    assertiveAnnounce_ accessibilityReader_ sp.

(** ** Selecting everything *)

(** [while (n.previousSibling) rowNodes_.removeChild(n.previousSibling)]. *)
Fixpoint removeBefore (fuel : nat) (kids : list Node) (n : Node)
  : outcome (list Node) :=
  match Dom.previousSibling kids n with
  | None => Ok kids
  | Some p =>
      match fuel with
      | O => OutOfFuel
      | S fuel =>
          kids ← Dom.removeChild kids (Some p);
          removeBefore fuel kids n
      end
  end.

(** [while (n.nextSibling) rowNodes_.removeChild(n.nextSibling)]. *)
Fixpoint removeAfter (fuel : nat) (kids : list Node) (n : Node)
  : outcome (list Node) :=
  match Dom.nextSibling kids n with
  | None => Ok kids
  | Some p =>
      match fuel with
      | O => OutOfFuel
      | S fuel =>
          kids ← Dom.removeChild kids (Some p);
          removeAfter fuel kids n
      end
  end.

(** What [selectAll] holds in [lastRow]: the row node it fetched, or, on
    the other branch, the number [bottomFold_.previousSibling.rowIndex]. *)
Inductive LastRow : Type :=
  | LastRowNode (r : row)
  | LastRowNumber (rowIndex : Z).

(** The first half of [selectAll]: the row to select from.  Unless the
    child after the top fold is row 0, everything before the top fold
    goes and row 0 is fetched and put there. *)
Definition selectFirstRow (sp : ScrollPort) : outcome (row * ScrollPort) :=
  first ← match Dom.nextSibling (rowNodes_ sp) TopFold with
          | None => Throw TypeError
          | Some n => Ok n
          end;
  let fetched :=
    kids ← removeBefore (S (length (rowNodes_ sp))) (rowNodes_ sp) TopFold;
    let sp := set_rowNodes_ kids sp in
    '(node, sp) ← fetchRowNode_ 0 sp;
    match node with
    | None => Throw TypeError
    | Some r =>
        kids ← Dom.insertBefore (rowNodes_ sp) (XRow r) (Some TopFold);
        Ok (r, syncRowNodesDimensions_ (set_rowNodes_ kids sp))
    end in
  match first with
  | XRow r => if (rowIndex r =? 0)%Z then Ok (r, sp) else fetched
  | _ => fetched
  end.

(** The second half: the row to select up to.  Unless the child before
    the bottom fold is the last row, everything after the bottom fold
    goes and the last row is fetched and appended; otherwise [lastRow]
    is set to the number [bottomFold_.previousSibling.rowIndex]. *)
Definition selectLastRow (sp : ScrollPort) : outcome (LastRow * ScrollPort) :=
  let lastRowIndex := (getRowCount (rowProvider_ sp) - 1)%Z in
  previous ← match Dom.previousSibling (rowNodes_ sp) BottomFold with
             | None => Throw TypeError
             | Some n => Ok n
             end;
  if decide (rowIndexOf previous = Some lastRowIndex)
  then Ok (LastRowNumber lastRowIndex, sp)
  else
    kids ← removeAfter (S (length (rowNodes_ sp))) (rowNodes_ sp) BottomFold;
    let sp := set_rowNodes_ kids sp in
    '(node, sp) ← fetchRowNode_ lastRowIndex sp;
    match node with
    | None => Throw TypeError
    | Some r =>
        Ok (LastRowNode r,
            set_rowNodes_ (Dom.appendChild (rowNodes_ sp) (XRow r)) sp)
    end.

(** [selectAll]; [rowDom] is the tree the document holds for a row
    element.  [selection.extend(lastRow, lastRow.childNodes.length)]
    throws where [lastRow] is a number. *)
Definition selectAll (rowDom : row → DomNode) (sp : ScrollPort)
  : outcome ScrollPort :=
  '(firstRow, sp) ← selectFirstRow sp;
  '(lastRow, sp) ← selectLastRow sp;
  match document_selection sp with
  | None => Throw TypeError
  | Some _ =>
      match lastRow with
      | LastRowNumber _ => Throw TypeError
      | LastRowNode r =>
          let sp :=
            set_document_selection
              (Some {| anchorNode := Some (rowDom firstRow);
                       anchorOffset := 0;
                       focusNode := Some (rowDom r);
                       focusOffset := length (childNodes (rowDom r)) |})
              sp in
          syncSelection sp
      end
  end.

(** What [selectAll] does not write before it sets the selection. *)
Definition selectEnv (sp : ScrollPort) :=
  (rowProvider_ sp, previousRowNodeCache_ sp, currentRowNodeCache_ sp,
   document_selection sp, accessibilityEnabled sp, selection sp).

(** Three rows, all of them on screen, the last one selected. *)
Definition shortExample : ScrollPort :=
  exampleScrollPort (exampleProvider 3) 400 0
    [TopFold; XRow (mkRow 0 0); XRow (mkRow 1 1); XRow row2; BottomFold]
    (selectRows row2 row2).

(** 3000 rows, the window on rows 500 and 501, row 500 selected. *)
Definition middleExample : ScrollPort :=
  exampleScrollPort (exampleProvider 3000) 400 8000
    [TopFold; XRow (mkRow 500 500); XRow (mkRow 501 501); BottomFold]
    (selectRows (mkRow 500 500) (mkRow 500 500)).

(** * Proofs *)

Section DomFacts.
Import Dom.
Implicit Types (kids A B : list Node) (n new : Node).

Lemma detach_notin n kids : n ∉ kids → detach n kids = kids.
Proof.
  intros Hn. unfold detach. induction kids as [|x kids IH]; [done|].
  rewrite filter_cons_True; [|set_solver]. f_equal. apply IH. set_solver.
Qed.

Lemma detach_app n A B : detach n (A ++ B) = detach n A ++ detach n B.
Proof. apply filter_app. Qed.

Lemma detach_cons_eq n kids : detach n (n :: kids) = detach n kids.
Proof. unfold detach. by rewrite filter_cons_False by naive_solver. Qed.

Lemma detach_cons_ne n x kids :
  x ≠ n → detach n (x :: kids) = x :: detach n kids.
Proof. intros. unfold detach. by rewrite filter_cons_True. Qed.

Lemma notin_detach n kids : n ∉ detach n kids.
Proof. unfold detach. rewrite list_elem_of_filter. naive_solver. Qed.

Lemma elem_of_detach x n kids : x ∈ detach n kids ↔ x ≠ n ∧ x ∈ kids.
Proof. unfold detach. by rewrite list_elem_of_filter. Qed.

Lemma NoDup_detach n kids : NoDup kids → NoDup (detach n kids).
Proof. apply NoDup_filter. Qed.

Lemma detach_length n kids : (length (detach n kids) ≤ length kids)%nat.
Proof. apply length_filter. Qed.

Lemma detach_middle n A B :
  NoDup (A ++ n :: B) → detach n (A ++ n :: B) = A ++ B.
Proof.
  intros Hnd. apply NoDup_app in Hnd as (HA & Hdisj & HB).
  apply NoDup_cons in HB as [HnB HB].
  rewrite detach_app, detach_cons_eq, !detach_notin; [done|done|].
  intros Hin. apply (Hdisj _ Hin). left.
Qed.

Lemma nextSibling_middle n A B :
  n ∉ A → nextSibling (A ++ n :: B) n = head B.
Proof.
  induction A as [|x A IH]; intros Hn; simpl.
  - by rewrite decide_True.
  - rewrite decide_False by set_solver. apply IH. set_solver.
Qed.

Lemma nextSibling_notin n kids : n ∉ kids → nextSibling kids n = None.
Proof.
  induction kids as [|x kids IH]; intros Hn; simpl; [done|].
  rewrite decide_False by set_solver. apply IH. set_solver.
Qed.

Lemma nextSibling_Some n m kids :
  nextSibling kids n = Some m →
  ∃ A B, kids = A ++ n :: m :: B ∧ n ∉ A.
Proof.
  induction kids as [|x kids IH]; simpl; [done|].
  case_decide as Hx.
  - subst x. destruct kids as [|y kids]; simpl; [done|].
    intros [= ->]. exists [], kids. split; [done|]. apply not_elem_of_nil.
  - intros (A & B & -> & HnA)%IH. exists (x :: A), B. split; [done|].
    set_solver.
Qed.

Lemma insertAt_middle new n A B :
  n ∉ A → insertAt (A ++ n :: B) new n = A ++ new :: n :: B.
Proof.
  induction A as [|x A IH]; intros Hn; simpl.
  - by rewrite decide_True.
  - rewrite decide_False by set_solver. f_equal. apply IH. set_solver.
Qed.

Lemma insertBefore_middle new n A B :
  NoDup (A ++ n :: B) → new ≠ n →
  insertBefore (A ++ n :: B) new (Some n)
  = Ok (detach new A ++ new :: n :: detach new B).
Proof.
  intros Hnd Hne. unfold insertBefore.
  rewrite decide_True by set_solver. rewrite decide_False by done.
  rewrite detach_app, detach_cons_ne by done.
  rewrite insertAt_middle; [done|].
  rewrite elem_of_detach. intros [_ Hin].
  apply NoDup_app in Hnd as (_ & Hdisj & _). apply (Hdisj _ Hin). left.
Qed.

Lemma removeChild_middle n A B :
  NoDup (A ++ n :: B) → removeChild (A ++ n :: B) (Some n) = Ok (A ++ B).
Proof.
  intros Hnd. unfold removeChild. rewrite decide_True by set_solver.
  by rewrite detach_middle.
Qed.

Lemma NoDup_appendChild n kids : NoDup kids → NoDup (appendChild kids n).
Proof.
  intros Hnd. unfold appendChild. apply NoDup_app. split_and!.
  - by apply NoDup_detach.
  - intros x Hx ->%list_elem_of_singleton. by apply notin_detach in Hx.
  - apply NoDup_singleton.
Qed.

Lemma NoDup_insertAt new ref kids :
  NoDup kids → new ∉ kids → NoDup (insertAt kids new ref).
Proof.
  induction kids as [|x kids IH]; simpl; intros Hnd Hnew; [done|].
  case_decide.
  - by apply NoDup_cons.
  - apply NoDup_cons in Hnd as [Hx Hnd]. apply NoDup_cons. split.
    + intros Hin. assert (∀ l, x ∈ insertAt l new ref → x = new ∨ x ∈ l) as Hsub.
      { clear. induction l as [|z l IHl]; simpl; [set_solver|].
        case_decide; set_solver. }
      apply Hsub in Hin as [->|]; set_solver.
    + apply IH; set_solver.
Qed.

Lemma NoDup_insertBefore new ref kids kids' :
  NoDup kids → insertBefore kids new ref = Ok kids' → NoDup kids'.
Proof.
  intros Hnd. unfold insertBefore. destruct ref as [r|].
  - repeat case_decide; intros [= <-]; [done|].
    apply NoDup_insertAt; [by apply NoDup_detach|apply notin_detach].
  - intros [= <-]. by apply NoDup_appendChild.
Qed.

Lemma NoDup_removeChild (o : option Node) kids kids' :
  NoDup kids → removeChild kids o = Ok kids' → NoDup kids'.
Proof.
  intros Hnd. unfold removeChild. destruct o; [|done].
  case_decide; intros [= <-]. by apply NoDup_detach.
Qed.

Lemma removeChild_length (o : option Node) kids kids' :
  removeChild kids o = Ok kids' → (length kids' < length kids)%nat.
Proof.
  unfold removeChild. destruct o as [n|]; [|done].
  case_decide as Hin; intros [= <-].
  apply list_elem_of_split in Hin as (A & B & ->).
  rewrite detach_app, detach_cons_eq, !length_app. simpl.
  pose proof (detach_length n A). pose proof (detach_length n B). lia.
Qed.
End DomFacts.

(** ** Outcomes of a bind *)
Lemma bind_Ok {A B} (m : outcome A) (f : A → outcome B) b :
  m ≫= f = Ok b → ∃ a, m = Ok a ∧ f a = Ok b.
Proof. destruct m; simpl; [eauto|done..]. Qed.

(** Equal lists up to the bracketing of [++] and [::]. *)
Ltac reassoc :=
  solve [ repeat (rewrite <- ?app_assoc; simpl); done ].

Ltac inv_bind H :=
  let a := fresh "a" in
  let Ha := fresh "Ha" in
  apply bind_Ok in H as (a & Ha & H).

(** ** removeUntilNode *)
Lemma removeUntilNode_spec fuel A rest target kids' :
  NoDup (A ++ rest) →
  removeUntilNode fuel (A ++ rest) (head rest) target = Ok kids' →
  ∃ junk suf, rest = (junk ++ target :: suf) ∧ kids' = (A ++ target :: suf)
              ∧ (BottomFold ∉ junk) ∧ (target ∉ junk).
Proof.
  revert rest. induction fuel as [|fuel IH]; intros rest Hnd; simpl.
  - case_decide as Hhd; [|done]. intros [= <-].
    destruct rest as [|x rest]; simplify_eq/=.
    exists [], rest. split_and!; [done|done|apply not_elem_of_nil..].
  - case_decide as Hhd.
    + intros [= <-]. destruct rest as [|x rest]; simplify_eq/=.
      exists [], rest. split_and!; [done|done|apply not_elem_of_nil..].
    + destruct rest as [|x rest]; simpl; [done|].
      case_decide as Hbf; [done|].
      rewrite nextSibling_middle
        by (apply NoDup_app in Hnd as (_ & Hd & _); intros Hin;
            apply (Hd _ Hin); left).
      rewrite removeChild_middle by done. simpl.
      intros (junk & suf & -> & -> & Hj1 & Hj2)%IH.
      * exists (x :: junk), suf. split_and!; [done|done|..].
        -- apply not_elem_of_cons. split; [congruence|done].
        -- apply not_elem_of_cons. split; [|done].
           intros ->. by apply Hhd.
      * apply NoDup_app in Hnd as (HA & Hd & Hr). apply NoDup_app.
        apply NoDup_cons in Hr as [_ Hr]. split_and!; [done| |done].
        intros z Hz Hz'. apply (Hd _ Hz). by right.
Qed.

Lemma fills_refl sp : fills sp sp.
Proof.
  exists (rowNodes_ sp), (currentRowNodeCache_ sp), (console sp).
  by destruct sp.
Qed.

Lemma fills_trans sp1 sp2 sp3 : fills sp1 sp2 → fills sp2 sp3 → fills sp1 sp3.
Proof. intros (k & c & l & ->) (k' & c' & l' & ->). by exists k', c', l'. Qed.

Lemma fills_set_rowNodes_ kids sp : fills sp (set_rowNodes_ kids sp).
Proof. exists kids, (currentRowNodeCache_ sp), (console sp). by destruct sp. Qed.

Lemma fills_set_cache c sp : fills sp (set_currentRowNodeCache_ c sp).
Proof. exists (rowNodes_ sp), c, (console sp). by destruct sp. Qed.

Lemma fills_set_console l sp : fills sp (set_console l sp).
Proof. exists (rowNodes_ sp), (currentRowNodeCache_ sp), l. by destruct sp. Qed.

Lemma fetchRowNode__spec i sp o sp' :
  providerCoherent (rowProvider_ sp) →
  cacheCoherent (previousRowNodeCache_ sp) →
  fetchRowNode_ i sp = Ok (o, sp') →
  fills sp sp' ∧ rowNodes_ sp' = rowNodes_ sp
  ∧ (∀ r, o = Some r → rowIndex r = i)
  ∧ (is_Some (currentRowNodeCache_ sp) →
     is_Some o ∧ is_Some (currentRowNodeCache_ sp'))
  ∧ (o = None → currentRowNodeCache_ sp = None
                ∧ getRowNode (rowProvider_ sp) i = None).
Proof.
  intros Hp Hc. unfold fetchRowNode_.
  set (found := match previousRowNodeCache_ sp ≫= _ with
                | Some r => Some r | None => _ end).
  assert (∀ r, found = Some r → rowIndex r = i) as Hfound.
  { subst found. intros r. destruct (previousRowNodeCache_ sp) as [m|] eqn:Hm;
      simpl; [destruct (m !! i) as [r'|] eqn:Hr'|].
    - intros [= ->]. by eapply Hc.
    - apply Hp.
    - apply Hp. }
  assert (found = None → getRowNode (rowProvider_ sp) i = None) as Hnone.
  { subst found. by destruct (previousRowNodeCache_ sp ≫= _). }
  clearbody found.
  destruct (currentRowNodeCache_ sp) as [cur|] eqn:Hcur.
  - destruct found as [r|]; simpl; [|done]. rewrite Hcur. simpl.
    intros [= <- <-]. split_and!; [apply fills_set_cache|done|done| |done].
    intros _. split; by eexists.
  - intros [= <- <-]. split_and!; [apply fills_refl|done|done| |by auto].
    by intros [? ?].
Qed.

(** ** The window-fill invariant *)

Lemma prunes_refl top k l : prunes top k l l.
Proof. split; [done|]. intros x Hx Hx'. by destruct Hx'. Qed.

Lemma prunes_mono top k l0 l : prunes top k l0 l → prunes top (S k) l0 l.
Proof.
  intros [Hsub Hx]. split; [done|]. intros x Hin Hnin.
  destruct (Hx x Hin Hnin) as (i & ? & ?). exists i. split; [done|lia].
Qed.

Lemma prunes_detach top k l0 l r :
  prunes top k l0 l → rowIndex r = (top + Z.of_nat k)%Z →
  prunes top (S k) l0 (Dom.detach (XRow r) l).
Proof.
  intros [Hsub Hx] Hr. split.
  - etrans; [apply sublist_filter|done].
  - intros x Hin Hnin. destruct (decide (x ∈ l)) as [Hl|Hl].
    + rewrite elem_of_detach in Hnin.
      destruct (decide (x = XRow r)) as [->|]; [|naive_solver].
      exists (rowIndex r). split; [done|lia].
    + destruct (Hx x Hin Hl) as (i & ? & ?). exists i. split; [done|lia].
Qed.

Lemma after_detach n stop l :
  n ≠ stop → Dom.after stop (Dom.detach n l) = Dom.detach n (Dom.after stop l).
Proof.
  intros Hne. induction l as [|x l IH]; [done|]. simpl.
  destruct (decide (x = n)) as [->|Hx].
  - rewrite detach_cons_eq, decide_False by done. apply IH.
  - rewrite detach_cons_ne by done. simpl. case_decide; [done|apply IH].
Qed.

Lemma after_app_notin stop A B :
  stop ∉ A → Dom.after stop (A ++ B) = Dom.after stop B.
Proof.
  induction A as [|x A IH]; intros Hn; simpl; [done|].
  rewrite decide_False by set_solver. apply IH. set_solver.
Qed.

Lemma placed_index top k placed n :
  rowIndexOf <$> placed = Some <$> seqZ top (Z.of_nat k) → n ∈ placed →
  ∃ i, rowIndexOf n = Some i ∧ (top ≤ i < top + Z.of_nat k)%Z.
Proof.
  intros Heq Hin.
  assert (rowIndexOf n ∈ rowIndexOf <$> placed) as Hin'
    by (apply list_elem_of_fmap; eauto).
  rewrite Heq in Hin'. apply list_elem_of_fmap in Hin' as (i & -> & Hi).
  apply elem_of_seqZ in Hi. eauto.
Qed.

Lemma placed_snoc top k placed n :
  rowIndexOf <$> placed = Some <$> seqZ top (Z.of_nat k) →
  rowIndexOf n = Some (top + Z.of_nat k)%Z →
  rowIndexOf <$> (placed ++ [n]) = Some <$> seqZ top (Z.of_nat (S k)).
Proof.
  intros Heq Hn. rewrite fmap_app, Heq. simpl. rewrite Hn.
  replace (Z.of_nat (S k)) with (Z.of_nat k + 1)%Z by lia.
  rewrite seqZ_app by lia. by rewrite fmap_app.
Qed.

Lemma fresh_for_placed top k placed r :
  rowIndexOf <$> placed = Some <$> seqZ top (Z.of_nat k) →
  rowIndex r = (top + Z.of_nat k)%Z → XRow r ∉ placed.
Proof.
  intros Heq Hr Hin. destruct (placed_index _ _ _ _ Heq Hin) as (i & Hi & ?).
  simpl in Hi. simplify_eq. lia.
Qed.

Lemma insert_at_cursor pre placed n rest r :
  NoDup (pre ++ TopFold :: placed ++ n :: rest) →
  XRow r ∉ placed → XRow r ≠ n →
  Dom.insertBefore (pre ++ TopFold :: placed ++ n :: rest) (XRow r) (Some n)
  = Ok (Dom.detach (XRow r) pre ++ TopFold :: (placed ++ [XRow r])
          ++ n :: Dom.detach (XRow r) rest).
Proof.
  intros Hnd Hpl Hne.
  replace (pre ++ TopFold :: placed ++ n :: rest)
    with ((pre ++ TopFold :: placed) ++ n :: rest) in *
    by reassoc.
  rewrite insertBefore_middle by done.
  rewrite detach_app, detach_cons_ne by done.
  rewrite (detach_notin _ placed) by done.
  reassoc.
Qed.

(** Inserting a fetched row before the node under examination. *)
Lemma insertNewRow_step top k pre0 suf0 sp n step :
  NoDup (rowNodes_ sp) →
  providerCoherent (rowProvider_ sp) →
  cacheCoherent (previousRowNodeCache_ sp) →
  fillInv top k pre0 suf0 (rowNodes_ sp) (Some n) →
  rowIndexOf n ≠ Some (top + Z.of_nat k)%Z →
  insertNewRow (top + Z.of_nat k) (Some n) sp = Ok step →
  match step with
  | Continue node' sp' =>
      fills sp sp' ∧ NoDup (rowNodes_ sp')
      ∧ fillInv top (S k) pre0 suf0 (rowNodes_ sp') node'
      ∧ (is_Some (currentRowNodeCache_ sp) →
         is_Some (currentRowNodeCache_ sp'))
  | Break node' sp' =>
      fills sp sp' ∧ node' = Some n ∧ rowNodes_ sp' = rowNodes_ sp
      ∧ currentRowNodeCache_ sp = None
      ∧ getRowNode (rowProvider_ sp) (top + Z.of_nat k) = None
  end.
Proof.
  intros Hnd Hp Hc (pre & placed & rest & Hkids & Hnode & Hpl & Hpre & Hsuf) Hn.
  unfold insertNewRow. intros H. inv_bind H. destruct a as [o sp1].
  apply fetchRowNode__spec in Ha as (Hf & Hk & Ho & Hcur & Hnone); [|done..].
  destruct o as [r|].
  - inv_bind H. simplify_eq. specialize (Ho r eq_refl).
    destruct rest as [|n' rest]; simplify_eq/=.
    rewrite Hk, Hkids in Ha.
    rewrite insert_at_cursor in Ha.
    + simplify_eq. split_and!.
      * eapply fills_trans; [done|apply fills_set_rowNodes_].
      * simpl. eapply NoDup_insertBefore; [|apply insert_at_cursor].
        -- by rewrite <- Hkids.
        -- by rewrite <- Hkids.
        -- by eapply fresh_for_placed.
        -- intros <-. apply Hn. simpl. by rewrite Ho.
      * simpl. eexists _, _, _. split_and!; [done|done| | |].
        -- apply placed_snoc; [done|simpl; by rewrite Ho].
        -- by apply prunes_detach.
        -- simpl in *. case_decide.
           ++ by apply prunes_detach.
           ++ rewrite after_detach by done. by apply prunes_detach.
      * intros Hs. destruct (Hcur Hs) as [_ ?]. done.
    + by rewrite <- Hkids.
    + by eapply fresh_for_placed.
    + intros <-. apply Hn. simpl. by rewrite Ho.
  - simplify_eq. destruct (Hnone eq_refl) as [? ?]. split_and!; try done.
    eapply fills_trans; [done|apply fills_set_console].
Qed.

Lemma NoDup_app_notin {A} (l1 l2 : list A) x :
  NoDup (l1 ++ l2) → x ∈ l2 → x ∉ l1.
Proof. intros (_ & Hd & _)%NoDup_app Hx Hin. by apply (Hd _ Hin). Qed.

(** Keeping the node under examination. *)
Lemma keep_step top k pre0 suf0 kids n :
  NoDup kids →
  fillInv top k pre0 suf0 kids (Some n) →
  rowIndexOf n = Some (top + Z.of_nat k)%Z →
  fillInv top (S k) pre0 suf0 kids (Dom.nextSibling kids n).
Proof.
  intros Hnd (pre & placed & rest & -> & Hnode & Hpl & Hpre & Hsuf) Hn.
  destruct rest as [|n' rest]; [done|]. simpl in Hnode.
  injection Hnode as <-. simpl in Hsuf.
  exists pre, (placed ++ [n]), rest. split_and!.
  - reassoc.
  - replace (pre ++ TopFold :: placed ++ n :: rest)
      with ((pre ++ TopFold :: placed) ++ n :: rest)
      by reassoc.
    apply nextSibling_middle. eapply NoDup_app_notin; [|left].
    by rewrite <- app_assoc.
  - by apply placed_snoc.
  - by apply prunes_mono.
  - apply prunes_mono. by rewrite decide_False in Hsuf by (by intros ->).
Qed.

(** Removing nodes up to a selection row that is due. *)
Lemma removeUntil_step top k pre0 suf0 kids n r fuel kids' :
  NoDup kids →
  fillInv top k pre0 suf0 kids (Some n) →
  rowIndex r = (top + Z.of_nat k)%Z →
  removeUntilNode fuel kids (Some n) (XRow r) = Ok kids' →
  NoDup kids'
  ∧ fillInv top (S k) pre0 suf0 kids' (Dom.nextSibling kids' (XRow r)).
Proof.
  intros Hnd (pre & placed & rest & -> & Hnode & Hpl & Hpre & Hsuf) Hr Hrm.
  replace (pre ++ TopFold :: placed ++ rest)
    with ((pre ++ TopFold :: placed) ++ rest) in *
    by reassoc.
  rewrite Hnode in Hrm.
  apply removeUntilNode_spec in Hrm
    as (junk & suf & -> & -> & Hbf & Htj); [|done].
  assert (NoDup ((pre ++ TopFold :: placed) ++ XRow r :: suf)) as Hnd'.
  { eapply sublist_NoDup; [exact Hnd|].
    apply sublist_app; [done|]. by apply sublist_inserts_l. }
  split; [done|].
  exists pre, (placed ++ [XRow r]), suf. split_and!.
  - reassoc.
  - apply nextSibling_middle. eapply NoDup_app_notin; [done|left].
  - apply placed_snoc; [done|simpl; by rewrite Hr].
  - by apply prunes_mono.
  - apply prunes_mono. rewrite after_app_notin in Hsuf by done.
    by simpl in Hsuf.
Qed.

(** Replacing the node under examination by a fetched row. *)
Lemma replace_step top k pre0 suf0 kids n r kids1 kids2 :
  NoDup kids →
  fillInv top k pre0 suf0 kids (Some n) →
  rowIndex r = (top + Z.of_nat k)%Z →
  n ≠ XRow r → n ≠ BottomFold →
  Dom.insertBefore kids (XRow r) (Some n) = Ok kids1 →
  Dom.removeChild kids1 (Some n) = Ok kids2 →
  NoDup kids2
  ∧ fillInv top (S k) pre0 suf0 kids2 (Dom.nextSibling kids2 (XRow r)).
Proof.
  intros Hnd (pre & placed & rest & -> & Hnode & Hpl & Hpre & Hsuf) Hr
    Hne Hbf Hins Hrm.
  destruct rest as [|n' rest]; [done|]. simpl in Hnode.
  injection Hnode as <-. simpl in Hsuf.
  assert (XRow r ∉ placed) as Hfresh by (by eapply fresh_for_placed).
  assert (NoDup kids1) as Hnd1 by (by eapply NoDup_insertBefore).
  rewrite insert_at_cursor in Hins; [|done|done|congruence]. simplify_eq.
  replace (Dom.detach (XRow r) pre ++ TopFold :: (placed ++ [XRow r])
             ++ n :: Dom.detach (XRow r) rest)
    with ((Dom.detach (XRow r) pre ++ TopFold :: placed ++ [XRow r])
            ++ n :: Dom.detach (XRow r) rest) in *
    by reassoc.
  rewrite removeChild_middle in Hrm by done. simplify_eq.
  assert (NoDup ((Dom.detach (XRow r) pre ++ TopFold :: placed ++ [XRow r])
                   ++ Dom.detach (XRow r) rest)) as Hnd2.
  { eapply sublist_NoDup; [exact Hnd1|].
    apply sublist_app; [done|]. by apply sublist_cons. }
  split; [done|].
  exists (Dom.detach (XRow r) pre), (placed ++ [XRow r]),
    (Dom.detach (XRow r) rest). split_and!.
  - reassoc.
  - replace ((Dom.detach (XRow r) pre ++ TopFold :: placed ++ [XRow r])
               ++ Dom.detach (XRow r) rest)
      with ((Dom.detach (XRow r) pre ++ TopFold :: placed)
              ++ XRow r :: Dom.detach (XRow r) rest) in *
      by reassoc.
    apply nextSibling_middle. eapply NoDup_app_notin; [done|left].
  - apply placed_snoc; [done|simpl; by rewrite Hr].
  - by apply prunes_detach.
  - rewrite decide_False in Hsuf by done.
    rewrite after_detach by done. by apply prunes_detach.
Qed.

Lemma isSelectionRow_true sel i :
  isSelectionRow sel i = true → ∃ r, sel = Some r ∧ rowIndex r = i.
Proof.
  destruct sel as [r|]; simpl; [|done]. intros ?%Z.eqb_eq. eauto.
Qed.

Lemma drawRow_step top k pre0 suf0 sp node step :
  NoDup (rowNodes_ sp) →
  providerCoherent (rowProvider_ sp) →
  cacheCoherent (previousRowNodeCache_ sp) →
  fillInv top k pre0 suf0 (rowNodes_ sp) node →
  drawRow (top + Z.of_nat k) node sp = Ok step →
  stepPost top k pre0 suf0 sp node step.
Proof.
  intros Hnd Hp Hc Hinv. unfold drawRow.
  case_decide as Hbf.
  { subst node. intros H. by eapply insertNewRow_step in H. }
  destruct node as [n|]; [|done].
  case_decide as Hidx.
  { intros [= <-]. split_and!; [apply fills_refl|done| |done].
    by apply keep_step. }
  destruct (isSelectionRow (startRow (selection sp)) _) eqn:Hs.
  { apply isSelectionRow_true in Hs as (s & -> & Hs).
    intros H. inv_bind H. simplify_eq.
    eapply removeUntil_step in Ha as [? ?]; [|done..].
    split_and!; [apply fills_set_rowNodes_|done|done|done]. }
  destruct (isSelectionRow (endRow (selection sp)) _) eqn:He.
  { apply isSelectionRow_true in He as (e & -> & He).
    intros H. inv_bind H. simplify_eq.
    eapply removeUntil_step in Ha as [? ?]; [|done..].
    split_and!; [apply fills_set_rowNodes_|done|done|done]. }
  destruct (_ || _).
  { intros H. by eapply insertNewRow_step in H. }
  intros H. inv_bind H. destruct a as [o sp1].
  apply fetchRowNode__spec in Ha as (Hf & Hk & Ho & Hcur & Hnone); [|done..].
  destruct o as [r|].
  - specialize (Ho r eq_refl). case_decide as Hnr.
    { subst n. simpl in Hidx. by rewrite Ho in Hidx. }
    inv_bind H. inv_bind H. simplify_eq. rewrite Hk in *.
    assert (n ≠ BottomFold) as Hbf' by congruence.
    destruct (replace_step _ _ _ _ _ _ _ _ _ Hnd Hinv Ho Hnr Hbf' Ha Ha0)
      as [? ?].
    split_and!; [|done|done|].
    + eapply fills_trans; [done|apply fills_set_rowNodes_].
    + intros Hsome. by destruct (Hcur Hsome).
  - simplify_eq. destruct (Hnone eq_refl). split_and!; try done.
    eapply fills_trans; [done|apply fills_set_console].
Qed.

Lemma fills_rowProvider_ sp sp' :
  fills sp sp' → rowProvider_ sp' = rowProvider_ sp.
Proof. by intros (? & ? & ? & ->). Qed.
Lemma fills_previous sp sp' :
  fills sp sp' → previousRowNodeCache_ sp' = previousRowNodeCache_ sp.
Proof. by intros (? & ? & ? & ->). Qed.
Lemma fills_selection sp sp' : fills sp sp' → selection sp' = selection sp.
Proof. by intros (? & ? & ? & ->). Qed.

Lemma drawRows_spec top pre0 suf0 count :
  ∀ k sp node node' sp',
    NoDup (rowNodes_ sp) →
    providerCoherent (rowProvider_ sp) →
    cacheCoherent (previousRowNodeCache_ sp) →
    fillInv top k pre0 suf0 (rowNodes_ sp) node →
    drawRows count (top + Z.of_nat k) node sp = Ok (node', sp') →
    fills sp sp' ∧ NoDup (rowNodes_ sp')
    ∧ ∃ k', (k ≤ k' ≤ k + count)%nat
         ∧ fillInv top k' pre0 suf0 (rowNodes_ sp') node'
         ∧ (is_Some (currentRowNodeCache_ sp) →
            k' = (k + count)%nat ∧ is_Some (currentRowNodeCache_ sp'))
         ∧ ((k' < k + count)%nat →
            getRowNode (rowProvider_ sp) (top + Z.of_nat k') = None).
Proof.
  induction count as [|count IH]; intros k sp node node' sp' Hnd Hp Hc Hinv;
    simpl.
  - intros [= <- <-]. split_and!; [apply fills_refl|done|].
    exists k. split_and!; [lia|lia|done| |lia]. intros ?. split; [lia|done].
  - intros H. inv_bind H. rename a into step.
    apply (drawRow_step _ _ pre0 suf0) in Ha; [|done..].
    destruct step as [node1 sp1|node1 sp1]; simpl in Ha.
    + destruct Ha as (Hf & Hnd1 & Hinv1 & Hcur).
      replace (top + Z.of_nat k + 1)%Z with (top + Z.of_nat (S k))%Z in H
        by lia.
      apply IH in H as (Hf' & Hnd' & k' & Hk' & Hinv' & Hcur' & Hmiss);
        [|done|by rewrite (fills_rowProvider_ _ _ Hf)
              |by rewrite (fills_previous _ _ Hf)|done].
      split_and!; [by eapply fills_trans|done|].
      exists k'. split_and!; [lia|lia|done| |].
      * intros Hs. destruct (Hcur' (Hcur Hs)). split; [lia|done].
      * intros ?. rewrite <- (fills_rowProvider_ _ _ Hf). apply Hmiss. lia.
    + destruct Ha as (Hf & -> & Hk & Hcur & Hmiss). simplify_eq.
      split_and!; [done|by rewrite Hk|].
      exists k. split_and!; [lia|lia|by rewrite Hk| |done].
      intros [? ?]. congruence.
Qed.

(** A fill that completes found both folds, the top one first. *)
Lemma drawVisibleRows__spec top bottom sp sp' pre0 rest0 :
  NoDup (rowNodes_ sp) →
  providerCoherent (rowProvider_ sp) →
  cacheCoherent (previousRowNodeCache_ sp) →
  rowNodes_ sp = pre0 ++ TopFold :: rest0 →
  drawVisibleRows_ top bottom sp = Ok sp' →
  let count :=
    Z.to_nat (Z.min (visibleRowCount sp) (getRowCount (rowProvider_ sp))) in
  fills sp sp' ∧ NoDup (rowNodes_ sp')
  ∧ ∃ k pre placed suf,
      rowNodes_ sp' = pre ++ TopFold :: placed ++ BottomFold :: suf
      ∧ rowIndexOf <$> placed = Some <$> seqZ top (Z.of_nat k)
      ∧ (k ≤ count)%nat
      ∧ prunes top k pre0 pre
      ∧ prunes top k (Dom.after BottomFold rest0) suf
      ∧ (is_Some (currentRowNodeCache_ sp) → k = count)
      ∧ ((k < count)%nat →
         getRowNode (rowProvider_ sp) (top + Z.of_nat k) = None).
Proof.
  intros Hnd Hp Hc Hkids. unfold drawVisibleRows_. intros H. inv_bind H.
  destruct a as [node sp1].
  assert (fillInv top 0 pre0 (Dom.after BottomFold rest0) (rowNodes_ sp)
            (Dom.nextSibling (rowNodes_ sp) TopFold)) as Hinv.
  { exists pre0, [], rest0. rewrite Hkids. split_and!.
    - done.
    - apply nextSibling_middle. eapply NoDup_app_notin; [|left].
      by rewrite <- Hkids.
    - done.
    - apply prunes_refl.
    - apply prunes_refl. }
  replace top with (top + Z.of_nat 0)%Z in Ha at 1 by lia.
  apply (drawRows_spec _ pre0 (Dom.after BottomFold rest0)) in Ha
    as (Hf & Hnd1 & k & Hk & Hinv1 & Hcur & Hmiss); [|done..].
  destruct Hinv1 as (pre & placed & rest & Hkids1 & Hnode & Hpl & Hpre & Hsuf).
  assert (∃ suf, rowNodes_ sp' = pre ++ TopFold :: placed ++ BottomFold :: suf
                 ∧ fills sp1 sp' ∧ Dom.after BottomFold rest = suf
                 ∧ NoDup (rowNodes_ sp'))
    as (suf & Hfinal & Hf' & Hafter & Hnd').
  { case_decide as Hbf.
    - simplify_eq. destruct rest as [|b suf]; simplify_eq/=.
      exists suf. split_and!; [done|apply fills_refl|done|done].
    - inv_bind H. simplify_eq. rewrite Hkids1 in Ha, Hnd1.
      replace (pre ++ TopFold :: placed ++ rest)
        with ((pre ++ TopFold :: placed) ++ rest) in Ha, Hnd1 by reassoc.
      apply removeUntilNode_spec in Ha as (junk & suf & -> & -> & Hj & _);
        [|done].
      exists suf. split_and!; [simpl; reassoc|apply fills_set_rowNodes_| |].
      + rewrite after_app_notin by done. reflexivity.
      + simpl. eapply sublist_NoDup; [exact Hnd1|].
        apply sublist_app; [done|]. by apply sublist_inserts_l. }
  split_and!; [by eapply fills_trans|done|].
  - exists k, pre, placed, suf. rewrite Hafter in Hsuf.
    split_and!; [done|done|lia|done|done| |].
    + intros Hs. destruct (Hcur Hs). lia.
    + intros ?. apply Hmiss. lia.
Qed.

Lemma drawVisibleRows__needs_top_fold top bottom sp sp' :
  drawVisibleRows_ top bottom sp = Ok sp' → TopFold ∈ rowNodes_ sp.
Proof.
  destruct (decide (TopFold ∈ rowNodes_ sp)) as [|Hnot]; [done|].
  unfold drawVisibleRows_. rewrite (nextSibling_notin _ _ Hnot).
  destruct (Z.to_nat _) as [|count]; simpl; done.
Qed.

Lemma upTo_app_notin stop A B :
  stop ∉ A → Dom.upTo stop (A ++ stop :: B) = A.
Proof.
  induction A as [|x A IH]; intros Hn; simpl.
  - by rewrite decide_True.
  - rewrite decide_False by set_solver. f_equal. apply IH. set_solver.
Qed.

Lemma betweenFolds_window pre placed suf top k :
  TopFold ∉ pre →
  rowIndexOf <$> placed = Some <$> seqZ top (Z.of_nat k) →
  Dom.betweenFolds (pre ++ TopFold :: placed ++ BottomFold :: suf) = placed.
Proof.
  intros Hpre Hpl. unfold Dom.betweenFolds.
  rewrite after_app_notin by done. simpl.
  apply upTo_app_notin. intros Hin.
  by destruct (placed_index _ _ _ _ Hpl Hin) as (i & ? & _).
Qed.

(** ** Fold placement keeps the children distinct *)

Lemma set_rowNodes__id sp : set_rowNodes_ (rowNodes_ sp) sp = sp.
Proof. by destruct sp. Qed.

Lemma NoDup_trimIntermediate fuel s e kids kids' :
  NoDup kids → trimIntermediate fuel s e kids = Ok kids' → NoDup kids'.
Proof.
  revert kids. induction fuel as [|fuel IH]; intros kids Hnd; simpl;
    case_decide; try by intros [= <-].
  intros Hb. inv_bind Hb. eapply IH; [|done]. by eapply NoDup_removeChild.
Qed.

Lemma NoDup_removeLeading fuel s kids kids' :
  NoDup kids → removeLeading fuel s kids = Ok kids' → NoDup kids'.
Proof.
  revert kids. induction fuel as [|fuel IH]; intros kids Hnd; simpl;
    case_decide; try by intros [= <-].
  intros Hb. inv_bind Hb. eapply IH; [|done]. by eapply NoDup_removeChild.
Qed.

Lemma NoDup_removeTrailing fuel e kids kids' :
  NoDup kids → removeTrailing fuel e kids = Ok kids' → NoDup kids'.
Proof.
  revert kids. induction fuel as [|fuel IH]; intros kids Hnd; simpl;
    case_decide; try by intros [= <-].
  intros Hb. inv_bind Hb. eapply IH; [|done]. by eapply NoDup_removeChild.
Qed.

Lemma NoDup_foldFirst kids kids' :
  NoDup kids → foldFirst kids = Ok kids' → NoDup kids'.
Proof.
  unfold foldFirst. intros Hnd. case_decide; [by intros [= <-]|].
  by apply NoDup_insertBefore.
Qed.

Lemma NoDup_foldAfter r kids kids' :
  NoDup kids → foldAfter r kids = Ok kids' → NoDup kids'.
Proof.
  unfold foldAfter. intros Hnd. case_decide; [by intros [= <-]|].
  by apply NoDup_insertBefore.
Qed.

Lemma NoDup_foldBefore r kids kids' :
  NoDup kids → foldBefore r kids = Ok kids' → NoDup kids'.
Proof.
  unfold foldBefore. intros Hnd. case_decide; [by intros [= <-]|].
  by apply NoDup_insertBefore.
Qed.

Lemma NoDup_foldLast kids : NoDup kids → NoDup (foldLast kids).
Proof.
  unfold foldLast. intros Hnd. case_decide; [done|].
  by apply NoDup_appendChild.
Qed.

Lemma NoDup_topFoldChildren sel top kids kids' :
  NoDup kids → topFoldChildren sel top kids = Ok kids' → NoDup kids'.
Proof.
  unfold topFoldChildren. intros Hnd.
  destruct (startRow sel) as [s|]; [|by apply NoDup_foldFirst].
  destruct (top <=? rowIndex s)%Z; [by apply NoDup_foldFirst|].
  intros Hb. inv_bind Hb. eapply NoDup_removeLeading; [|done].
  destruct (negb _); [by eapply NoDup_foldAfter|].
  destruct (endRow sel) as [e|]; [|done].
  destruct (top <=? rowIndex e)%Z; [by eapply NoDup_foldAfter|].
  inv_bind Ha. eapply NoDup_trimIntermediate; [|done].
  by eapply NoDup_foldAfter.
Qed.

Lemma NoDup_bottomFoldChildren sel bottom kids kids' :
  NoDup kids → bottomFoldChildren sel bottom kids = Ok kids' → NoDup kids'.
Proof.
  unfold bottomFoldChildren. intros Hnd.
  destruct (endRow sel) as [e|];
    [|intros [= <-]; by apply NoDup_foldLast].
  destruct (rowIndex e <=? bottom)%Z;
    [intros [= <-]; by apply NoDup_foldLast|].
  intros Hb. inv_bind Hb. eapply NoDup_removeTrailing; [|done].
  destruct (negb _); [by eapply NoDup_foldBefore|].
  destruct (startRow sel) as [s|]; [|done].
  destruct (rowIndex s <=? bottom)%Z; [by eapply NoDup_foldBefore|].
  inv_bind Ha. eapply NoDup_trimIntermediate; [|done].
  by eapply NoDup_foldBefore.
Qed.

Lemma NoDup_resetSelectBags_ sp :
  NoDup (rowNodes_ sp) → NoDup (rowNodes_ (resetSelectBags_ sp)).
Proof.
  intros Hnd. unfold resetSelectBags_.
  repeat case_decide; simpl; repeat apply NoDup_detach; done.
Qed.

Lemma seqZ_to_nat top m : seqZ top (Z.of_nat (Z.to_nat m)) = seqZ top m.
Proof. unfold seqZ. by rewrite Nat2Z.id. Qed.

Lemma getTopRowIndex_beforeFolds sel sp :
  getTopRowIndex (beforeFolds sel sp) = getTopRowIndex sp.
Proof.
  unfold getTopRowIndex, beforeFolds, resetSelectBags_.
  by repeat case_decide.
Qed.

Lemma getBottomRowIndex_beforeFolds sel sp top :
  getBottomRowIndex (beforeFolds sel sp) top = getBottomRowIndex sp top.
Proof.
  unfold getBottomRowIndex, beforeFolds, resetSelectBags_.
  by repeat case_decide.
Qed.

Lemma resetSelectBags__selection sp :
  document_selection (resetSelectBags_ sp) = document_selection sp
  ∧ accessibilityEnabled (resetSelectBags_ sp) = accessibilityEnabled sp
  ∧ selection (resetSelectBags_ sp) = selection sp.
Proof. unfold resetSelectBags_. by repeat case_decide. Qed.

Lemma set_rowNodes__twice kids1 kids2 sp :
  set_rowNodes_ kids2 (set_rowNodes_ kids1 sp) = set_rowNodes_ kids2 sp.
Proof. by destruct sp. Qed.

Lemma rowNodes__beforeFolds sel sp :
  rowNodes_ (beforeFolds sel sp) = rowNodes_ (resetSelectBags_ sp).
Proof. done. Qed.

Lemma Ok_inj {A} (a b : A) : Ok a = Ok b → a = b.
Proof. by intros [= ->]. Qed.

Lemma redraw__stages sp sp' :
  redraw_ sp = Ok sp' →
  ∃ sel kids1 kids2 sp3,
    SelectionProxy.sync (document_selection sp) (accessibilityEnabled sp)
      (selection sp) = Ok sel
    ∧ let sp0 := beforeFolds sel sp in
      let top := getTopRowIndex sp in
      let bottom := getBottomRowIndex sp top in
      topFoldChildren sel top (rowNodes_ (resetSelectBags_ sp)) = Ok kids1
      ∧ bottomFoldChildren sel bottom kids1 = Ok kids2
      ∧ drawVisibleRows_ top bottom (set_rowNodes_ kids2 sp0) = Ok sp3
      ∧ sp' = afterFill top bottom sp3.
Proof.
  unfold redraw_, syncSelection, drawTopFold_, drawBottomFold_.
  intros H. inv_bind H. inv_bind Ha. rename a0 into sel.
  apply Ok_inj in Ha. subst a.
  change (set_currentRowNodeCache_ (Some ∅)
            (syncScrollHeight (set_selection sel (resetSelectBags_ sp))))
    with (beforeFolds sel sp) in H.
  rewrite !getTopRowIndex_beforeFolds, !getBottomRowIndex_beforeFolds in H.
  inv_bind H. inv_bind Ha. rename a0 into kids1.
  apply Ok_inj in Ha. subst a.
  inv_bind H. inv_bind Ha. rename a0 into kids2.
  apply Ok_inj in Ha. subst a.
  inv_bind H. rename a into sp3. apply Ok_inj in H. subst sp'.
  destruct (resetSelectBags__selection sp) as (Hd & Ha11y & Hsel).
  rewrite Hd, Ha11y, Hsel in Ha0.
  rewrite set_rowNodes__twice in Ha.
  exists sel, kids1, kids2, sp3. split_and!; [done|done|done|exact Ha|].
  reflexivity.
Qed.

Lemma beforeFolds_fields sel sp :
  rowProvider_ (beforeFolds sel sp) = rowProvider_ sp
  ∧ previousRowNodeCache_ (beforeFolds sel sp) = previousRowNodeCache_ sp
  ∧ currentRowNodeCache_ (beforeFolds sel sp) = Some ∅
  ∧ visibleRowCount (beforeFolds sel sp) = visibleRowCount sp
  ∧ selection (beforeFolds sel sp) = sel.
Proof. unfold beforeFolds, resetSelectBags_. by repeat case_decide. Qed.

Lemma rowNodes__afterFill top bottom sp :
  rowNodes_ (afterFill top bottom sp) = rowNodes_ sp.
Proof. done. Qed.

Lemma set_rowNodes__fields kids sp :
  rowProvider_ (set_rowNodes_ kids sp) = rowProvider_ sp
  ∧ previousRowNodeCache_ (set_rowNodes_ kids sp) = previousRowNodeCache_ sp
  ∧ currentRowNodeCache_ (set_rowNodes_ kids sp) = currentRowNodeCache_ sp
  ∧ visibleRowCount (set_rowNodes_ kids sp) = visibleRowCount sp
  ∧ selection (set_rowNodes_ kids sp) = selection sp.
Proof. done. Qed.

(** The window a completed pass leaves between the folds. *)
Lemma redraw__window sp sp' :
  NoDup (rowNodes_ sp) →
  providerCoherent (rowProvider_ sp) →
  cacheCoherent (previousRowNodeCache_ sp) →
  redraw_ sp = Ok sp' →
  ∃ pre placed suf,
    rowNodes_ sp' = pre ++ TopFold :: placed ++ BottomFold :: suf
    ∧ NoDup (rowNodes_ sp')
    ∧ rowIndexOf <$> placed
      = Some <$> seqZ (getTopRowIndex sp)
                   (Z.min (visibleRowCount sp) (getRowCount (rowProvider_ sp))).
Proof.
  intros Hnd Hp Hc (sel & kids1 & kids2 & sp3 & Hsync & Htop & Hbot & Hfill
                    & ->)%redraw__stages.
  destruct (beforeFolds_fields sel sp) as (Hprov & Hprev & Hcur & Hv & Hsel).
  destruct (set_rowNodes__fields kids2 (beforeFolds sel sp))
    as (Hprov' & Hprev' & Hcur' & Hv' & Hsel').
  assert (NoDup kids2) as Hnd2.
  { eapply NoDup_bottomFoldChildren; [|done].
    eapply NoDup_topFoldChildren; [|done]. by apply NoDup_resetSelectBags_. }
  pose proof (drawVisibleRows__needs_top_fold _ _ _ _ Hfill) as Hin.
  apply list_elem_of_split in Hin as (pre0 & rest0 & Hkids).
  eapply drawVisibleRows__spec in Hfill as (_ & Hnd3 & Hshape);
    [|done|by rewrite Hprov', Hprov|by rewrite Hprev', Hprev|done].
  destruct Hshape as (k & pre & placed & suf & Hk & Hpl & _ & _ & _ & Hall & _).
  rewrite rowNodes__afterFill. exists pre, placed, suf.
  split_and!; [done|done|]. rewrite Hpl, Hall.
  - by rewrite Hv', Hprov', Hv, Hprov, seqZ_to_nat.
  - rewrite Hcur', Hcur. by eexists.
Qed.

(** C1: after a completed [redraw_] pass, the slots between the top fold
    and the bottom fold are the rows with the indices [topRowIndex],
    [topRowIndex + 1], ..., [topRowIndex + min(visibleRowCount, rowCount)
    - 1], in this order, and no index occurs twice.  (A pass completes
    only where the row provider supplied every row it was asked for.) *)
Theorem redraw__renders_window sp sp' :
  NoDup (rowNodes_ sp) →
  providerCoherent (rowProvider_ sp) →
  cacheCoherent (previousRowNodeCache_ sp) →
  redraw_ sp = Ok sp' →
  let window := rowIndexOf <$> Dom.betweenFolds (rowNodes_ sp') in
  window
  = Some <$> seqZ (getTopRowIndex sp)
               (Z.min (visibleRowCount sp) (getRowCount (rowProvider_ sp)))
  ∧ NoDup window.
Proof.
  intros Hnd Hp Hc H window. subst window.
  destruct (redraw__window _ _ Hnd Hp Hc H)
    as (pre & placed & suf & Hkids & Hnd' & Hpl).
  rewrite Hkids in *.
  assert (TopFold ∉ pre) as Hpre by (eapply NoDup_app_notin; [done|left]).
  assert (Dom.betweenFolds (pre ++ TopFold :: placed ++ BottomFold :: suf)
          = placed) as ->.
  { unfold Dom.betweenFolds. rewrite after_app_notin by done. simpl.
    apply upTo_app_notin. intros Hin.
    assert (rowIndexOf BottomFold ∈ rowIndexOf <$> placed) as Hin'
      by (apply list_elem_of_fmap; eauto).
    rewrite Hpl in Hin'. by apply list_elem_of_fmap in Hin' as (? & ? & _). }
  split; [done|]. rewrite Hpl.
  apply (NoDup_fmap_2 Some), NoDup_seqZ.
Qed.

(** ** What the DOM calls keep *)

Lemma elem_of_insertAt x new ref kids :
  ref ∈ kids → x ∈ Dom.insertAt kids new ref ↔ x = new ∨ x ∈ kids.
Proof.
  induction kids as [|y kids IH]; simpl; intros Hin.
  - by apply elem_of_nil in Hin.
  - case_decide as Hy.
    + rewrite !elem_of_cons. naive_solver.
    + apply elem_of_cons in Hin as [->|Hin]; [done|].
      rewrite !elem_of_cons, IH by done. naive_solver.
Qed.

Lemma elem_of_insertBefore x new ref kids kids' :
  Dom.insertBefore kids new ref = Ok kids' →
  new ∈ kids' ∧ (x ∈ kids → x ∈ kids').
Proof.
  unfold Dom.insertBefore, Dom.appendChild. destruct ref as [r|].
  - case_decide as Hr; [|done]. case_decide as Hrn; intros [= <-].
    + by subst.
    + assert (r ∈ Dom.detach new kids) by (by apply elem_of_detach).
      rewrite !elem_of_insertAt by done. split; [by left|].
      intros Hx. destruct (decide (x = new)) as [->|]; [by left|].
      right. by apply elem_of_detach.
  - intros [= <-]. rewrite !elem_of_app, !list_elem_of_singleton.
    split; [by right|]. intros Hx.
    destruct (decide (x = new)) as [->|]; [by right|].
    left. by apply elem_of_detach.
Qed.

Lemma elem_of_removeChild x n kids kids' :
  Dom.removeChild kids (Some n) = Ok kids' → x ≠ n → x ∈ kids → x ∈ kids'.
Proof.
  unfold Dom.removeChild. case_decide; [|done]. intros [= <-] ? ?.
  by apply elem_of_detach.
Qed.

Lemma removeUntilNode_keeps_bottomFold fuel kids cur target kids' :
  removeUntilNode fuel kids cur target = Ok kids' →
  BottomFold ∈ kids → BottomFold ∈ kids'.
Proof.
  revert kids cur. induction fuel as [|fuel IH]; intros kids cur; simpl.
  - case_decide; [by intros [= <-]|done].
  - case_decide; [by intros [= <-]|]. destruct cur as [dead|]; [|done].
    case_decide; [done|]. intros Hb Hin. inv_bind Hb.
    eapply IH; [done|]. by eapply elem_of_removeChild.
Qed.

(** ** What a window fill keeps *)

Lemma cacheCoherent_insert cache r :
  cacheCoherent (Some cache) → cacheCoherent (Some (<[rowIndex r := r]> cache)).
Proof.
  intros Hc m i r' [= <-]. destruct (decide (rowIndex r = i)) as [<-|Hne].
  - rewrite lookup_insert_eq. by intros [= <-].
  - rewrite lookup_insert_ne by done. by apply Hc.
Qed.

Lemma fetchRowNode__inv i sp o sp' :
  fetchRowNode_ i sp = Ok (o, sp') →
  (currentRowNodeCache_ sp = None ∧ sp' = sp)
  ∨ (∃ cur r, currentRowNodeCache_ sp = Some cur ∧ o = Some r
              ∧ sp' = set_currentRowNodeCache_
                        (Some (<[rowIndex r := r]> cur)) sp).
Proof.
  unfold fetchRowNode_.
  set (found := match previousRowNodeCache_ sp ≫= _ with
                | Some r => Some r | None => _ end).
  clearbody found. unfold cacheRowNode_.
  destruct (currentRowNodeCache_ sp) as [cur|] eqn:Hcur.
  - destruct found as [r|]; simpl; [|done]. intros [= <- <-].
    right. by exists cur, r.
  - intros [= <- <-]. by left.
Qed.

Lemma fetchRowNode__keeps i sp o sp' :
  fetchRowNode_ i sp = Ok (o, sp') →
  rowNodes_ sp' = rowNodes_ sp
  ∧ (cacheCoherent (currentRowNodeCache_ sp) →
     cacheCoherent (currentRowNodeCache_ sp')).
Proof.
  intros [[Hcur ->]|(cur & r & Hcur & -> & ->)]%fetchRowNode__inv; [done|].
  split; [done|]. rewrite Hcur. simpl. apply cacheCoherent_insert.
Qed.

Lemma withFill_fields kids cache log sp :
  rowNodes_ (withFill kids cache log sp) = kids
  ∧ currentRowNodeCache_ (withFill kids cache log sp) = cache.
Proof. done. Qed.

Lemma insertNewRow_keeps index node sp step :
  insertNewRow index node sp = Ok step →
  (BottomFold ∈ rowNodes_ sp → BottomFold ∈ rowNodes_ (stateOf step))
  ∧ (cacheCoherent (currentRowNodeCache_ sp) →
     cacheCoherent (currentRowNodeCache_ (stateOf step))).
Proof.
  unfold insertNewRow. intros Hb. inv_bind Hb. destruct a as [o sp1].
  apply fetchRowNode__keeps in Ha as [Hkids Hcache].
  destruct o as [r|].
  - inv_bind Hb. apply Ok_inj in Hb. subst step. simpl.
    split; [|done]. rewrite <- Hkids. intros ?.
    by eapply elem_of_insertBefore.
  - apply Ok_inj in Hb. subst step. simpl. by rewrite Hkids.
Qed.

Lemma drawRow_keeps index node sp step :
  drawRow index node sp = Ok step →
  (BottomFold ∈ rowNodes_ sp → BottomFold ∈ rowNodes_ (stateOf step))
  ∧ (cacheCoherent (currentRowNodeCache_ sp) →
     cacheCoherent (currentRowNodeCache_ (stateOf step))).
Proof.
  unfold drawRow. case_decide; [apply insertNewRow_keeps|].
  destruct node as [n|]; [|done].
  case_decide; [by intros [= <-]|].
  destruct (isSelectionRow (startRow (selection sp)) index).
  { destruct (startRow (selection sp)) as [s|]; [|done].
    intros Hb. inv_bind Hb. apply Ok_inj in Hb. subst step. simpl.
    split; [|done]. by eapply removeUntilNode_keeps_bottomFold. }
  destruct (isSelectionRow (endRow (selection sp)) index).
  { destruct (endRow (selection sp)) as [e|]; [|done].
    intros Hb. inv_bind Hb. apply Ok_inj in Hb. subst step. simpl.
    split; [|done]. by eapply removeUntilNode_keeps_bottomFold. }
  destruct (_ || _); [apply insertNewRow_keeps|].
  intros Hb. inv_bind Hb. destruct a as [o sp1].
  apply fetchRowNode__keeps in Ha as [Hkids Hcache].
  destruct o as [r|].
  - case_decide.
    + apply Ok_inj in Hb. subst step. simpl. by rewrite Hkids.
    + inv_bind Hb. inv_bind Hb. apply Ok_inj in Hb. subst step. simpl.
      split; [|done]. rewrite <- Hkids. intros Hin.
      eapply elem_of_removeChild; [done|congruence|].
      by eapply elem_of_insertBefore.
  - apply Ok_inj in Hb. subst step. simpl. by rewrite Hkids.
Qed.

Lemma drawRows_keeps count :
  ∀ index node sp node' sp',
    drawRows count index node sp = Ok (node', sp') →
    (BottomFold ∈ rowNodes_ sp → BottomFold ∈ rowNodes_ sp')
    ∧ (cacheCoherent (currentRowNodeCache_ sp) →
       cacheCoherent (currentRowNodeCache_ sp')).
Proof.
  induction count as [|count IH]; intros index node sp node' sp'; simpl.
  - by intros [= <- <-].
  - intros Hb. inv_bind Hb. apply drawRow_keeps in Ha as [Hbf Hc].
    destruct a as [node1 sp1|node1 sp1]; simpl in *.
    + apply IH in Hb as [Hbf' Hc']. split; auto.
    + by injection Hb as <- <-.
Qed.

Lemma drawVisibleRows__keeps top bottom sp sp' :
  drawVisibleRows_ top bottom sp = Ok sp' →
  cacheCoherent (currentRowNodeCache_ sp) →
  cacheCoherent (currentRowNodeCache_ sp').
Proof.
  unfold drawVisibleRows_. intros Hb. inv_bind Hb. destruct a as [node sp1].
  apply drawRows_keeps in Ha as [_ Hc]. case_decide.
  - by apply Ok_inj in Hb as <-.
  - inv_bind Hb. by apply Ok_inj in Hb as <-.
Qed.

(** ** Progress of a window fill *)

Lemma fetchRowNode__progress index sp :
  is_Some (currentRowNodeCache_ sp) →
  is_Some (getRowNode (rowProvider_ sp) index) →
  ∃ r sp1, fetchRowNode_ index sp = Ok (Some r, sp1)
           ∧ rowNodes_ sp1 = rowNodes_ sp.
Proof.
  intros [cur Hcur] [r Hr]. unfold fetchRowNode_.
  set (found := match previousRowNodeCache_ sp ≫= _ with
                | Some r => Some r | None => _ end).
  assert (is_Some found) as [r' Hfound].
  { subst found. destruct (previousRowNodeCache_ sp ≫= _); [by eexists|].
    by rewrite Hr. }
  rewrite Hfound, Hcur. unfold cacheRowNode_. rewrite Hcur. simpl.
  by eexists _, _.
Qed.

Lemma insertNewRow_progress index n sp :
  n ∈ rowNodes_ sp →
  is_Some (currentRowNodeCache_ sp) →
  is_Some (getRowNode (rowProvider_ sp) index) →
  ∃ node' sp', insertNewRow index (Some n) sp = Ok (Continue node' sp').
Proof.
  intros Hn Hcur Hrow. unfold insertNewRow.
  destruct (fetchRowNode__progress _ _ Hcur Hrow) as (r & sp1 & -> & Hkids).
  simpl. rewrite Hkids. unfold Dom.insertBefore.
  rewrite decide_True by done. case_decide; simpl; by eexists _, _.
Qed.

Lemma drawRow_progress index n sp :
  n ∈ rowNodes_ sp →
  isSelectionRow (startRow (selection sp)) index = false →
  isSelectionRow (endRow (selection sp)) index = false →
  is_Some (currentRowNodeCache_ sp) →
  is_Some (getRowNode (rowProvider_ sp) index) →
  ∃ node' sp', drawRow index (Some n) sp = Ok (Continue node' sp').
Proof.
  intros Hn Hs He Hcur Hrow. unfold drawRow. rewrite Hs, He.
  case_decide; [by apply insertNewRow_progress|].
  case_decide; [by eexists _, _|].
  destruct (_ || _); [by apply insertNewRow_progress|].
  destruct (fetchRowNode__progress _ _ Hcur Hrow) as (r & sp1 & -> & Hkids).
  simpl. case_decide; [by eexists _, _|]. rewrite Hkids.
  destruct (Dom.insertBefore (rowNodes_ sp) (XRow r) (Some n))
    as [kids1| |] eqn:Hins.
  - simpl. unfold Dom.removeChild. rewrite decide_True; [by eexists _, _|].
    by eapply elem_of_insertBefore.
  - revert Hins. unfold Dom.insertBefore. rewrite decide_True by done.
    by case_decide.
  - revert Hins. unfold Dom.insertBefore. rewrite decide_True by done.
    by case_decide.
Qed.

Lemma bottomFold_ahead top k pre0 suf0 kids node :
  fillInv top k pre0 suf0 kids node →
  BottomFold ∈ kids → BottomFold ∉ pre0 →
  ∃ n, node = Some n ∧ n ∈ kids.
Proof.
  intros (pre & placed & rest & -> & -> & Hpl & [Hsub _] & _) Hin Hpre0.
  assert (BottomFold ∈ rest) as Hrest.
  { rewrite elem_of_app, elem_of_cons, elem_of_app in Hin.
    destruct Hin as [Hin|[?|[Hin|?]]]; [|done| |done].
    - destruct Hpre0. by eapply elem_of_sublist.
    - by destruct (placed_index _ _ _ _ Hpl Hin) as (? & ? & _). }
  destruct rest as [|n rest]; [by apply elem_of_nil in Hrest|].
  exists n. split; [done|].
  rewrite elem_of_app, elem_of_cons, elem_of_app, elem_of_cons. auto.
Qed.

Lemma drawRows_total top pre0 suf0 total count :
  ∀ k sp node,
    (k + count ≤ total)%nat →
    NoDup (rowNodes_ sp) →
    providerCoherent (rowProvider_ sp) →
    cacheCoherent (previousRowNodeCache_ sp) →
    fillInv top k pre0 suf0 (rowNodes_ sp) node →
    BottomFold ∈ rowNodes_ sp → BottomFold ∉ pre0 →
    is_Some (currentRowNodeCache_ sp) →
    (∀ i, (top ≤ i < top + Z.of_nat total)%Z →
          isSelectionRow (startRow (selection sp)) i = false
          ∧ isSelectionRow (endRow (selection sp)) i = false
          ∧ is_Some (getRowNode (rowProvider_ sp) i)) →
    ∃ node' sp', drawRows count (top + Z.of_nat k) node sp = Ok (node', sp').
Proof.
  induction count as [|count IH];
    intros k sp node Hk Hnd Hp Hc Hinv Hbf Hpre0 Hcur Hrange; simpl.
  - by eexists _, _.
  - destruct (bottomFold_ahead _ _ _ _ _ _ Hinv Hbf Hpre0) as (n & -> & Hn).
    destruct (Hrange (top + Z.of_nat k)%Z) as (Hs & He & Hrow); [lia|].
    destruct (drawRow_progress _ _ _ Hn Hs He Hcur Hrow)
      as (node1 & sp1 & Hstep).
    rewrite Hstep. simpl.
    pose proof (drawRow_step _ _ _ _ _ _ _ Hnd Hp Hc Hinv Hstep)
      as (Hf & Hnd1 & Hinv1 & Hcur1).
    pose proof (drawRow_keeps _ _ _ _ Hstep) as [Hbf1 _]. simpl in Hbf1.
    replace (top + Z.of_nat k + 1)%Z with (top + Z.of_nat (S k))%Z by lia.
    apply IH; try done; [lia| | |auto|auto|].
    + by rewrite (fills_rowProvider_ _ _ Hf).
    + by rewrite (fills_previous _ _ Hf).
    + rewrite (fills_selection _ _ Hf), (fills_rowProvider_ _ _ Hf). done.
Qed.

Lemma removeUntilNode_total target suf junk :
  ∀ fuel A,
    NoDup (A ++ junk ++ target :: suf) →
    BottomFold ∉ junk → target ∉ junk → (length junk ≤ fuel)%nat →
    removeUntilNode fuel (A ++ junk ++ target :: suf)
      (head (junk ++ target :: suf)) target
    = Ok (A ++ target :: suf).
Proof.
  induction junk as [|x junk IH]; intros fuel A Hnd Hbf Ht Hfuel.
  - simpl. destruct fuel; simpl; by rewrite decide_True.
  - destruct fuel as [|fuel]; [simpl in Hfuel; lia|].
    apply not_elem_of_cons in Hbf as [Hbx Hbf].
    apply not_elem_of_cons in Ht as [Htx Ht]. simpl.
    rewrite decide_False by congruence. rewrite decide_False by done.
    rewrite nextSibling_middle by (eapply NoDup_app_notin; [done|left]).
    rewrite removeChild_middle by done. simpl. apply IH; [|done|done|].
    + eapply sublist_NoDup; [exact Hnd|].
      apply sublist_app; [done|]. by apply sublist_cons.
    + simpl in Hfuel. lia.
Qed.

(** A fill that finds the bottom fold ahead and no selection row due
    completes. *)
Lemma drawVisibleRows__total top bottom sp pre0 rest0 :
  NoDup (rowNodes_ sp) →
  providerCoherent (rowProvider_ sp) →
  cacheCoherent (previousRowNodeCache_ sp) →
  rowNodes_ sp = pre0 ++ TopFold :: rest0 →
  BottomFold ∈ rest0 →
  is_Some (currentRowNodeCache_ sp) →
  (∀ i, (top ≤ i < top + Z.min (visibleRowCount sp)
                            (getRowCount (rowProvider_ sp)))%Z →
        isSelectionRow (startRow (selection sp)) i = false
        ∧ isSelectionRow (endRow (selection sp)) i = false
        ∧ is_Some (getRowNode (rowProvider_ sp) i)) →
  ∃ sp', drawVisibleRows_ top bottom sp = Ok sp'.
Proof.
  intros Hnd Hp Hc Hkids Hbf Hcur Hrange.
  assert (NoDup (pre0 ++ TopFold :: rest0)) as Hnd0 by (by rewrite <- Hkids).
  assert (BottomFold ∉ pre0) as Hpre0.
  { eapply NoDup_app_notin; [done|]. by right. }
  assert (fillInv top 0 pre0 (Dom.after BottomFold rest0) (rowNodes_ sp)
            (Dom.nextSibling (rowNodes_ sp) TopFold)) as Hinv.
  { exists pre0, [], rest0. rewrite Hkids. split_and!;
      [done| |done|apply prunes_refl..].
    apply nextSibling_middle. eapply NoDup_app_notin; [done|left]. }
  unfold drawVisibleRows_.
  set (count := Z.to_nat _).
  destruct (drawRows_total top pre0 (Dom.after BottomFold rest0) count count
              0 sp _ ltac:(lia) Hnd Hp Hc Hinv) as (node & sp1 & Hrows);
    [rewrite Hkids; set_solver|done|done| |].
  { intros i Hi. apply Hrange. subst count. lia. }
  replace (top + Z.of_nat 0)%Z with top in Hrows by lia.
  rewrite Hrows. cbn -[removeUntilNode].
  replace top with (top + Z.of_nat 0)%Z in Hrows at 1 by lia.
  pose proof (drawRows_keeps _ _ _ _ _ _ Hrows) as [Hbf1 _].
  apply (drawRows_spec _ pre0 (Dom.after BottomFold rest0)) in Hrows
    as (Hf & Hnd1 & k & Hk & Hinv1 & _); [|done..].
  case_decide; [by eexists|].
  destruct Hinv1 as (pre & placed & rest & Hkids1 & -> & Hpl & [Hsub _] & _).
  assert (BottomFold ∈ rest) as Hrest.
  { assert (BottomFold ∈ rowNodes_ sp1) as Hin
      by (apply Hbf1; rewrite Hkids; set_solver).
    rewrite Hkids1, elem_of_app, elem_of_cons, elem_of_app in Hin.
    destruct Hin as [Hin|[?|[Hin|?]]]; [|done| |done].
    - destruct Hpre0. by eapply elem_of_sublist.
    - by destruct (placed_index _ _ _ _ Hpl Hin) as (? & ? & _). }
  apply list_elem_of_split_l in Hrest as (junk & suf & -> & Hj).
  rewrite Hkids1.
  replace (pre ++ TopFold :: placed ++ junk ++ BottomFold :: suf)
    with ((pre ++ TopFold :: placed) ++ junk ++ BottomFold :: suf) by reassoc.
  rewrite removeUntilNode_total; [by eexists|..|done|done|].
  - replace ((pre ++ TopFold :: placed) ++ junk ++ BottomFold :: suf)
      with (pre ++ TopFold :: placed ++ junk ++ BottomFold :: suf) by reassoc.
    by rewrite <- Hkids1.
  - repeat first [rewrite length_app | rewrite length_cons]. lia.
Qed.

(** ** Fold placement around pinned rows *)

Lemma NoDup_middle_inj {A} (l1 l2 l1' l2' : list A) x :
  NoDup (l1 ++ x :: l2) → l1 ++ x :: l2 = l1' ++ x :: l2' →
  l1 = l1' ∧ l2 = l2'.
Proof.
  revert l1'. induction l1 as [|y l1 IH]; intros l1' Hnd Heq.
  - destruct l1' as [|y' l1']; simplify_eq/=; [done|].
    apply NoDup_cons in Hnd as [Hx _]. destruct Hx. set_solver.
  - destruct l1' as [|y' l1']; simplify_eq/=.
    + apply NoDup_cons in Hnd as [Hx _]. destruct Hx. set_solver.
    + apply NoDup_cons in Hnd as [_ Hnd].
      destruct (IH _ Hnd H0) as [-> ->]. done.
Qed.

Lemma foldAfter_spec s A R :
  NoDup (A ++ XRow s :: R) →
  foldAfter s (A ++ XRow s :: R)
  = Ok (Dom.detach TopFold A ++ XRow s :: TopFold :: Dom.detach TopFold R).
Proof.
  intros Hnd. unfold foldAfter.
  rewrite nextSibling_middle by (eapply NoDup_app_notin; [done|left]).
  case_decide as Hhd.
  - destruct R as [|b R]; simplify_eq/=.
    assert (TopFold ∉ A) by (eapply NoDup_app_notin; [done|set_solver]).
    assert (TopFold ∉ R).
    { apply NoDup_app in Hnd as (_ & _ & Hnd).
      apply NoDup_cons in Hnd as [_ Hnd]. by apply NoDup_cons in Hnd as [? _]. }
    by rewrite detach_cons_eq, !detach_notin.
  - destruct R as [|b R]; simpl.
    + unfold Dom.insertBefore, Dom.appendChild.
      rewrite detach_app, detach_cons_ne by done. f_equal. reassoc.
    + replace (A ++ XRow s :: b :: R) with ((A ++ [XRow s]) ++ b :: R) in *
        by reassoc.
      rewrite insertBefore_middle; [|done|intros <-; by apply Hhd].
      rewrite detach_app, (detach_cons_ne _ (XRow s)) by done.
      rewrite (detach_cons_ne _ b) by (intros ->; by apply Hhd).
      f_equal. reassoc.
Qed.

Lemma foldBefore_spec e A R :
  NoDup (A ++ XRow e :: R) →
  foldBefore e (A ++ XRow e :: R)
  = Ok (Dom.detach BottomFold A ++ BottomFold :: XRow e
          :: Dom.detach BottomFold R).
Proof.
  intros Hnd. unfold foldBefore. case_decide as Hnext.
  - apply nextSibling_Some in Hnext as (X & Y & Heq & HX).
    replace (X ++ BottomFold :: XRow e :: Y)
      with ((X ++ [BottomFold]) ++ XRow e :: Y) in Heq by reassoc.
    destruct (NoDup_middle_inj _ _ _ _ _ Hnd Heq) as [-> ->].
    assert (BottomFold ∉ X ++ Y) as [? ?]%not_elem_of_app.
    { intros [?|?]%elem_of_app; [done|]. apply NoDup_app in Hnd as (_ & Hd & _).
      apply (Hd BottomFold); set_solver. }
    rewrite detach_app, detach_cons_eq, (detach_notin _ X),
      (detach_notin _ Y) by done.
    change (Dom.detach BottomFold []) with (@nil Node).
    f_equal. reassoc.
  - by rewrite insertBefore_middle.
Qed.

Lemma removeLeading_spec s R :
  ∀ A fuel,
    NoDup (A ++ XRow s :: R) → (length A ≤ fuel)%nat →
    removeLeading fuel s (A ++ XRow s :: R) = Ok (XRow s :: R).
Proof.
  induction A as [|x A IH]; intros fuel Hnd Hfuel.
  - destruct fuel; simpl; by rewrite decide_True.
  - destruct fuel as [|fuel]; [simpl in Hfuel; lia|]. simpl.
    apply NoDup_cons in Hnd as [Hx Hnd].
    rewrite decide_False by (intros [= ->]; set_solver).
    unfold Dom.removeChild. rewrite decide_True by left.
    rewrite detach_cons_eq, detach_notin by done. simpl.
    apply IH; [done|]. simpl in Hfuel. lia.
Qed.

Lemma removeTrailing_spec e A :
  ∀ R fuel,
    NoDup (A ++ XRow e :: R) → (length R ≤ fuel)%nat →
    removeTrailing fuel e (A ++ XRow e :: R) = Ok (A ++ [XRow e]).
Proof.
  induction R as [|z R IH] using rev_ind; intros fuel Hnd Hfuel.
  - destruct fuel; simpl; unfold Dom.lastChild; by rewrite last_snoc,
      decide_True.
  - rewrite length_app in Hfuel. simpl in Hfuel.
    destruct fuel as [|fuel]; [lia|]. simpl.
    replace (A ++ XRow e :: R ++ [z]) with ((A ++ XRow e :: R) ++ [z]) in *
      by reassoc.
    unfold Dom.lastChild. rewrite last_snoc.
    apply NoDup_app in Hnd as (Hnd & Hd & _).
    assert (z ∉ A ++ XRow e :: R) as Hz.
    { intros Hin. apply (Hd _ Hin). left. }
    rewrite decide_False by (intros [= ->]; set_solver).
    unfold Dom.removeChild. rewrite decide_True by set_solver.
    rewrite detach_app, detach_cons_eq, detach_notin by done. simpl.
    rewrite app_nil_r. apply IH; [done|lia].
Qed.

(** ** What [sync] returns does not depend on the proxy's old fields *)

Lemma sync_rows d a old1 old2 sel1 :
  SelectionProxy.sync d a old1 = Ok sel1 →
  ∃ sel2, SelectionProxy.sync d a old2 = Ok sel2
          ∧ startRow sel2 = startRow sel1 ∧ endRow sel2 = endRow sel1
          ∧ isMultiline sel2 = isMultiline sel1
          ∧ isCollapsed sel2 = isCollapsed sel1.
Proof.
  unfold SelectionProxy.sync. intros H.
  repeat (first
    [ match type of H with
      | Ok _ = Ok _ => apply Ok_inj in H; subst sel1
      | Throw _ = Ok _ => discriminate H
      end
    | match type of H with
      | context [match ?x with _ => _ end] => destruct x eqn:?
      end ]);
  eexists; (split; [reflexivity|done]).
Qed.

Lemma sync_multiline d a old sel s e :
  SelectionProxy.sync d a old = Ok sel →
  startRow sel = Some s → endRow sel = Some e →
  isMultiline sel = Some (negb (rowIndex s =? rowIndex e)%Z).
Proof.
  unfold SelectionProxy.sync. intros H.
  repeat (first
    [ match type of H with
      | Ok _ = Ok _ => apply Ok_inj in H; subst sel
      | Throw _ = Ok _ => discriminate H
      end
    | match type of H with
      | context [match ?x with _ => _ end] => destruct x eqn:?
      end ]);
  simpl; intros; simplify_eq; try done.
  all: by rewrite Z.eqb_sym.
Qed.

(** ** Composing a pass from its stages *)

Lemma Ok_bind {A B} (a : A) (f : A → outcome B) : Ok a ≫= f = f a.
Proof. done. Qed.

Lemma redraw__compose sp sel kids1 kids2 sp3 :
  SelectionProxy.sync (document_selection sp) (accessibilityEnabled sp)
    (selection sp) = Ok sel →
  topFoldChildren sel (getTopRowIndex sp) (rowNodes_ (resetSelectBags_ sp))
  = Ok kids1 →
  bottomFoldChildren sel (getBottomRowIndex sp (getTopRowIndex sp)) kids1
  = Ok kids2 →
  drawVisibleRows_ (getTopRowIndex sp)
    (getBottomRowIndex sp (getTopRowIndex sp))
    (set_rowNodes_ kids2 (beforeFolds sel sp))
  = Ok sp3 →
  redraw_ sp
  = Ok (afterFill (getTopRowIndex sp)
          (getBottomRowIndex sp (getTopRowIndex sp)) sp3).
Proof.
  intros Hsync Htop Hbot Hfill.
  destruct (resetSelectBags__selection sp) as (Hd & Ha11y & Hsel).
  unfold redraw_, syncSelection, drawTopFold_, drawBottomFold_.
  cbv zeta. rewrite Hd, Ha11y, Hsel, Hsync.
  repeat (rewrite Ok_bind; cbv beta zeta).
  change (set_currentRowNodeCache_ (Some ∅)
            (syncScrollHeight (set_selection sel (resetSelectBags_ sp))))
    with (beforeFolds sel sp).
  rewrite !getTopRowIndex_beforeFolds, !getBottomRowIndex_beforeFolds.
  destruct (beforeFolds_fields sel sp) as (_ & _ & _ & _ & Hsel').
  rewrite Hsel', rowNodes__beforeFolds, Htop.
  repeat (rewrite Ok_bind; cbv beta zeta).
  destruct (set_rowNodes__fields kids1 (beforeFolds sel sp))
    as (_ & _ & _ & _ & Hsel'').
  rewrite Hsel'', Hsel'.
  change (rowNodes_ (set_rowNodes_ kids1 (beforeFolds sel sp))) with kids1.
  rewrite Hbot. repeat (rewrite Ok_bind; cbv beta zeta).
  rewrite set_rowNodes__twice, Hfill. reflexivity.
Qed.

(** ** What a pass leaves alone *)

Lemma env_fields sp sp' :
  env sp' = env sp →
  rowProvider_ sp' = rowProvider_ sp
  ∧ document_selection sp' = document_selection sp
  ∧ accessibilityEnabled sp' = accessibilityEnabled sp
  ∧ getTopRowIndex sp' = getTopRowIndex sp
  ∧ getScreenSize sp' = getScreenSize sp
  ∧ characterSize sp' = characterSize sp.
Proof.
  unfold env, getTopRowIndex, getScreenSize. intros [= -> -> -> -> -> -> ->].
  done.
Qed.

Lemma env_afterFill top bottom sp : env (afterFill top bottom sp) = env sp.
Proof. done. Qed.

Lemma env_fills sp sp' : fills sp sp' → env sp' = env sp.
Proof. by intros (? & ? & ? & ->). Qed.

Lemma env_set_rowNodes_ kids sp : env (set_rowNodes_ kids sp) = env sp.
Proof. done. Qed.

Lemma env_beforeFolds sel sp : env (beforeFolds sel sp) = env sp.
Proof. unfold env, beforeFolds, resetSelectBags_. by repeat case_decide. Qed.

Lemma afterFill_fields top bottom sp :
  selection (afterFill top bottom sp) = selection sp
  ∧ previousRowNodeCache_ (afterFill top bottom sp) = currentRowNodeCache_ sp
  ∧ currentRowNodeCache_ (afterFill top bottom sp) = None
  ∧ visibleRowCount (afterFill top bottom sp)
    = smartFloorDivide (height (getScreenSize sp))
        (height (characterSize sp)).
Proof. done. Qed.

Lemma rowNodes__resetSelectBags_ sp :
  rowNodes_ (resetSelectBags_ sp)
  = Dom.detach BottomSelectBag (Dom.detach TopSelectBag (rowNodes_ sp)).
Proof.
  unfold resetSelectBags_.
  destruct (decide (TopSelectBag ∈ rowNodes_ sp)) as [Ht|Ht].
  - cbn [rowNodes_ set_rowNodes_]. case_decide as Hb; cbn [rowNodes_
      set_rowNodes_ set_bottomSelectBag_text]; [done|].
    by rewrite (detach_notin BottomSelectBag).
  - rewrite (detach_notin TopSelectBag) by done.
    case_decide as Hb; cbn [rowNodes_ set_rowNodes_
      set_bottomSelectBag_text]; [done|].
    by rewrite (detach_notin BottomSelectBag).
Qed.

Lemma prunes_singleton top k x l :
  prunes top k [x] l →
  (∀ i, rowIndexOf x = Some i → ¬ (top ≤ i < top + Z.of_nat k)%Z) →
  l = [x].
Proof.
  intros [Hsub Hin] Hout.
  destruct l as [|y l].
  - destruct (Hin x) as (i & Hi & ?); [left|apply not_elem_of_nil|].
    by destruct (Hout i Hi).
  - apply sublist_cons_l in Hsub as (l1 & l2 & Heq & Hsub).
    destruct l1 as [|? [|? ?]]; simplify_eq/=.
    by apply sublist_nil_r in Hsub as ->.
Qed.

(** The folds around a start row above the window and an end row below
    it. *)
Lemma pinned_folds sel s e top bottom A B C :
  startRow sel = Some s → endRow sel = Some e →
  isMultiline sel = Some true →
  (rowIndex s < top)%Z → (top ≤ rowIndex e)%Z →
  (rowIndex s ≤ bottom)%Z → (bottom < rowIndex e)%Z →
  NoDup (A ++ XRow s :: B ++ XRow e :: C) →
  ∃ kids1 M,
    topFoldChildren sel top (A ++ XRow s :: B ++ XRow e :: C) = Ok kids1
    ∧ bottomFoldChildren sel bottom kids1
      = Ok (XRow s :: TopFold :: M ++ [BottomFold; XRow e])
    ∧ NoDup (XRow s :: TopFold :: M ++ [BottomFold; XRow e]).
Proof.
  intros Hs He Hm Hst Het Hsb Heb Hnd.
  set (B' := Dom.detach TopFold B). set (C' := Dom.detach TopFold C).
  assert (topFoldChildren sel top (A ++ XRow s :: B ++ XRow e :: C)
          = Ok (XRow s :: TopFold :: B' ++ XRow e :: C')) as Htop.
  { unfold topFoldChildren. rewrite Hs, He, Hm.
    destruct (Z.leb_spec top (rowIndex s)); [lia|].
    destruct (Z.leb_spec top (rowIndex e)); [|lia].
    cbn -[removeLeading foldAfter].
    rewrite foldAfter_spec by done. rewrite Ok_bind.
    rewrite detach_app, detach_cons_ne by done. fold B' C'.
    apply removeLeading_spec;
      [|repeat first [rewrite length_app | rewrite length_cons]; lia].
    eapply NoDup_foldAfter; [exact Hnd|]. rewrite foldAfter_spec by done.
    by rewrite detach_app, detach_cons_ne. }
  assert (NoDup (XRow s :: TopFold :: B' ++ XRow e :: C')) as Hnd1
    by (by eapply NoDup_topFoldChildren).
  set (M := Dom.detach BottomFold B').
  exists (XRow s :: TopFold :: B' ++ XRow e :: C'), M.
  assert (bottomFoldChildren sel bottom
            (XRow s :: TopFold :: B' ++ XRow e :: C')
          = Ok (XRow s :: TopFold :: M ++ [BottomFold; XRow e])) as Hbot.
  { unfold bottomFoldChildren. rewrite Hs, He, Hm.
    destruct (Z.leb_spec (rowIndex e) bottom); [lia|].
    destruct (Z.leb_spec (rowIndex s) bottom); [|lia].
    cbn -[removeTrailing foldBefore].
    change (XRow s :: TopFold :: B' ++ XRow e :: C')
      with ((XRow s :: TopFold :: B') ++ XRow e :: C') in *.
    rewrite foldBefore_spec by done. rewrite Ok_bind.
    rewrite !detach_cons_ne by done. fold M.
    replace ((XRow s :: TopFold :: M) ++ BottomFold :: XRow e
               :: Dom.detach BottomFold C')
      with ((XRow s :: TopFold :: M ++ [BottomFold]) ++ XRow e
              :: Dom.detach BottomFold C') by reassoc.
    rewrite removeTrailing_spec;
      [f_equal; reassoc|
      |repeat first [rewrite length_app | rewrite length_cons]; lia].
    eapply NoDup_foldBefore; [exact Hnd1|].
    rewrite foldBefore_spec by done. rewrite !detach_cons_ne by done.
    fold M. f_equal. reassoc. }
  split_and!; [done|done|]. by eapply NoDup_bottomFoldChildren.
Qed.

(** One pass over a pinned selection: it completes, both rows stay where
    they are, and the scenario still holds afterwards. *)
Lemma pinned_pass s e sp :
  pinnedSelection s e sp →
  ∃ sp' W,
    redraw_ sp = Ok sp' ∧ pinnedSelection s e sp'
    ∧ rowNodes_ sp' = XRow s :: TopFold :: W ++ [BottomFold; XRow e].
Proof.
  intros [(sel & Hsync & Hs & He) Hsi Hei Htop Hrows Hgeo Hnd
            (A & B & C & Hkids) Hp Hc Hsup].
  assert (isMultiline sel = Some true) as Hm.
  { rewrite (sync_multiline _ _ _ _ _ _ Hsync Hs He), Hsi, Hei. done. }
  (* the children after the select bags are gone *)
  pose proof (rowNodes__resetSelectBags_ sp) as Hreset.
  rewrite Hkids in Hreset.
  rewrite !detach_app, !detach_cons_ne, !detach_app, !detach_cons_ne
    in Hreset by done.
  pose proof (NoDup_resetSelectBags_ _ Hnd) as Hnd0. rewrite Hreset in Hnd0.
  (* the folds *)
  destruct (pinned_folds sel s e 500 524 _ _ _ Hs He Hm
              ltac:(lia) ltac:(lia) ltac:(lia) ltac:(lia) Hnd0)
    as (kids1 & M & Hfold1 & Hfold2 & Hnd2).
  rewrite <- Hreset in Hfold1.
  (* the window fill *)
  set (sp0 := set_rowNodes_ (XRow s :: TopFold :: M ++ [BottomFold; XRow e])
                (beforeFolds sel sp)).
  destruct (beforeFolds_fields sel sp) as (Hprov & Hprev & Hcur & Hv & Hsel).
  destruct (set_rowNodes__fields
              (XRow s :: TopFold :: M ++ [BottomFold; XRow e])
              (beforeFolds sel sp)) as (Hprov' & Hprev' & Hcur' & Hv' & Hsel').
  fold sp0 in Hprov', Hprev', Hcur', Hv', Hsel'.
  assert (rowNodes_ sp0 = [XRow s] ++ TopFold :: M ++ [BottomFold; XRow e])
    as Hkids0 by done.
  assert (NoDup (rowNodes_ sp0)) as Hnd0' by (by rewrite Hkids0).
  assert (providerCoherent (rowProvider_ sp0)) as Hp0
    by (by rewrite Hprov', Hprov).
  assert (cacheCoherent (previousRowNodeCache_ sp0)) as Hc0
    by (by rewrite Hprev', Hprev).
  destruct (drawVisibleRows__total 500 524 sp0 _ _ Hnd0' Hp0 Hc0 Hkids0)
    as [sp3 Hfill].
  { set_solver. }
  { rewrite Hcur', Hcur. by eexists. }
  { intros i Hi. rewrite Hsel', Hsel, Hs, He, Hprov', Hprov. simpl.
    rewrite Hsi, Hei. split_and!; [lia|lia|]. apply Hsup.
    rewrite Hv', Hv, Hrows in Hi. lia. }
  pose proof (drawVisibleRows__keeps _ _ _ _ Hfill) as Hcache.
  pose proof Hfill as Hspec.
  eapply drawVisibleRows__spec in Hspec as (Hf & Hnd3 & Hshape); [|done..].
  destruct Hshape
    as (k & pre & W & suf & Hkids3 & Hpl & Hk & Hpre & Hsuf & _ & _).
  assert (BottomFold ∉ M) as HM.
  { clear -Hnd2. apply NoDup_cons in Hnd2 as [_ Hnd2].
    apply NoDup_cons in Hnd2 as [_ Hnd2].
    eapply NoDup_app_notin; [done|left]. }
  rewrite after_app_notin in Hsuf by done. simpl in Hsuf.
  assert (k ≤ 25)%nat as Hk25.
  { rewrite Hv', Hv, Hrows in Hk. lia. }
  apply prunes_singleton in Hpre as ->;
    [|simpl; intros i [= <-]; lia].
  apply prunes_singleton in Hsuf as ->;
    [|simpl; intros i [= <-]; lia].
  (* the pass as a whole *)
  rewrite <- Htop in Hfold1.
  assert (getBottomRowIndex sp (getTopRowIndex sp) = 524%Z) as Hbottom
    by (unfold getBottomRowIndex; rewrite Htop, Hrows; lia).
  rewrite <- Hbottom in Hfold2.
  rewrite <- Htop, <- Hbottom in Hfill.
  pose proof (redraw__compose _ _ _ _ _ Hsync Hfold1 Hfold2 Hfill) as Hpass.
  eexists _, W. split; [exact Hpass|].
  set (sp' := afterFill _ _ sp3) in *.
  assert (env sp' = env sp) as Henv.
  { subst sp'. rewrite env_afterFill, (env_fills _ _ Hf). subst sp0.
    by rewrite env_set_rowNodes_, env_beforeFolds. }
  apply env_fields in Henv as (Ep & Ed & Ea & Et & Es & Ec).
  destruct (afterFill_fields (getTopRowIndex sp)
              (getBottomRowIndex sp (getTopRowIndex sp)) sp3)
    as (Fsel & Fprev & _ & Fv).
  fold sp' in Fsel, Fprev, Fv.
  assert (env sp3 = env sp) as Henv3.
  { rewrite (env_fills _ _ Hf). subst sp0.
    by rewrite env_set_rowNodes_, env_beforeFolds. }
  apply env_fields in Henv3 as (_ & _ & _ & _ & Es3 & Ec3).
  assert (rowNodes_ sp' = XRow s :: TopFold :: W ++ [BottomFold; XRow e])
    as Hkids'.
  { subst sp'. rewrite rowNodes__afterFill, Hkids3. reassoc. }
  split; [|done]. split.
  - rewrite Ed, Ea.
    destruct (sync_rows _ _ _ (selection sp') _ Hsync)
      as (sel2 & Hsync2 & Hs2 & He2 & _).
    exists sel2. by rewrite Hs2, He2.
  - done.
  - done.
  - by rewrite Et.
  - rewrite Fv, Es3, Ec3. done.
  - by rewrite Es, Ec.
  - subst sp'. by rewrite rowNodes__afterFill.
  - exists [], (TopFold :: W ++ [BottomFold]), []. rewrite Hkids'. reassoc.
  - by rewrite Ep.
  - rewrite Fprev. apply Hcache. rewrite Hcur', Hcur.
    intros m i r [= <-]. by rewrite lookup_empty.
  - by rewrite Ep.
Qed.

Lemma pinned_shape s e W :
  NoDup (XRow s :: TopFold :: W ++ [BottomFold; XRow e]) →
  Dom.beforeTopFold (XRow s :: TopFold :: W ++ [BottomFold; XRow e])
  = [XRow s]
  ∧ Dom.afterBottomFold (XRow s :: TopFold :: W ++ [BottomFold; XRow e])
    = [XRow e]
  ∧ Dom.betweenFolds (XRow s :: TopFold :: W ++ [BottomFold; XRow e]) = W.
Proof.
  intros Hnd. apply NoDup_cons in Hnd as [Hs Hnd].
  apply NoDup_cons in Hnd as [Ht Hnd].
  assert (BottomFold ∉ W) as HW by (eapply NoDup_app_notin; [done|left]).
  split_and!.
  - done.
  - unfold Dom.afterBottomFold. simpl.
    by rewrite after_app_notin; [simpl|done].
  - unfold Dom.betweenFolds. simpl. by apply upTo_app_notin.
Qed.

(** C2: however many passes run, the start row of a selection pinned at
    rows 2 and 2000 stays the one slot before the top fold and the end
    row the one slot after the bottom fold of a window on rows 500 to
    524, and neither is among the slots between the folds. *)
Theorem selection_rows_stay_pinned s e sp n :
  pinnedSelection s e sp →
  ∃ sp',
    passes (S n) sp = Ok sp'
    ∧ Dom.beforeTopFold (rowNodes_ sp') = [XRow s]
    ∧ Dom.afterBottomFold (rowNodes_ sp') = [XRow e]
    ∧ (XRow s ∉ Dom.betweenFolds (rowNodes_ sp'))
    ∧ (XRow e ∉ Dom.betweenFolds (rowNodes_ sp'))
    ∧ NoDup (rowNodes_ sp').
Proof.
  revert sp. induction n as [|n IH]; intros sp Hpin.
  - destruct (pinned_pass _ _ _ Hpin) as (sp' & W & Hpass & Hpin' & Hkids).
    exists sp'. cbn [passes]. rewrite Hpass, Ok_bind.
    pose proof (kids_distinct _ _ _ Hpin') as Hnd. rewrite Hkids in *.
    destruct (pinned_shape _ _ _ Hnd) as (-> & -> & ->).
    split_and!; try done.
    + apply NoDup_cons in Hnd as [Hs _]. set_solver.
    + apply NoDup_cons in Hnd as [_ Hnd]. apply NoDup_cons in Hnd as [_ Hnd].
      intros Hin. apply NoDup_app in Hnd as (_ & Hd & _).
      apply (Hd _ Hin). set_solver.
  - destruct (pinned_pass _ _ _ Hpin) as (sp1 & W & Hpass & Hpin' & _).
    destruct (IH _ Hpin') as (sp' & Hrest & Hprops).
    exists sp'. split; [|done].
    change (passes (S (S n)) sp) with (redraw_ sp ≫= passes (S n)).
    by rewrite Hpass, Ok_bind.
Qed.

Lemma pinnedExample_pinned : pinnedSelection row2 row2000 pinnedExample.
Proof.
  split.
  - eexists. split; [vm_compute; reflexivity|]. split; reflexivity.
  - reflexivity.
  - reflexivity.
  - vm_compute. reflexivity.
  - vm_compute. reflexivity.
  - vm_compute. reflexivity.
  - refine (bool_decide_unpack _ _). vm_compute. exact I.
  - by exists [TopFold], [XRow (mkRow 3 3); BottomFold], [].
  - intros i r. simpl. case_decide; [|done]. by intros [= <-].
  - intros m i r [= <-]. by rewrite lookup_empty.
  - intros i Hi. simpl. rewrite decide_True by lia. by eexists.
Qed.

(** ** Rounding *)

Lemma Qfloor_unique (z : Z) (q : Q) :
  (inject_Z z <= q)%Q → (q < inject_Z (z + 1))%Q → Qfloor q = z.
Proof.
  intros Hle Hlt.
  pose proof (Qfloor_le q) as Hfl. pose proof (Qlt_floor q) as Hfu.
  assert (inject_Z (Qfloor q) < inject_Z (z + 1))%Q as H1 by lra.
  assert (inject_Z z < inject_Z (Qfloor q + 1))%Q as H2 by lra.
  rewrite <- Zlt_Qlt in H1, H2. lia.
Qed.

Lemma Math_round_near (z : Z) (q : Q) :
  (inject_Z z - (1 # 2) <= q)%Q → (q < inject_Z z + (1 # 2))%Q →
  Math_round q = z.
Proof.
  intros Hle Hlt. unfold Math_round. apply Qfloor_unique; [lra|].
  rewrite inject_Z_plus. change (inject_Z 1) with 1%Q. lra.
Qed.

Lemma Qlt_bool_iff (a b : Q) : Qlt_bool a b = true ↔ (a < b)%Q.
Proof.
  unfold Qlt_bool. rewrite negb_true_iff, <- not_true_iff_false, Qle_bool_iff.
  split; [apply Qnot_le_lt|apply Qlt_not_le].
Qed.

Lemma Qlt_bool_false (a b : Q) : Qlt_bool a b = false ↔ (b <= a)%Q.
Proof.
  unfold Qlt_bool. by rewrite negb_false_iff, Qle_bool_iff.
Qed.

(** ** C9: the visible row count *)


(** ** C3: scrolling a row to the top *)

Lemma scheduleRedraw_fields sp :
  screen_scrollTop (scheduleRedraw sp) = screen_scrollTop sp
  ∧ isScrolledEnd (scheduleRedraw sp) = isScrolledEnd sp
  ∧ characterSize (scheduleRedraw sp) = characterSize sp
  ∧ is_Some (timeouts_ (scheduleRedraw sp) !! "redraw").
Proof.
  unfold scheduleRedraw.
  destruct (timeouts_ sp !! "redraw") as [handle|] eqn:Hh.
  - rewrite Hh. split_and!; [done..|by eexists].
  - simpl. split_and!; [done..|]. rewrite lookup_insert_eq. by eexists.
Qed.

Lemma scrollRowToTop_unfold i sp :
  scrollRowToTop i sp
  = let sp2 := set_isScrolledEnd
                 (getRowCount (rowProvider_ sp) <=? i + visibleRowCount sp)%Z
                 (syncScrollHeight sp) in
    if Qeq_bool (screen_scrollTop sp) (scrollTopTarget i sp) then sp2
    else scheduleRedraw (set_screen_scrollTop (scrollTopTarget i sp) sp2).
Proof. reflexivity. Qed.

Lemma scrollMax_synced sp :
  geometrySynced sp →
  (getScrollMax_ (syncScrollHeight sp)
   == inject_Z (getRowCount (rowProvider_ sp) - visibleRowCount sp)
      * height (characterSize sp)
      + visibleRowBottomMargin sp)%Q.
Proof.
  intros (Htm & Hbm & _ & _). unfold getScrollMax_, syncScrollHeight.
  cbn [scrollArea_height visibleRowTopMargin visibleRowBottomMargin
       screen_clientSize set_scrollArea_height set_lastRowCount_
       lastRowCount_ characterSize].
  unfold Zminus. rewrite inject_Z_plus, inject_Z_opp. lra.
Qed.

Lemma scrollTopTarget_cases i sp :
  let h := height (characterSize sp) in
  let top := (inject_Z i * h + visibleRowTopMargin sp)%Q in
  let scrollMax := getScrollMax_ (syncScrollHeight sp) in
  ((scrollMax < top)%Q ∧ scrollTopTarget i sp = scrollMax)
  ∨ ((top <= scrollMax)%Q ∧ scrollTopTarget i sp = top).
Proof.
  intros h top scrollMax. unfold scrollTopTarget. cbv zeta.
  fold scrollMax.
  change (inject_Z i * height (characterSize (syncScrollHeight sp))
          + visibleRowTopMargin (syncScrollHeight sp))%Q with top.
  destruct (Qlt_bool scrollMax top) eqn:Hlt.
  - left. by apply Qlt_bool_iff in Hlt.
  - right. by apply Qlt_bool_false in Hlt.
Qed.

Lemma getTopRowIndex_near sp (z : Z) :
  let h := height (characterSize sp) in
  (0 < h)%Q →
  (inject_Z z * h <= screen_scrollTop sp)%Q →
  (2 * screen_scrollTop sp < 2 * inject_Z z * h + h)%Q →
  getTopRowIndex sp = z.
Proof.
  intros h Hh Hle Hlt. unfold getTopRowIndex. fold h.
  apply Math_round_near.
  - apply Qle_shift_div_l; [done|].
    assert (0 <= (1 # 2) * h)%Q by (apply Qmult_le_0_compat; lra). lra.
  - apply Qlt_shift_div_r; [done|]. lra.
Qed.


Lemma evenExample_synced : geometrySynced evenExample.
Proof. repeat split; vm_compute; congruence. Defined.



(** ** Every window fill is a fill *)

Lemma fetchRowNode__fills i sp o sp' :
  fetchRowNode_ i sp = Ok (o, sp') → fills sp sp'.
Proof.
  intros [[_ ->]|(cur & r & _ & _ & ->)]%fetchRowNode__inv.
  - apply fills_refl.
  - apply fills_set_cache.
Qed.

Lemma insertNewRow_fills index node sp step :
  insertNewRow index node sp = Ok step → fills sp (stateOf step).
Proof.
  unfold insertNewRow. intros Hb. inv_bind Hb. destruct a as [o sp1].
  apply fetchRowNode__fills in Ha. destruct o as [r|].
  - inv_bind Hb. apply Ok_inj in Hb. subst step. simpl.
    eapply fills_trans; [done|apply fills_set_rowNodes_].
  - apply Ok_inj in Hb. subst step. simpl.
    eapply fills_trans; [done|apply fills_set_console].
Qed.

Lemma drawRow_fills index node sp step :
  drawRow index node sp = Ok step → fills sp (stateOf step).
Proof.
  unfold drawRow. case_decide; [apply insertNewRow_fills|].
  destruct node as [n|]; [|done].
  case_decide; [intros [= <-]; apply fills_refl|].
  destruct (isSelectionRow (startRow (selection sp)) index).
  { destruct (startRow (selection sp)) as [s|]; [|done].
    intros Hb. inv_bind Hb. apply Ok_inj in Hb. subst step. simpl.
    apply fills_set_rowNodes_. }
  destruct (isSelectionRow (endRow (selection sp)) index).
  { destruct (endRow (selection sp)) as [e|]; [|done].
    intros Hb. inv_bind Hb. apply Ok_inj in Hb. subst step. simpl.
    apply fills_set_rowNodes_. }
  destruct (_ || _); [apply insertNewRow_fills|].
  intros Hb. inv_bind Hb. destruct a as [o sp1].
  apply fetchRowNode__fills in Ha. destruct o as [r|].
  - case_decide.
    + apply Ok_inj in Hb. by subst step.
    + inv_bind Hb. inv_bind Hb. apply Ok_inj in Hb. subst step. simpl.
      eapply fills_trans; [done|apply fills_set_rowNodes_].
  - apply Ok_inj in Hb. subst step. simpl.
    eapply fills_trans; [done|apply fills_set_console].
Qed.

Lemma drawRows_fills count :
  ∀ index node sp node' sp',
    drawRows count index node sp = Ok (node', sp') → fills sp sp'.
Proof.
  induction count as [|count IH]; intros index node sp node' sp'; simpl.
  - intros [= <- <-]. apply fills_refl.
  - intros Hb. inv_bind Hb. apply drawRow_fills in Ha.
    destruct a as [node1 sp1|node1 sp1]; simpl in *.
    + apply IH in Hb. by eapply fills_trans.
    + by injection Hb as <- <-.
Qed.

Lemma drawVisibleRows__fills top bottom sp sp' :
  drawVisibleRows_ top bottom sp = Ok sp' → fills sp sp'.
Proof.
  unfold drawVisibleRows_. intros Hb. inv_bind Hb. destruct a as [node sp1].
  apply drawRows_fills in Ha. case_decide.
  - by apply Ok_inj in Hb as <-.
  - inv_bind Hb. apply Ok_inj in Hb as <-.
    eapply fills_trans; [done|apply fills_set_rowNodes_].
Qed.

(** ** A pass leaves the scheduler alone *)

Lemma sched_fills sp sp' : fills sp sp' → sched sp' = sched sp.
Proof. by intros (? & ? & ? & ->). Qed.

Lemma sched_beforeFolds sel sp : sched (beforeFolds sel sp) = sched sp.
Proof. unfold sched, beforeFolds, resetSelectBags_. by repeat case_decide. Qed.

Lemma sched_afterFill top bottom sp : sched (afterFill top bottom sp) = sched sp.
Proof. reflexivity. Qed.

Lemma sched_set_rowNodes_ kids sp : sched (set_rowNodes_ kids sp) = sched sp.
Proof. reflexivity. Qed.

Lemma redraw__sched sp sp' : redraw_ sp = Ok sp' → sched sp' = sched sp.
Proof.
  intros (sel & kids1 & kids2 & sp3 & _ & H)%redraw__stages.
  cbv zeta in H. destruct H as (_ & _ & Hfill & Hsp').
  apply drawVisibleRows__fills, sched_fills in Hfill.
  rewrite Hsp', sched_afterFill, Hfill, sched_set_rowNodes_.
  apply sched_beforeFolds.
Qed.

(** ** C8: the redraw scheduler *)

Lemma scheduleRedraw_armed sp :
  is_Some (timeouts_ sp !! "redraw") → scheduleRedraw sp = sp.
Proof. unfold scheduleRedraw. by intros [handle ->]. Qed.

Lemma scheduleRedraw_idle sp :
  timeouts_ sp !! "redraw" = None →
  timeouts_ (scheduleRedraw sp) !! "redraw" = Some (nextTimerId sp)
  ∧ timerQueue (scheduleRedraw sp)
    = timerQueue sp ++ [(nextTimerId sp, RedrawTask)].
Proof.
  unfold scheduleRedraw. intros ->. cbn. by rewrite lookup_insert_eq.
Qed.

Lemma scheduleRedraw_repeated k sp :
  Nat.iter (S k) scheduleRedraw sp = scheduleRedraw sp.
Proof.
  induction k as [|k IH]; [done|].
  change (Nat.iter (S (S k)) scheduleRedraw sp)
    with (scheduleRedraw (Nat.iter (S k) scheduleRedraw sp)).
  rewrite IH. apply scheduleRedraw_armed.
  destruct (timeouts_ sp !! "redraw") as [handle|] eqn:Hidle.
  - rewrite scheduleRedraw_armed by (by rewrite Hidle). by rewrite Hidle.
  - destruct (scheduleRedraw_idle sp Hidle) as [-> _]. done.
Qed.

(** C8: [k ≥ 1] calls of [scheduleRedraw] on an idle scheduler leave the
    state of the first call, with one deferred redraw callback armed; when
    the host fires it, it runs one redraw pass, after which no callback is
    pending, the scheduler is idle, and a new call arms it again. *)
Theorem scheduleRedraw_coalesces k sp :
  timeouts_ sp !! "redraw" = None → timerQueue sp = [] →
  let armed := Nat.iter (S k) scheduleRedraw sp in
  armed = scheduleRedraw sp
  ∧ timerQueue armed = [(nextTimerId sp, RedrawTask)]
  ∧ timeouts_ armed !! "redraw" = Some (nextTimerId sp)
  ∧ pendingRedraws armed = 1%nat
  ∧ fireTimer armed = Some (RedrawTask, redraw_ (redrawCallbackState armed))
  ∧ ∀ sp', redraw_ (redrawCallbackState armed) = Ok sp' →
      fireTimer sp' = None
      ∧ pendingRedraws sp' = 0%nat
      ∧ timeouts_ sp' !! "redraw" = None
      ∧ is_Some (timeouts_ (scheduleRedraw sp') !! "redraw")
      ∧ pendingRedraws (scheduleRedraw sp') = 1%nat.
Proof.
  intros Hidle Hqueue armed. subst armed. rewrite scheduleRedraw_repeated.
  destruct (scheduleRedraw_idle sp Hidle) as [Hhandle Hq].
  rewrite Hqueue in Hq. simpl in Hq.
  split_and!; [done|done|done|by unfold pendingRedraws; rewrite Hq| |].
  - unfold fireTimer. by rewrite Hq.
  - intros sp' Hpass%redraw__sched. unfold sched in Hpass.
    assert (timerQueue sp' = [] ∧ timeouts_ sp' !! "redraw" = None)
      as [Hq' Hidle'].
    { injection Hpass as -> -> _. split; [done|].
      unfold redrawCallbackState. cbn. apply lookup_delete_eq. }
    destruct (scheduleRedraw_idle sp' Hidle') as [Hhandle' Hq''].
    rewrite Hq' in Hq''. simpl in Hq''.
    split_and!; [by unfold fireTimer; rewrite Hq'
                |by unfold pendingRedraws; rewrite Hq'
                |done|by rewrite Hhandle'
                |by unfold pendingRedraws; rewrite Hq''].
Qed.

Lemma scheduleRedraw_coalesces_witness :
  timeouts_ evenExample !! "redraw" = None
  ∧ timerQueue evenExample = []
  ∧ Nat.iter 3 scheduleRedraw evenExample = scheduleRedraw evenExample
  ∧ pendingRedraws (Nat.iter 3 scheduleRedraw evenExample) = 1%nat.
Proof.
  assert (timeouts_ evenExample !! "redraw" = None) as Hidle by reflexivity.
  assert (timerQueue evenExample = []) as Hqueue by reflexivity.
  pose proof (scheduleRedraw_coalesces 2 evenExample Hidle Hqueue) as H.
  cbv zeta in H. destruct H as (Hsame & _ & _ & Hone & _).
  split_and!; [exact Hidle|exact Hqueue|exact Hsame|exact Hone].
Defined.

(** ** C6: wheel deltas *)



(** ** C7: touch movement *)

Ltac clamp_cases :=
  unfold clamp;
  repeat match goal with
         | |- context [Qlt_bool ?a ?b] =>
             let H := fresh "Hcmp" in
             destruct (Qlt_bool a b) eqn:H;
             [apply Qlt_bool_iff in H|apply Qlt_bool_false in H]
         | _ : context [Qlt_bool ?a ?b] |- _ =>
             let H := fresh "Hcmp" in
             destruct (Qlt_bool a b) eqn:H;
             [apply Qlt_bool_iff in H|apply Qlt_bool_false in H]
         end.

Lemma clamp_Qeq lo hi v v' :
  (v == v')%Q → (clamp lo hi v == clamp lo hi v')%Q.
Proof. intros Hv. clamp_cases; lra. Qed.

Lemma clamp_range lo hi v :
  (lo <= hi)%Q → (lo <= clamp lo hi v <= hi)%Q.
Proof. intros Hle. clamp_cases; lra. Qed.

Lemma sumQ_cons q l : sumQ (q :: l) = (q + sumQ l)%Q.
Proof. done. Qed.

Lemma touchChange_insert_ne lastTouch i touch t :
  TouchPoint.identifier t ≠ i →
  touchChange (<[i := touch]> lastTouch) t = touchChange lastTouch t.
Proof. intros Hne. unfold touchChange. by rewrite lookup_insert_ne. Qed.

Lemma mergeTouches_spec touches :
  ∀ delta lastTouch,
    NoDup (TouchPoint.identifier <$> touches) →
    (∀ t, t ∈ touches → is_Some (lastTouch !! TouchPoint.identifier t)) →
    ∃ delta' lastTouch',
      mergeTouches touches delta lastTouch = Ok (delta', lastTouch')
      ∧ (delta' == delta - sumQ (touchChange lastTouch <$> touches))%Q
      ∧ (∀ t, t ∈ touches →
              lastTouch' !! TouchPoint.identifier t = Some (scrubTouch t))
      ∧ (∀ i, i ∉ TouchPoint.identifier <$> touches →
              lastTouch' !! i = lastTouch !! i).
Proof.
  induction touches as [|t touches IH]; intros delta lastTouch Hnd Hrec.
  - exists delta, lastTouch. simpl. split_and!; [done|lra| |done].
    intros t Ht. by apply elem_of_nil in Ht.
  - rewrite fmap_cons in Hnd. apply NoDup_cons in Hnd as [Hfresh Hnd].
    destruct (Hrec t) as [last Hlast]; [left|].
    cbn [mergeTouches scrubTouch id y]. rewrite Hlast.
    destruct (IH (delta + (y last - TouchPoint.clientY t))%Q
                (<[TouchPoint.identifier t := scrubTouch t]> lastTouch) Hnd)
      as (delta' & lastTouch' & Hrun & Hdelta & Hsaved & Hother).
    { intros t' Ht'. apply lookup_insert_is_Some'. right.
      apply Hrec. by right. }
    exists delta', lastTouch'. split_and!.
    + exact Hrun.
    + rewrite Hdelta, fmap_cons, sumQ_cons.
      replace (touchChange _ <$> touches)
        with (touchChange lastTouch <$> touches).
      * unfold touchChange at 2. rewrite Hlast. lra.
      * apply list_fmap_ext. intros _ t' Ht'%list_elem_of_lookup_2.
        symmetry. apply touchChange_insert_ne. intros Heq.
        apply Hfresh. rewrite <- Heq. by apply list_elem_of_fmap_2.
    + intros t' [->|Ht']%elem_of_cons; [|by apply Hsaved].
      rewrite Hother by done. apply lookup_insert_eq.
    + intros i [Hne Hi]%not_elem_of_cons.
      rewrite Hother by done. by apply lookup_insert_ne.
Qed.

Lemma onTouch__touchmove e sp delta lastTouch :
  TouchEvent.type e = "touchmove" →
  TouchEvent.defaultPrevented e = false →
  mergeTouches (TouchEvent.changedTouches e) 0 (lastTouch_ sp)
  = Ok (delta, lastTouch) →
  let top := clamp 0 (getScrollMax_ sp)
               (screen_scrollTop sp - delta * -1) in
  onTouch_ e sp
  = Ok (TouchEvent.preventDefault e,
        if Qeq_bool top (screen_scrollTop sp)
        then set_lastTouch_ lastTouch sp
        else set_screen_scrollTop top (set_lastTouch_ lastTouch sp)).
Proof.
  intros Htype Hdef Hmerge top. unfold onTouch_.
  rewrite Hdef, Htype, Hmerge. cbn [String.eqb Ascii.eqb Bool.eqb orb].
  rewrite !Ok_bind. cbv beta iota zeta. subst top.
  change (getScrollMax_ (set_lastTouch_ lastTouch sp))
    with (getScrollMax_ sp).
  change (screen_scrollTop (set_lastTouch_ lastTouch sp))
    with (screen_scrollTop sp).
  by destruct (Qeq_bool _ _).
Qed.

(** C7: a [touchmove] whose touches were all recorded at [touchstart]
    moves the scroll offset by the sum of the changes of the vertical
    coordinate of its touches, sign-inverted, and clamps the result into
    [0, scrollMax]; two touches moving by -10 and -20 pixels raise the
    offset by 30, clamped. *)
Theorem onTouch__sums_touches e sp :
  TouchEvent.type e = "touchmove" →
  TouchEvent.defaultPrevented e = false →
  NoDup (TouchPoint.identifier <$> TouchEvent.changedTouches e) →
  (∀ t, t ∈ TouchEvent.changedTouches e →
        is_Some (lastTouch_ sp !! TouchPoint.identifier t)) →
  let changes := touchChange (lastTouch_ sp) <$> TouchEvent.changedTouches e in
  ∃ sp',
    onTouch_ e sp = Ok (TouchEvent.preventDefault e, sp')
    ∧ (screen_scrollTop sp'
       == clamp 0 (getScrollMax_ sp) (screen_scrollTop sp + - sumQ changes))%Q
    ∧ ((0 <= getScrollMax_ sp)%Q →
       (0 <= screen_scrollTop sp' <= getScrollMax_ sp)%Q)
    ∧ (∀ t, t ∈ TouchEvent.changedTouches e →
            lastTouch_ sp' !! TouchPoint.identifier t = Some (scrubTouch t))
    ∧ (∀ t1 t2, TouchEvent.changedTouches e = [t1; t2] →
                (touchChange (lastTouch_ sp) t1 == -10)%Q →
                (touchChange (lastTouch_ sp) t2 == -20)%Q →
                (screen_scrollTop sp'
                 == clamp 0 (getScrollMax_ sp) (screen_scrollTop sp + 30))%Q).
Proof.
  intros Htype Hdef Hnd Hrec changes.
  destruct (mergeTouches_spec _ 0%Q _ Hnd Hrec)
    as (delta & lastTouch & Hmerge & Hdelta & Hsaved & _).
  fold changes in Hdelta.
  pose proof (onTouch__touchmove e sp delta lastTouch Htype Hdef Hmerge)
    as Hrun. cbv zeta in Hrun.
  set (top := clamp 0 (getScrollMax_ sp)
                (screen_scrollTop sp - delta * -1)) in Hrun.
  set (sp' := if Qeq_bool top (screen_scrollTop sp)
              then set_lastTouch_ lastTouch sp
              else set_screen_scrollTop top (set_lastTouch_ lastTouch sp))
    in Hrun.
  assert (screen_scrollTop sp' == top)%Q as Htop.
  { subst sp'. destruct (Qeq_bool _ _) eqn:Heq; [|done].
    apply Qeq_bool_eq in Heq. by rewrite Heq. }
  assert (lastTouch_ sp' = lastTouch) as Hlast
    by (subst sp'; by destruct (Qeq_bool _ _)).
  assert (top == clamp 0 (getScrollMax_ sp)
                   (screen_scrollTop sp + - sumQ changes))%Q as Hsum.
  { subst top. apply clamp_Qeq. rewrite Hdelta. ring. }
  exists sp'. split_and!.
  - exact Hrun.
  - by rewrite Htop.
  - intros Hmax. rewrite Htop. subst top. by apply clamp_range.
  - intros t Ht. rewrite Hlast. by apply Hsaved.
  - intros t1 t2 Htouches H1 H2. rewrite Htop, Hsum. apply clamp_Qeq.
    subst changes. rewrite Htouches. cbn [fmap list_fmap sumQ foldr].
    rewrite H1, H2. ring.
Qed.

Lemma onTouch__sums_touches_witness :
  TouchEvent.type twoFingerMove = "touchmove"
  ∧ TouchEvent.defaultPrevented twoFingerMove = false
  ∧ (touchChange (lastTouch_ touchExample) (TouchPoint.mk 1 0 90) == -10)%Q
  ∧ (touchChange (lastTouch_ touchExample) (TouchPoint.mk 2 0 180) == -20)%Q
  ∧ ∃ sp', onTouch_ twoFingerMove touchExample
           = Ok (TouchEvent.preventDefault twoFingerMove, sp')
           ∧ (screen_scrollTop sp'
              == clamp 0 (getScrollMax_ touchExample)
                   (screen_scrollTop touchExample + 30))%Q.
Proof.
  assert (TouchEvent.type twoFingerMove = "touchmove") as Htype
    by reflexivity.
  assert (TouchEvent.defaultPrevented twoFingerMove = false) as Hdef
    by reflexivity.
  assert (NoDup (TouchPoint.identifier
                 <$> TouchEvent.changedTouches twoFingerMove)) as Hnd.
  { refine (bool_decide_unpack _ _). vm_compute. exact I. }
  assert (∀ t, t ∈ TouchEvent.changedTouches twoFingerMove →
               is_Some (lastTouch_ touchExample !! TouchPoint.identifier t))
    as Hrec.
  { intros t Ht. apply elem_of_cons in Ht as [->|Ht]; [by eexists|].
    apply elem_of_cons in Ht as [->|Ht]; [by eexists|].
    by apply elem_of_nil in Ht. }
  assert (touchChange (lastTouch_ touchExample) (TouchPoint.mk 1 0 90)
          == -10)%Q as H1 by reflexivity.
  assert (touchChange (lastTouch_ touchExample) (TouchPoint.mk 2 0 180)
          == -20)%Q as H2 by reflexivity.
  destruct (onTouch__sums_touches twoFingerMove touchExample
              Htype Hdef Hnd Hrec) as (sp' & Hrun & _ & _ & _ & Htwo).
  split_and!; [exact Htype|exact Hdef|exact H1|exact H2|].
  exists sp'. split; [exact Hrun|].
  exact (Htwo _ _ eq_refl H1 H2).
Defined.

Lemma twoFingerMove_scrolls_down :
  ∃ sp', onTouch_ twoFingerMove touchExample
         = Ok (TouchEvent.preventDefault twoFingerMove, sp')
         ∧ (screen_scrollTop touchExample == 8000)%Q
         ∧ (screen_scrollTop sp' == 8030)%Q.
Proof. eexists. split; [vm_compute; reflexivity|]. by vm_compute. Qed.

(** ** C5: when [sync] throws *)





(** ** C10: when a copy backfills *)





(** ** The theorems at the example states *)

Lemma exampleProvider_coherent n : providerCoherent (exampleProvider n).
Proof. intros i r. simpl. case_decide; [|done]. by intros [= <-]. Qed.

Lemma emptyCache_coherent : cacheCoherent (Some ∅).
Proof. intros m i r [= <-]. by rewrite lookup_empty. Qed.

Lemma redraw__renders_window_witness :
  NoDup (rowNodes_ evenExample)
  ∧ ∃ sp', redraw_ evenExample = Ok sp'
           ∧ rowIndexOf <$> Dom.betweenFolds (rowNodes_ sp')
             = Some <$> seqZ (getTopRowIndex evenExample)
                          (Z.min (visibleRowCount evenExample)
                             (getRowCount (rowProvider_ evenExample))).
Proof.
  assert (NoDup (rowNodes_ evenExample)) as Hnd.
  { refine (bool_decide_unpack _ _). vm_compute. exact I. }
  split; [exact Hnd|].
  assert (∃ sp', redraw_ evenExample = Ok sp') as [sp' Hrun].
  { eexists. vm_compute. reflexivity. }
  exists sp'. split; [exact Hrun|].
  exact (proj1 (redraw__renders_window evenExample sp' Hnd
                  (exampleProvider_coherent 1000) emptyCache_coherent Hrun)).
Defined.

Lemma evenExample_window :
  ∃ sp', redraw_ evenExample = Ok sp'
         ∧ rowIndexOf <$> Dom.betweenFolds (rowNodes_ sp')
           = Some <$> seqZ 0 25.
Proof. eexists. split; [vm_compute; reflexivity|]. by vm_compute. Qed.

Lemma selection_rows_stay_pinned_witness :
  pinnedSelection row2 row2000 pinnedExample
  ∧ ∃ sp', passes 3 pinnedExample = Ok sp'
           ∧ Dom.beforeTopFold (rowNodes_ sp') = [XRow row2]
           ∧ Dom.afterBottomFold (rowNodes_ sp') = [XRow row2000].
Proof.
  split; [exact pinnedExample_pinned|].
  destruct (selection_rows_stay_pinned row2 row2000 pinnedExample 2
              pinnedExample_pinned)
    as (sp' & Hrun & Hbefore & Hafter & _).
  exists sp'. split_and!; [exact Hrun|exact Hbefore|exact Hafter].
Defined.


Lemma tallExample_geometry :
  visibleRowCount (syncRowNodesDimensions_ tallExample) = 25%Z
  ∧ (visibleRowBottomMargin (syncRowNodesDimensions_ tallExample) == 9)%Q.
Proof. split; by vm_compute. Qed.


(** ** C4: a missing row during a redraw *)

(** C4, on the code: with a row provider that has no node for row 1,
    the window fill of [redraw_] throws a [TypeError] ([fetchRowNode_]
    hands the missing node to [cacheRowNode_], which reads its
    [rowIndex], before [drawVisibleRows_] can test it), while the same
    fill from [invalidate], which runs without a current cache, logs the
    index and leaves the window of row 0 between the folds. *)
Theorem redraw__throws_on_missing_row :
  getRowNode (rowProvider_ gappyExample) 1 = None
  ∧ redraw_ gappyExample = Throw TypeError
  ∧ drawVisibleRows_ 0 24
      (set_currentRowNodeCache_ (Some ∅) gappyExample) = Throw TypeError
  ∧ match invalidate gappyExample with
    | Ok sp' =>
        rowNodes_ sp' = [TopFold; XRow (mkRow 0 0); BottomFold]
        ∧ console sp' = ["Couldn't fetch row index: 1"]
    | _ => False
    end.
Proof.
  split_and!; [reflexivity|by vm_compute|by vm_compute|].
  vm_compute. split; reflexivity.
Qed.

(** * Further properties of the code *)

(** ** The selection proxy *)

Lemma DomNode_nested_ind (P : DomNode → Prop) :
  (∀ s p kids, Forall P kids → P (mkDomNode s p kids)) → ∀ d, P d.
Proof.
  intros step. fix IH 1. intros [s p kids]. apply step.
  induction kids as [|k kids IHkids]; constructor; [apply IH|exact IHkids].
Qed.

(** X1: [findFirstChild] answers the first node of [childAry] among the
    descendants of [parent] in document order, and nothing when none of
    them is in [childAry]. *)
Theorem findFirstChild_first_in_document_order parent childAry :
  SelectionProxy.findFirstChild parent childAry
  = head (filter (λ n, n ∈ childAry) (descendants parent)).
Proof.
  induction parent as [s p kids IH] using DomNode_nested_ind. simpl.
  induction IH as [|n rest Hn _ IHrest]; [done|].
  destruct (decide (self n ∈ childAry)) as [Hin|Hin].
  - by rewrite filter_cons_True.
  - rewrite filter_cons_False by done. rewrite Hn, filter_app.
    destruct (filter _ (descendants n)) as [|x l]; simpl; [|done].
    exact IHrest.
Qed.

Lemma sync_ordered d a old sel s e :
  SelectionProxy.sync d a old = Ok sel →
  startRow sel = Some s → endRow sel = Some e →
  (rowIndex s ≤ rowIndex e)%Z.
Proof.
  unfold SelectionProxy.sync. intros H.
  repeat (first
    [ match type of H with
      | Ok _ = Ok _ => apply Ok_inj in H; subst sel
      | Throw _ = Ok _ => discriminate H
      end
    | match type of H with
      | context [if (?x <? ?y)%Z then _ else _] =>
          destruct (Z.ltb_spec x y)
      | context [if (?x >? ?y)%Z then _ else _] =>
          rewrite (Z.gtb_ltb x y) in H
      | context [match ?x with _ => _ end] => destruct x eqn:?
      end ]);
  simpl; intros; simplify_eq; lia.
Qed.

Lemma sync_both_or_none d a old sel :
  SelectionProxy.sync d a old = Ok sel →
  (startRow sel = None ↔ endRow sel = None)
  ∧ (startRow sel = None → isMultiline sel = None).
Proof.
  unfold SelectionProxy.sync. intros H.
  repeat (first
    [ match type of H with
      | Ok _ = Ok _ => apply Ok_inj in H; subst sel
      | Throw _ = Ok _ => discriminate H
      end
    | match type of H with
      | context [match ?x with _ => _ end] => destruct x eqn:?
      end ]);
  simpl; done.
Qed.

(** X2: a completed [sync] sets the start row and the end row together
    or not at all; when it sets them, the index of the start row is at
    most that of the end row and [isMultiline] says whether the two
    indices differ; when it does not, [isMultiline] is left null. *)
Theorem sync_orders_rows d a old sel :
  SelectionProxy.sync d a old = Ok sel →
  (startRow sel = None ↔ endRow sel = None)
  ∧ (startRow sel = None → isMultiline sel = None)
  ∧ ∀ s e, startRow sel = Some s → endRow sel = Some e →
           (rowIndex s ≤ rowIndex e)%Z
           ∧ isMultiline sel = Some (negb (rowIndex s =? rowIndex e)%Z).
Proof.
  intros H. destruct (sync_both_or_none _ _ _ _ H) as [Hboth Hnone].
  split_and!; [done|done|]. intros s e Hs He. split.
  - by eapply sync_ordered.
  - by eapply sync_multiline.
Qed.

Lemma sync_orders_rows_witness :
  ∃ sel, SelectionProxy.sync (selectRows row2000 row2) false newSelection
         = Ok sel
         ∧ startRow sel = Some row2 ∧ endRow sel = Some row2000
         ∧ (rowIndex row2 ≤ rowIndex row2000)%Z
         ∧ isMultiline sel = Some true.
Proof.
  assert (∃ sel, SelectionProxy.sync (selectRows row2000 row2) false
                   newSelection = Ok sel
                 ∧ startRow sel = Some row2 ∧ endRow sel = Some row2000)
    as (sel & Hsync & Hs & He).
  { eexists. split; [vm_compute; reflexivity|]. split; reflexivity. }
  exists sel.
  destruct (sync_orders_rows _ _ _ _ Hsync) as (_ & _ & Hrows).
  destruct (Hrows row2 row2000 Hs He) as [Hle Hmulti].
  split_and!; [exact Hsync|exact Hs|exact He|exact Hle|exact Hmulti].
Defined.

(** ** The row node cache *)

Lemma fetchRowNode__cached i sp prev r :
  previousRowNodeCache_ sp = Some prev → prev !! i = Some r →
  currentRowNodeCache_ sp = None →
  fetchRowNode_ i sp = Ok (Some r, sp).
Proof.
  intros Hprev Hr Hcur. unfold fetchRowNode_. rewrite Hprev, Hcur. simpl.
  by rewrite Hr.
Qed.

(** X3: a row fetched during a redraw is filed in the cache of the pass
    under its own [rowIndex]; once the caches are rotated as at the end
    of [redraw_], fetching that index answers the same node whatever the
    row provider now offers, and leaves the state alone. *)
Theorem fetchRowNode__serves_from_cache i sp r sp1 provider :
  is_Some (currentRowNodeCache_ sp) →
  fetchRowNode_ i sp = Ok (Some r, sp1) →
  rowIndex r = i →
  let next := set_rowProvider_ provider (rotateCaches sp1) in
  (∃ cache, previousRowNodeCache_ next = Some cache ∧ cache !! i = Some r)
  ∧ fetchRowNode_ i next = Ok (Some r, next).
Proof.
  intros [cur Hcur] Hfetch Hidx next.
  apply fetchRowNode__inv in Hfetch
    as [[Hnone _]|(cur' & r' & Hcur' & Hr & ->)]; [congruence|].
  injection Hr as <-. rewrite Hcur in Hcur'. injection Hcur' as <-.
  assert (previousRowNodeCache_ next = Some (<[rowIndex r := r]> cur))
    as Hprev by done.
  assert ((<[rowIndex r := r]> cur) !! i = Some r) as Hlook
    by (rewrite <- Hidx; apply lookup_insert_eq).
  split; [by eexists|].
  by apply (fetchRowNode__cached i next _ r Hprev Hlook).
Qed.

(** ** Changing the row provider *)

(** X4: [setRowProvider] drops every cached row and arms a redraw: from
    then on a fetch answers what the new provider answers, outside a
    redraw and in the empty cache a redraw starts with, and never a row
    of the old provider. *)
Theorem setRowProvider_drops_cached_rows provider sp i :
  let sp' := setRowProvider provider sp in
  rowProvider_ sp' = provider
  ∧ is_Some (timeouts_ sp' !! "redraw")
  ∧ fetchRowNode_ i sp' = Ok (getRowNode provider i, sp')
  ∧ ∀ r, getRowNode provider i = Some r →
         fetchRowNode_ i (set_currentRowNodeCache_ (Some ∅) sp')
         = Ok (Some r,
               set_currentRowNodeCache_ (Some {[rowIndex r := r]}) sp').
Proof.
  intros sp'. subst sp'. unfold setRowProvider. cbv zeta.
  set (sp1 := set_rowProvider_ provider (resetCache sp)).
  assert (rowProvider_ (scheduleRedraw sp1) = provider
          ∧ previousRowNodeCache_ (scheduleRedraw sp1) = Some ∅
          ∧ currentRowNodeCache_ (scheduleRedraw sp1) = None)
    as (Hprov & Hprev & Hcur).
  { unfold scheduleRedraw. by destruct (timeouts_ sp1 !! "redraw"). }
  destruct (scheduleRedraw_fields sp1) as (_ & _ & _ & Harmed).
  split_and!; [done|done| |].
  - unfold fetchRowNode_. rewrite Hprev, Hcur, Hprov. simpl.
    rewrite lookup_empty. by destruct (getRowNode provider i).
  - intros r Hr. unfold fetchRowNode_.
    change (previousRowNodeCache_
              (set_currentRowNodeCache_ (Some ∅) (scheduleRedraw sp1)))
      with (previousRowNodeCache_ (scheduleRedraw sp1)).
    change (rowProvider_
              (set_currentRowNodeCache_ (Some ∅) (scheduleRedraw sp1)))
      with (rowProvider_ (scheduleRedraw sp1)).
    rewrite Hprev, Hprov. simpl. rewrite lookup_empty, Hr. simpl.
    by rewrite insert_empty.
Qed.

Lemma fetchRowNode__serves_from_cache_witness :
  ∃ sp1,
    is_Some (currentRowNodeCache_
               (set_currentRowNodeCache_ (Some ∅) evenExample))
    ∧ fetchRowNode_ 7 (set_currentRowNodeCache_ (Some ∅) evenExample)
      = Ok (Some (mkRow 7 7), sp1)
    ∧ fetchRowNode_ 7 (set_rowProvider_ (exampleProvider 0) (rotateCaches sp1))
      = Ok (Some (mkRow 7 7),
            set_rowProvider_ (exampleProvider 0) (rotateCaches sp1)).
Proof.
  assert (is_Some (currentRowNodeCache_
                     (set_currentRowNodeCache_ (Some ∅) evenExample)))
    as Hcur by (by eexists).
  assert (∃ sp1, fetchRowNode_ 7
                   (set_currentRowNodeCache_ (Some ∅) evenExample)
                 = Ok (Some (mkRow 7 7), sp1)) as [sp1 Hfetch].
  { eexists. vm_compute. reflexivity. }
  exists sp1. split_and!; [exact Hcur|exact Hfetch|].
  exact (proj2 (fetchRowNode__serves_from_cache 7 _ (mkRow 7 7) sp1
                  (exampleProvider 0) Hcur Hfetch eq_refl)).
Defined.

(** ** Removing up to a target *)

Lemma removeUntilNode_skips fuel A junk rest target :
  NoDup (A ++ junk ++ rest) → BottomFold ∉ junk → target ∉ junk →
  removeUntilNode (length junk + fuel) (A ++ junk ++ rest)
    (head (junk ++ rest)) target
  = removeUntilNode fuel (A ++ rest) (head rest) target.
Proof.
  induction junk as [|x junk IH]; intros Hnd Hbf Ht; [done|].
  apply not_elem_of_cons in Hbf as [Hxb Hbf].
  apply not_elem_of_cons in Ht as [Hxt Ht].
  cbn -[removeUntilNode]. simpl.
  rewrite decide_False by congruence. rewrite decide_False by congruence.
  rewrite nextSibling_middle
    by (eapply NoDup_app_notin; [exact Hnd|left]).
  rewrite removeChild_middle by done. rewrite Ok_bind. apply IH; [|done..].
  apply NoDup_app in Hnd as (HA & Hd & Hr). apply NoDup_cons in Hr as [_ Hr].
  apply NoDup_app. split_and!; [done| |done].
  intros y Hy Hin. apply (Hd y Hy). by right.
Qed.

(** X5: what [removeUntilNode] of [drawVisibleRows_] does from the node
    at the head of [rest], on children without repeats: where the target
    comes before the bottom fold it removes the nodes up to the target
    and nothing else; where the bottom fold comes first it throws
    'Encountered bottom fold before target node' and where neither
    follows it throws 'Did not encounter target node'. *)
Theorem removeUntilNode_cases A rest target :
  NoDup (A ++ rest) →
  let run := removeUntilNode (S (length (A ++ rest))) (A ++ rest)
               (head rest) target in
  (∀ junk suf, rest = junk ++ target :: suf →
               BottomFold ∉ junk → target ∉ junk →
               run = Ok (A ++ target :: suf))
  ∧ (∀ junk suf, rest = junk ++ BottomFold :: suf →
                 target ∉ junk → target ≠ BottomFold → BottomFold ∉ junk →
                 run = Throw "Encountered bottom fold before target node")
  ∧ (target ∉ rest → BottomFold ∉ rest →
     run = Throw "Did not encounter target node").
Proof.
  intros Hnd run. subst run.
  assert (∀ junk more, rest = junk ++ more →
            ∃ fuel, S (length (A ++ rest)) = (length junk + S fuel)%nat)
    as Hfuel.
  { intros junk more ->. exists (length A + length more)%nat.
    rewrite !length_app. lia. }
  split_and!.
  - intros junk suf Hrest Hbf Ht.
    destruct (Hfuel _ _ Hrest) as [fuel ->]. subst rest.
    rewrite removeUntilNode_skips by done. simpl. by rewrite decide_True.
  - intros junk suf Hrest Ht Hne Hbf.
    destruct (Hfuel _ _ Hrest) as [fuel ->]. subst rest.
    rewrite removeUntilNode_skips by done. simpl.
    by rewrite decide_False by congruence.
  - intros Ht Hbf. destruct (Hfuel rest [] (eq_sym (app_nil_r rest)))
      as [fuel ->].
    pose proof (removeUntilNode_skips (S fuel) A rest [] target) as Hskip.
    rewrite !app_nil_r in Hskip. rewrite Hskip by done. done.
Qed.

Lemma removeUntilNode_cases_witness :
  NoDup ([TopFold] ++ [XRow row2; BottomFold; XRow row2000])
  ∧ removeUntilNode 5 ([TopFold] ++ [XRow row2; BottomFold; XRow row2000])
      (Some (XRow row2)) (XRow row2000)
    = Throw "Encountered bottom fold before target node".
Proof.
  assert (NoDup ([TopFold] ++ [XRow row2; BottomFold; XRow row2000]))
    as Hnd.
  { refine (bool_decide_unpack _ _). vm_compute. exact I. }
  split; [exact Hnd|].
  destruct (removeUntilNode_cases [TopFold]
              [XRow row2; BottomFold; XRow row2000] (XRow row2000) Hnd)
    as (_ & Hfold & _).
  apply (Hfold [XRow row2] [XRow row2000] eq_refl).
  - intros Hin. apply list_elem_of_singleton in Hin. discriminate Hin.
  - discriminate.
  - intros Hin. apply list_elem_of_singleton in Hin. discriminate Hin.
Defined.

(** ** Invalidating the window *)

Lemma removeVisible_run fuel A junk suf :
  NoDup (A ++ junk ++ BottomFold :: suf) → BottomFold ∉ junk →
  removeVisible (length junk + fuel) (A ++ junk ++ BottomFold :: suf)
    (head (junk ++ BottomFold :: suf))
  = Ok (A ++ BottomFold :: suf).
Proof.
  induction junk as [|x junk IH]; intros Hnd Hbf.
  - by destruct fuel.
  - apply not_elem_of_cons in Hbf as [Hxb Hbf].
    cbn -[removeVisible]. simpl. rewrite decide_False by congruence.
    rewrite nextSibling_middle
      by (eapply NoDup_app_notin; [exact Hnd|left]).
    rewrite removeChild_middle by done. rewrite Ok_bind. apply IH; [|done].
    apply NoDup_app in Hnd as (HA & Hd & Hr).
    apply NoDup_cons in Hr as [_ Hr].
    apply NoDup_app. split_and!; [done| |done].
    intros y Hy Hin. apply (Hd y Hy). by right.
Qed.

Lemma insertNewRow_at_bottomFold index sp :
  BottomFold ∈ rowNodes_ sp → currentRowNodeCache_ sp = None →
  ∃ step, insertNewRow index (Some BottomFold) sp = Ok step
          ∧ BottomFold ∈ rowNodes_ (stateOf step)
          ∧ currentRowNodeCache_ (stateOf step) = None
          ∧ match step with
            | Continue node _ | Break node _ => node = Some BottomFold
            end.
Proof.
  intros Hbf Hcur. unfold insertNewRow, fetchRowNode_. rewrite Hcur.
  rewrite Ok_bind. cbv beta iota zeta.
  destruct (match previousRowNodeCache_ sp ≫= _ with
            | Some r => Some r | None => _ end) as [r|].
  - unfold Dom.insertBefore. rewrite decide_True by done.
    rewrite decide_False by done. rewrite Ok_bind. eexists.
    split; [reflexivity|]. simpl. split_and!; [|done|done].
    apply elem_of_insertAt.
    + by apply elem_of_detach.
    + right. by apply elem_of_detach.
  - eexists. split; [reflexivity|]. simpl. done.
Qed.

Lemma drawRows_at_bottomFold count :
  ∀ index sp,
    BottomFold ∈ rowNodes_ sp → currentRowNodeCache_ sp = None →
    ∃ sp', drawRows count index (Some BottomFold) sp
           = Ok (Some BottomFold, sp').
Proof.
  induction count as [|count IH]; intros index sp Hbf Hcur.
  - by eexists.
  - cbn [drawRows]. unfold drawRow. rewrite decide_True by done.
    destruct (insertNewRow_at_bottomFold index sp Hbf Hcur)
      as (step & -> & Hbf' & Hcur' & Hnode).
    rewrite Ok_bind. destruct step as [node sp1|node sp1]; subst node.
    + by apply IH.
    + by eexists.
Qed.

(** X6: on children without repeats that hold the top fold before the
    bottom fold, and outside a redraw, [invalidate] always completes: it
    leaves between the folds the rows [top], [top + 1], ... up to the
    first one the row provider has no node for (or all
    [min(visibleRowCount, rowCount)] of them). *)
Theorem invalidate_refills_window sp pre mid suf :
  NoDup (rowNodes_ sp) →
  rowNodes_ sp = pre ++ TopFold :: mid ++ BottomFold :: suf →
  BottomFold ∉ mid →
  providerCoherent (rowProvider_ sp) →
  currentRowNodeCache_ sp = None →
  let top := getTopRowIndex sp in
  let count :=
    Z.to_nat (Z.min (visibleRowCount sp) (getRowCount (rowProvider_ sp))) in
  ∃ sp' k,
    invalidate sp = Ok sp'
    ∧ (k ≤ count)%nat
    ∧ rowIndexOf <$> Dom.betweenFolds (rowNodes_ sp')
      = Some <$> seqZ top (Z.of_nat k)
    ∧ ((k < count)%nat →
       getRowNode (rowProvider_ sp) (top + Z.of_nat k) = None)
    ∧ NoDup (rowNodes_ sp').
Proof.
  intros Hnd Hkids Hmid Hp Hcur top count.
  assert (TopFold ∉ pre) as Hpre
    by (eapply NoDup_app_notin; [by rewrite <- Hkids|left]).
  set (kids1 := pre ++ TopFold :: BottomFold :: suf).
  assert (removeVisible (S (length (rowNodes_ sp))) (rowNodes_ sp)
            (Dom.nextSibling (rowNodes_ sp) TopFold) = Ok kids1) as Hclear.
  { rewrite Hkids, nextSibling_middle by done.
    replace (S (length (pre ++ TopFold :: mid ++ BottomFold :: suf)))
      with (length mid + (2 + length pre + length suf + 1))%nat
      by (rewrite !length_app; simpl; rewrite !length_app; simpl; lia).
    replace (pre ++ TopFold :: mid ++ BottomFold :: suf)
      with ((pre ++ [TopFold]) ++ mid ++ BottomFold :: suf) by reassoc.
    rewrite removeVisible_run; [subst kids1; f_equal; reassoc| |done].
    rewrite <- app_assoc. simpl. by rewrite <- Hkids. }
  assert (NoDup kids1) as Hnd1.
  { rewrite Hkids in Hnd. eapply sublist_NoDup; [exact Hnd|].
    subst kids1. apply sublist_app; [done|]. apply sublist_skip.
    by apply sublist_inserts_l. }
  set (sp1 := set_previousRowNodeCache_ None (set_rowNodes_ kids1 sp)).
  assert (invalidate sp = drawVisibleRows_ top (getBottomRowIndex sp top) sp1)
    as Hinv.
  { unfold invalidate. rewrite Hclear, Ok_bind. reflexivity. }
  assert (∃ sp', drawVisibleRows_ top (getBottomRowIndex sp top) sp1 = Ok sp')
    as [sp' Hfill].
  { unfold drawVisibleRows_. cbv zeta.
    change (rowNodes_ sp1) with kids1. unfold kids1 at 1.
    rewrite nextSibling_middle by done. cbn [head].
    destruct (drawRows_at_bottomFold
                (Z.to_nat (Z.min (visibleRowCount sp1)
                             (getRowCount (rowProvider_ sp1))))
                top sp1) as [sp2 ->]; [|done|].
    - change (rowNodes_ sp1) with kids1. subst kids1. set_solver.
    - rewrite Ok_bind. cbv beta iota. rewrite decide_True by done.
      by eexists. }
  pose proof Hfill as Hspec.
  eapply (drawVisibleRows__spec _ _ _ _ pre (BottomFold :: suf)) in Hspec
      as (_ & Hnd' & k & pre' & placed & suf' & Hkids' & Hpl & Hk & _ & _
          & _ & Hmiss); [|done|done|done|done].
  exists sp', k. rewrite Hinv. split_and!; [done|exact Hk| |exact Hmiss|done].
  rewrite Hkids'. rewrite Hkids' in Hnd'.
  erewrite betweenFolds_window; [done| |done].
  eapply NoDup_app_notin; [done|left].
Qed.

Lemma invalidate_refills_window_witness :
  NoDup (rowNodes_ gappyExample)
  ∧ currentRowNodeCache_ gappyExample = None
  ∧ ∃ sp' k,
      invalidate gappyExample = Ok sp'
      ∧ rowIndexOf <$> Dom.betweenFolds (rowNodes_ sp')
        = Some <$> seqZ (getTopRowIndex gappyExample) (Z.of_nat k).
Proof.
  assert (NoDup (rowNodes_ gappyExample)) as Hnd.
  { refine (bool_decide_unpack _ _). vm_compute. exact I. }
  assert (providerCoherent (rowProvider_ gappyExample)) as Hp.
  { intros i r. simpl. case_decide; [done|]. case_decide; [|done].
    by intros [= <-]. }
  split_and!; [exact Hnd|reflexivity|].
  destruct (invalidate_refills_window gappyExample [] [] [] Hnd eq_refl
              (not_elem_of_nil _) Hp eq_refl)
    as (sp' & k & Hrun & _ & Hwindow & _).
  exists sp', k. split; [exact Hrun|exact Hwindow].
Defined.

(** ** What a redraw pass keeps *)

(** X7: a completed [redraw_] keeps what it relies on: the children of
    [rowNodes_] still hold no node twice and hold the top fold before the
    bottom fold, the cache handed to the next pass files every row under
    its own index, no cache of a running pass is left behind, and the row
    provider, the scroll offset, the pending timers and the scheduler's
    handles are untouched. *)
Theorem redraw__keeps_invariants sp sp' :
  NoDup (rowNodes_ sp) →
  providerCoherent (rowProvider_ sp) →
  cacheCoherent (previousRowNodeCache_ sp) →
  redraw_ sp = Ok sp' →
  NoDup (rowNodes_ sp')
  ∧ (∃ pre mid suf, rowNodes_ sp' = pre ++ TopFold :: mid ++ BottomFold :: suf)
  ∧ providerCoherent (rowProvider_ sp')
  ∧ cacheCoherent (previousRowNodeCache_ sp')
  ∧ currentRowNodeCache_ sp' = None
  ∧ rowProvider_ sp' = rowProvider_ sp
  ∧ screen_scrollTop sp' = screen_scrollTop sp
  ∧ timerQueue sp' = timerQueue sp
  ∧ timeouts_ sp' = timeouts_ sp.
Proof.
  intros Hnd Hp Hc Hrun.
  destruct (redraw__window _ _ Hnd Hp Hc Hrun)
    as (pre & placed & suf & Hkids & Hnd' & _).
  pose proof (redraw__sched _ _ Hrun) as Hsched. unfold sched in Hsched.
  injection Hsched as Hqueue Htimeouts _.
  apply redraw__stages in Hrun
    as (sel & kids1 & kids2 & sp3 & _ & Hstages).
  cbv zeta in Hstages. destruct Hstages as (_ & _ & Hfill & Hsp').
  pose proof (drawVisibleRows__fills _ _ _ _ Hfill) as Hfills.
  assert (env sp' = env sp) as Henv.
  { rewrite Hsp', env_afterFill, (env_fills _ _ Hfills), env_set_rowNodes_.
    apply env_beforeFolds. }
  unfold env in Henv. injection Henv as Hprov _ Hscroll _ _ _ _.
  destruct (afterFill_fields (getTopRowIndex sp)
              (getBottomRowIndex sp (getTopRowIndex sp)) sp3)
    as (_ & Hprev & Hcur & _).
  rewrite <- Hsp' in Hprev, Hcur.
  destruct (beforeFolds_fields sel sp) as (_ & _ & Hcur0 & _ & _).
  destruct (set_rowNodes__fields kids2 (beforeFolds sel sp))
    as (_ & _ & Hcur0' & _ & _).
  assert (cacheCoherent (currentRowNodeCache_ sp3)) as Hc3.
  { eapply drawVisibleRows__keeps; [exact Hfill|].
    rewrite Hcur0', Hcur0. apply emptyCache_coherent. }
  split_and!; [done|by exists pre, placed, suf|by rewrite Hprov
              |by rewrite Hprev|done|done|done|done|done].
Qed.

Lemma redraw__keeps_invariants_witness :
  NoDup (rowNodes_ evenExample)
  ∧ ∃ sp', redraw_ evenExample = Ok sp'
           ∧ NoDup (rowNodes_ sp')
           ∧ cacheCoherent (previousRowNodeCache_ sp')
           ∧ currentRowNodeCache_ sp' = None.
Proof.
  assert (NoDup (rowNodes_ evenExample)) as Hnd.
  { refine (bool_decide_unpack _ _). vm_compute. exact I. }
  split; [exact Hnd|].
  assert (∃ sp', redraw_ evenExample = Ok sp') as [sp' Hrun].
  { eexists. vm_compute. reflexivity. }
  exists sp'.
  destruct (redraw__keeps_invariants evenExample sp' Hnd
              (exampleProvider_coherent 1000) emptyCache_coherent Hrun)
    as (Hnd' & _ & _ & Hc & Hcur & _).
  split_and!; [exact Hrun|exact Hnd'|exact Hc|exact Hcur].
Defined.

(** ** Scrolling a row to the bottom *)




(** ** The wheel handler *)



Lemma threeLines_scroll_down :
  (screen_scrollTop touchExample == 8000)%Q
  ∧ (screen_scrollTop (onScrollWheel_ threeLines touchExample).2 == 8048)%Q
  ∧ WheelEvent.defaultPrevented (onScrollWheel_ threeLines touchExample).1
    = true.
Proof. split_and!; by vm_compute. Qed.

(** ** Touches that start and end *)

Lemma dropTouches_lookup touches :
  ∀ lastTouch i,
    dropTouches touches lastTouch !! i
    = if decide (i ∈ TouchPoint.identifier <$> touches) then None
      else lastTouch !! i.
Proof.
  induction touches as [|t touches IH]; intros lastTouch i.
  - cbn [dropTouches]. rewrite fmap_nil.
    destruct (decide _) as [Hin|]; [by apply elem_of_nil in Hin|done].
  - cbn [dropTouches]. rewrite IH, fmap_cons.
    destruct (decide (i ∈ TouchPoint.identifier <$> touches)) as [Hin|Hin].
    + rewrite decide_True by (by right). done.
    + destruct (decide (i = TouchPoint.identifier t)) as [->|Hne].
      * rewrite decide_True by left. apply lookup_delete_eq.
      * rewrite decide_False by (by intros [?|?]%elem_of_cons).
        by apply lookup_delete_ne.
Qed.

Lemma saveTouches_lookup_ne touches :
  ∀ lastTouch i,
    i ∉ TouchPoint.identifier <$> touches →
    saveTouches touches lastTouch !! i = lastTouch !! i.
Proof.
  induction touches as [|t touches IH]; intros lastTouch i Hi; [done|].
  rewrite fmap_cons in Hi. apply not_elem_of_cons in Hi as [Hne Hi].
  cbn [saveTouches scrubTouch id]. rewrite IH by done.
  by apply lookup_insert_ne.
Qed.

Lemma saveTouches_is_Some touches :
  ∀ lastTouch i,
    i ∈ TouchPoint.identifier <$> touches →
    is_Some (saveTouches touches lastTouch !! i).
Proof.
  induction touches as [|t touches IH]; intros lastTouch i Hi.
  - by apply elem_of_nil in Hi.
  - cbn [saveTouches scrubTouch id].
    destruct (decide (i ∈ TouchPoint.identifier <$> touches)) as [Hin|Hin];
      [by apply IH|].
    rewrite saveTouches_lookup_ne by done.
    rewrite fmap_cons in Hi. apply elem_of_cons in Hi as [->|Hi]; [|done].
    rewrite lookup_insert_eq. by eexists.
Qed.

Lemma onTouch__touchstart touches sp :
  onTouch_ (TouchEvent.mk "touchstart" touches false) sp
  = Ok (TouchEvent.mk "touchstart" touches true,
        set_lastTouch_ (saveTouches touches (lastTouch_ sp)) sp).
Proof. reflexivity. Qed.

Lemma onTouch__touchend type touches sp :
  type = "touchend" ∨ type = "touchcancel" →
  onTouch_ (TouchEvent.mk type touches false) sp
  = Ok (TouchEvent.mk type touches true,
        set_lastTouch_ (dropTouches touches (lastTouch_ sp)) sp).
Proof. by intros [-> | ->]. Qed.

(** X10: the touches recorded by a [touchstart] are forgotten by the
    [touchend] or [touchcancel] that names them: after the two events the
    scroll port remembers no position for any of their identifiers, and
    remembers what it did before for every other one; both events are
    marked as handled and the scroll offset stays where it was. *)
Theorem touchend_forgets_touchstart type touches sp :
  type = "touchend" ∨ type = "touchcancel" →
  ∃ sp1 sp2,
    onTouch_ (TouchEvent.mk "touchstart" touches false) sp
    = Ok (TouchEvent.mk "touchstart" touches true, sp1)
    ∧ (∀ t, t ∈ touches → is_Some (lastTouch_ sp1 !! TouchPoint.identifier t))
    ∧ onTouch_ (TouchEvent.mk type touches false) sp1
      = Ok (TouchEvent.mk type touches true, sp2)
    ∧ (∀ i, lastTouch_ sp2 !! i
            = if decide (i ∈ TouchPoint.identifier <$> touches) then None
              else lastTouch_ sp !! i)
    ∧ screen_scrollTop sp2 = screen_scrollTop sp
    ∧ ((∀ t, t ∈ touches → lastTouch_ sp !! TouchPoint.identifier t = None) →
       sp2 = sp).
Proof.
  intros Htype.
  set (sp1 := set_lastTouch_ (saveTouches touches (lastTouch_ sp)) sp).
  exists sp1, (set_lastTouch_ (dropTouches touches (lastTouch_ sp1)) sp1).
  split; [apply onTouch__touchstart|].
  assert (∀ i, dropTouches touches (lastTouch_ sp1) !! i
               = if decide (i ∈ TouchPoint.identifier <$> touches) then None
                 else lastTouch_ sp !! i) as Hlook.
  { intros i. rewrite dropTouches_lookup. case_decide as Hin; [done|].
    by apply saveTouches_lookup_ne. }
  split_and!.
  - intros t Ht. apply saveTouches_is_Some. by apply list_elem_of_fmap_2.
  - by apply onTouch__touchend.
  - exact Hlook.
  - done.
  - intros Hfresh.
    assert (dropTouches touches (lastTouch_ sp1) = lastTouch_ sp) as ->.
    { apply map_eq. intros i. rewrite Hlook. case_decide as Hin; [|done].
      apply list_elem_of_fmap in Hin as (t & -> & Ht). symmetry.
      by apply Hfresh. }
    subst sp1. by destruct sp.
Qed.

Lemma touchend_forgets_touchstart_witness :
  ∃ sp1,
    onTouch_ (TouchEvent.mk "touchstart" [TouchPoint.mk 7 0 50] false)
      evenExample
    = Ok (TouchEvent.mk "touchstart" [TouchPoint.mk 7 0 50] true, sp1)
    ∧ onTouch_ (TouchEvent.mk "touchend" [TouchPoint.mk 7 0 50] false) sp1
      = Ok (TouchEvent.mk "touchend" [TouchPoint.mk 7 0 50] true,
            evenExample).
Proof.
  destruct (touchend_forgets_touchstart "touchend" [TouchPoint.mk 7 0 50]
              evenExample (or_introl eq_refl))
    as (sp1 & sp2 & Hstart & _ & Hend & _ & _ & Hsame).
  exists sp1. split; [exact Hstart|].
  rewrite <- (Hsame (λ t _, lookup_empty _)). exact Hend.
Defined.

(** ** Where the folds go *)








(** ** What a copy backfills *)

Lemma previousSibling_middle n y A B :
  n ∉ A → y ≠ n →
  Dom.previousSibling (A ++ y :: n :: B) n = Some y.
Proof.
  induction A as [|x A IH]; intros Hn Hy.
  - simpl. rewrite decide_False by done. by rewrite decide_True.
  - apply not_elem_of_cons in Hn as [Hx Hn].
    change ((x :: A) ++ y :: n :: B) with (x :: (A ++ y :: n :: B)).
    cbn [Dom.previousSibling].
    destruct (A ++ y :: n :: B) as [|z l] eqn:Hl.
    { by destruct A. }
    rewrite decide_False by congruence.
    destruct (decide (z = n)) as [->|Hz].
    + destruct A as [|a A]; simplify_eq/=. set_solver.
    + by apply IH.
Qed.

Lemma resetSelectBags__absent sp :
  TopSelectBag ∉ rowNodes_ sp → BottomSelectBag ∉ rowNodes_ sp →
  resetSelectBags_ sp = sp.
Proof.
  intros Ht Hb. unfold resetSelectBags_.
  destruct (decide (TopSelectBag ∈ rowNodes_ sp)); [done|].
  by destruct (decide (BottomSelectBag ∈ rowNodes_ sp)).
Qed.

(** X13: a copy of a selection pinned around the window.  With the start
    row right before the top fold, the end row right after the bottom
    fold, and the rows [f] to [l] between the folds, [onCopy_] asks the
    row provider for the text from the row after the start row up to row
    [f], and from the row after [l] up to the end row, puts the first
    text in the top select bag right after the start row and the second
    in the bottom select bag right before the end row, and moves no other
    child. *)
Theorem onCopy__backfills_around_window sp sel s e f l W :
  rowNodes_ sp = [XRow s; TopFold] ++ W ++ [BottomFold; XRow e] →
  NoDup (rowNodes_ sp) →
  (TopSelectBag ∉ W) → (BottomSelectBag ∉ W) →
  head W = Some (XRow f) → last W = Some (XRow l) →
  SelectionProxy.sync (document_selection sp) (accessibilityEnabled sp)
    (selection sp) = Ok sel →
  truthy (isCollapsed sel) = false →
  startRow sel = Some s → endRow sel = Some e →
  (0 < visibleRowCount sp)%Z →
  (rowIndex s < getTopRowIndex sp)%Z →
  (getBottomRowIndex sp (getTopRowIndex sp) < rowIndex e)%Z →
  ∃ sp',
    onCopy_ false sp = Ok sp'
    ∧ rowNodes_ sp'
      = [XRow s; TopSelectBag; TopFold] ++ W
        ++ [BottomFold; BottomSelectBag; XRow e]
    ∧ rowsTextCalls sp'
      = rowsTextCalls sp
        ++ [(Some (rowIndex s + 1)%Z, Some (rowIndex f));
            (Some (rowIndex l + 1)%Z, Some (rowIndex e))]
    ∧ topSelectBag_text sp'
      = getRowsText (rowProvider_ sp) (Some (rowIndex s + 1)%Z)
          (Some (rowIndex f))
    ∧ bottomSelectBag_text sp'
      = getRowsText (rowProvider_ sp) (Some (rowIndex l + 1)%Z)
          (Some (rowIndex e)).
Proof.
  intros Hkids Hnd HtW HbW Hf Hl Hsync Hcol Hs He Hv Hst Hbot.
  pose proof (eq_refl : getBottomRowIndex sp (getTopRowIndex sp)
                        = (getTopRowIndex sp + visibleRowCount sp - 1)%Z)
    as Hbottom.
  assert (resetSelectBags_ sp = sp) as Hreset.
  { apply resetSelectBags__absent; rewrite Hkids; set_solver. }
  pose proof Hnd as Hnd0. rewrite Hkids in Hnd0.
  (* the two neighbours the handler reads *)
  assert (Dom.nextSibling (rowNodes_ sp) TopFold = Some (XRow f)) as Hnext.
  { rewrite Hkids.
    change ([XRow s; TopFold] ++ W ++ [BottomFold; XRow e])
      with ([XRow s] ++ TopFold :: (W ++ [BottomFold; XRow e])).
    rewrite nextSibling_middle by set_solver.
    destruct W; [done|]. by injection Hf as ->. }
  assert (Dom.nextSibling (rowNodes_ sp) (XRow s) = Some TopFold) as Hnexts.
  { rewrite Hkids. simpl. by rewrite decide_True. }
  set (kids3 := [XRow s; TopSelectBag; TopFold] ++ W ++ [BottomFold; XRow e]).
  assert (Dom.insertBefore (rowNodes_ sp) TopSelectBag (Some TopFold)
          = Ok kids3) as Hins1.
  { rewrite Hkids.
    change ([XRow s; TopFold] ++ W ++ [BottomFold; XRow e])
      with ([XRow s] ++ TopFold :: (W ++ [BottomFold; XRow e])).
    rewrite insertBefore_middle; [|done|done].
    rewrite !detach_notin; [done|set_solver..]. }
  assert (NoDup kids3) as Hnd3.
  { eapply NoDup_insertBefore; [exact Hnd|exact Hins1]. }
  assert (Dom.previousSibling kids3 BottomFold = Some (XRow l)) as Hprev.
  { apply last_Some in Hl as [W2 ->]. subst kids3.
    replace ([XRow s; TopSelectBag; TopFold] ++ (W2 ++ [XRow l])
             ++ [BottomFold; XRow e])
      with (([XRow s; TopSelectBag; TopFold] ++ W2) ++ XRow l :: BottomFold
            :: [XRow e]) in * by reassoc.
    apply previousSibling_middle; [|done].
    eapply NoDup_app_notin; [exact Hnd3|set_solver]. }
  assert (Dom.insertBefore kids3 BottomSelectBag (Some (XRow e))
          = Ok ([XRow s; TopSelectBag; TopFold] ++ W
                ++ [BottomFold; BottomSelectBag; XRow e])) as Hins2.
  { subst kids3.
    replace ([XRow s; TopSelectBag; TopFold] ++ W ++ [BottomFold; XRow e])
      with (([XRow s; TopSelectBag; TopFold] ++ W ++ [BottomFold])
            ++ XRow e :: []) in * by reassoc.
    rewrite insertBefore_middle; [|done|done].
    rewrite !detach_notin; [f_equal; reassoc|set_solver..]. }
  (* the run *)
  unfold onCopy_, syncSelection. cbv zeta. rewrite Hreset, Hsync.
  repeat (rewrite Ok_bind; cbv beta zeta).
  change (selection (set_selection sel sp)) with sel.
  rewrite Hcol, He, Hs.
  change (getTopRowIndex (set_selection sel sp)) with (getTopRowIndex sp).
  change (getBottomRowIndex (set_selection sel sp) (getTopRowIndex sp))
    with (getBottomRowIndex sp (getTopRowIndex sp)).
  change (rowNodes_ (set_selection sel sp)) with (rowNodes_ sp).
  destruct (Z.ltb_spec (rowIndex e - rowIndex s) 2) as [|_]; [lia|].
  destruct (Z.ltb_spec (rowIndex s) (getTopRowIndex sp)) as [_|]; [|lia].
  destruct (Z.ltb_spec (rowIndex e) (getTopRowIndex sp)) as [|_]; [lia|].
  destruct (Z.ltb_spec (getBottomRowIndex sp (getTopRowIndex sp))
              (rowIndex e)) as [_|]; [|lia].
  destruct (Z.ltb_spec (getBottomRowIndex sp (getTopRowIndex sp))
              (rowIndex s)) as [|_]; [lia|].
  rewrite Hnext. repeat (rewrite Ok_bind; cbv beta zeta).
  change (rowNodes_ (set_topSelectBag_text ?a (set_rowsTextCalls ?b
            (set_selection sel sp)))) with (rowNodes_ sp).
  rewrite Hnexts, Hins1. repeat (rewrite Ok_bind; cbv beta zeta).
  change (rowProvider_ (set_rowsTextCalls ?b (set_selection sel sp)))
    with (rowProvider_ sp).
  change (rowsTextCalls (set_selection sel sp)) with (rowsTextCalls sp).
  set (text1 := getRowsText (rowProvider_ sp) (Some (rowIndex s + 1)%Z)
                  (rowIndexOf (XRow f))).
  set (calls1 := rowsTextCalls sp
                 ++ [(Some (rowIndex s + 1)%Z, rowIndexOf (XRow f))]).
  set (sp4 := syncRowNodesDimensions_
                (set_rowNodes_ kids3
                   (set_topSelectBag_text text1
                      (set_rowsTextCalls calls1 (set_selection sel sp))))).
  assert (rowNodes_ sp4 = kids3 ∧ rowsTextCalls sp4 = calls1
          ∧ topSelectBag_text sp4 = text1
          ∧ rowProvider_ sp4 = rowProvider_ sp)
    as (Hkids4 & Hcalls4 & Htext4 & Hprov4) by done.
  clearbody sp4.
  rewrite Hkids4, Hprev. repeat (rewrite Ok_bind; cbv beta zeta).
  change (rowNodes_ (set_bottomSelectBag_text ?a (set_rowsTextCalls ?b sp4)))
    with (rowNodes_ sp4).
  rewrite Hkids4, Hins2. repeat (rewrite Ok_bind; cbv beta zeta).
  change (rowProvider_ (set_rowsTextCalls ?b sp4)) with (rowProvider_ sp4).
  rewrite Hprov4, Hcalls4.
  eexists. split; [reflexivity|].
  cbn [rowNodes_ rowsTextCalls topSelectBag_text bottomSelectBag_text
       set_rowNodes_ set_bottomSelectBag_text set_rowsTextCalls].
  rewrite Htext4. subst calls1 text1. cbn [rowIndexOf fmap option_fmap option_map].
  split_and!; [done|by rewrite <- app_assoc|done|done].
Qed.

Lemma onCopy__backfills_around_window_witness :
  NoDup (rowNodes_ copyExample)
  ∧ (rowIndex row2 < getTopRowIndex copyExample)%Z
  ∧ (getBottomRowIndex copyExample (getTopRowIndex copyExample)
     < rowIndex row2000)%Z
  ∧ ∃ sp',
      onCopy_ false copyExample = Ok sp'
      ∧ rowNodes_ sp'
        = [XRow row2; TopSelectBag; TopFold]
          ++ [XRow (mkRow 500 500); XRow (mkRow 501 501)]
          ++ [BottomFold; BottomSelectBag; XRow row2000]
      ∧ rowsTextCalls sp'
        = rowsTextCalls copyExample
          ++ [(Some (rowIndex row2 + 1)%Z, Some (rowIndex (mkRow 500 500)));
              (Some (rowIndex (mkRow 501 501) + 1)%Z,
               Some (rowIndex row2000))].
Proof.
  assert (NoDup (rowNodes_ copyExample)) as Hnd.
  { refine (bool_decide_unpack _ _). vm_compute. exact I. }
  assert (rowIndex row2 < getTopRowIndex copyExample)%Z as Hst
    by (vm_compute; reflexivity).
  assert (getBottomRowIndex copyExample (getTopRowIndex copyExample)
          < rowIndex row2000)%Z as Hbot by (vm_compute; reflexivity).
  assert (∃ sel,
            SelectionProxy.sync (document_selection copyExample)
              (accessibilityEnabled copyExample) (selection copyExample)
            = Ok sel
            ∧ truthy (isCollapsed sel) = false
            ∧ startRow sel = Some row2 ∧ endRow sel = Some row2000)
    as (sel & Hsync & Hcol & Hs & He).
  { eexists. split; [vm_compute; reflexivity|]. split_and!; reflexivity. }
  split_and!; [exact Hnd|exact Hst|exact Hbot|].
  destruct (onCopy__backfills_around_window copyExample sel row2 row2000
              (mkRow 500 500) (mkRow 501 501)
              [XRow (mkRow 500 500); XRow (mkRow 501 501)])
    as (sp' & Hrun & Hkids & Hcalls & _);
    [reflexivity|exact Hnd| | |reflexivity|reflexivity|exact Hsync|exact Hcol
    |exact Hs|exact He|vm_compute; reflexivity|exact Hst|exact Hbot|].
  - intros Hin. apply elem_of_cons in Hin as [Hin|Hin]; [discriminate Hin|].
    apply list_elem_of_singleton in Hin. discriminate Hin.
  - intros Hin. apply elem_of_cons in Hin as [Hin|Hin]; [discriminate Hin|].
    apply list_elem_of_singleton in Hin. discriminate Hin.
  - exists sp'. split_and!; [exact Hrun|exact Hkids|exact Hcalls].
Defined.

(** ** Scrolling by pages *)

Lemma scrollRowToTop_fields i sp :
  characterSize (scrollRowToTop i sp) = characterSize sp
  ∧ visibleRowCount (scrollRowToTop i sp) = visibleRowCount sp
  ∧ rowNodes_ (scrollRowToTop i sp) = rowNodes_ sp
  ∧ (screen_scrollTop (scrollRowToTop i sp) == scrollTopTarget i sp)%Q.
Proof.
  rewrite scrollRowToTop_unfold. cbv zeta.
  set (sp2 := set_isScrolledEnd _ _).
  set (sp3 := set_screen_scrollTop (scrollTopTarget i sp) sp2).
  assert (characterSize (scheduleRedraw sp3) = characterSize sp
          ∧ visibleRowCount (scheduleRedraw sp3) = visibleRowCount sp
          ∧ rowNodes_ (scheduleRedraw sp3) = rowNodes_ sp
          ∧ screen_scrollTop (scheduleRedraw sp3) = scrollTopTarget i sp)
    as (H1 & H2 & H3 & H4).
  { unfold scheduleRedraw. by destruct (timeouts_ sp3 !! "redraw"). }
  destruct (Qeq_bool (screen_scrollTop sp) (scrollTopTarget i sp)) eqn:Heq.
  - apply Qeq_bool_eq in Heq. by split_and!.
  - rewrite H1, H2, H3, H4. by split_and!.
Qed.

(** Where [scrollRowToTop] lands for a row that can be the top row. *)
Lemma scrollRowToTop_lands i sp :
  geometrySynced sp →
  (i ≤ getRowCount (rowProvider_ sp) - visibleRowCount sp)%Z →
  getTopRowIndex (scrollRowToTop i sp) = i.
Proof.
  intros Hgeo Hi. pose proof (scrollMax_synced _ Hgeo) as Hmax.
  destruct Hgeo as (Htm & _ & Hbm & Hh).
  destruct (scrollRowToTop_fields i sp) as (Hcs & _ & _ & Hoffset).
  pose proof (scrollTopTarget_cases i sp) as Hcases. cbv zeta in Hcases.
  set (h := height (characterSize sp)) in *.
  set (scrollMax := getScrollMax_ (syncScrollHeight sp)) in *.
  rewrite Zle_Qle in Hi.
  assert (inject_Z i * h
          <= inject_Z (getRowCount (rowProvider_ sp) - visibleRowCount sp)
             * h)%Q by (apply Qmult_le_compat_r; lra).
  destruct Hcases as [[Hcmp Ht]|[Hcmp Ht]]; [lra|].
  rewrite Ht in Hoffset.
  apply getTopRowIndex_near; rewrite Hcs; fold h; [done|lra|lra].
Qed.

(** X14: [scrollPageDown] does nothing once the port is scrolled to the
    end and [scrollPageUp] does nothing at row 0.  Otherwise, with the
    geometry in step and no accessibility reader, a page down makes the
    old bottom row the new top row and a page up the old top row the new
    bottom row (a page minus one line), as long as that top row exists
    and leaves a full window below it. *)
Theorem scrollPage_moves_a_page_less_a_line reader sp :
  let i := getTopRowIndex sp in
  let V := visibleRowCount sp in
  let N := getRowCount (rowProvider_ sp) in
  (isScrolledEnd sp = true → scrollPageDown reader sp = Ok (None, sp))
  ∧ (i = 0%Z → scrollPageUp reader sp = Ok (None, sp))
  ∧ (geometrySynced sp → isScrolledEnd sp = false →
     (i + V - 1 ≤ N - V)%Z →
     ∃ sp', scrollPageDown false sp = Ok (None, sp')
            ∧ getTopRowIndex sp' = getBottomRowIndex sp i)
  ∧ (geometrySynced sp → i ≠ 0%Z → (0 ≤ i - V + 1 ≤ N - V)%Z →
     ∃ sp', scrollPageUp false sp = Ok (None, sp')
            ∧ getBottomRowIndex sp' (getTopRowIndex sp') = i).
Proof.
  intros i V N. subst i V N. split_and!.
  - unfold scrollPageDown. by intros ->.
  - unfold scrollPageUp. by intros ->.
  - intros Hgeo Hend Hi. unfold scrollPageDown. rewrite Hend. cbv zeta.
    eexists. split; [reflexivity|].
    rewrite scrollRowToTop_lands by done. unfold getBottomRowIndex. lia.
  - intros Hgeo Htop Hi. unfold scrollPageUp.
    destruct (Z.eqb_spec (getTopRowIndex sp) 0); [done|]. cbv zeta.
    eexists. split; [reflexivity|].
    rewrite scrollRowToTop_lands by (done || lia). unfold getBottomRowIndex.
    destruct (scrollRowToTop_fields
                (getTopRowIndex sp - visibleRowCount sp + 1) sp)
      as (_ & -> & _). lia.
Qed.

Lemma scrollPage_moves_a_page_less_a_line_witness :
  geometrySynced evenExample
  ∧ isScrolledEnd (set_isScrolledEnd false evenExample) = false
  ∧ ∃ sp', scrollPageDown false (set_isScrolledEnd false evenExample)
           = Ok (None, sp')
           ∧ getTopRowIndex sp' = 24%Z.
Proof.
  assert (geometrySynced (set_isScrolledEnd false evenExample)) as Hgeo
    by exact evenExample_synced.
  assert (isScrolledEnd (set_isScrolledEnd false evenExample) = false)
    as Hend by reflexivity.
  split_and!; [exact evenExample_synced|exact Hend|].
  pose proof (scrollPage_moves_a_page_less_a_line false
                (set_isScrolledEnd false evenExample)) as H.
  cbv zeta in H. destruct H as (_ & _ & H & _).
  destruct (H Hgeo Hend) as (sp' & Hrun & Htop).
  { vm_compute. congruence. }
  exists sp'. split; [exact Hrun|]. rewrite Htop. reflexivity.
Defined.

(** ** Announcing the screen *)

Lemma fetchRowNode__idle i sp :
  currentRowNodeCache_ sp = None →
  fetchRowNode_ i sp = Ok (cachedOrProvided sp i, sp).
Proof. intros Hcur. unfold fetchRowNode_. by rewrite Hcur. Qed.

Lemma announceRows_reads indices :
  ∀ sp, currentRowNodeCache_ sp = None →
        (∀ i, i ∈ indices → is_Some (cachedOrProvided sp i)) →
        ∃ rows, announceRows indices sp = Ok (rows, sp)
                ∧ Some <$> rows = cachedOrProvided sp <$> indices.
Proof.
  induction indices as [|i indices IH]; intros sp Hcur Hall.
  - by exists [].
  - destruct (Hall i) as [r Hr]; [left|].
    destruct (IH sp Hcur) as (rows & Hrun & Hrows).
    { intros j Hj. apply Hall. by right. }
    exists (r :: rows). cbn [announceRows].
    rewrite fetchRowNode__idle by done. rewrite Ok_bind. cbv beta iota.
    rewrite Hr, Hrun, Ok_bind. split; [done|].
    rewrite !fmap_cons. by rewrite Hr, Hrows.
Qed.

Lemma announceRows_throws indices :
  ∀ sp i, currentRowNodeCache_ sp = None →
          i ∈ indices → cachedOrProvided sp i = None →
          announceRows indices sp = Throw TypeError.
Proof.
  induction indices as [|j indices IH]; intros sp i Hcur Hin Hnone.
  - by apply elem_of_nil in Hin.
  - cbn [announceRows]. rewrite fetchRowNode__idle by done.
    rewrite Ok_bind. cbv beta iota.
    destruct (cachedOrProvided sp j) as [r|] eqn:Hj; [|done].
    apply elem_of_cons in Hin as [->|Hin]; [congruence|].
    by rewrite (IH sp i Hcur Hin Hnone).
Qed.

(** X15: outside a redraw, [assertiveAnnounce_] does nothing without an
    accessibility reader.  With one, it reads out the rows [topRow] to
    [bottomRow] in order, each taken from the previous cache or else from
    the row provider, with a percentage that is at most 100, and leaves
    the scroll port as it was; when one of these rows is missing it
    throws a [TypeError] instead. *)
Theorem assertiveAnnounce__reads_window sp :
  currentRowNodeCache_ sp = None →
  let top := getTopRowIndex sp in
  let indices := seqZ top (visibleRowCount sp) in
  assertiveAnnounce_ false sp = Ok (None, sp)
  ∧ ((∀ i, i ∈ indices → is_Some (cachedOrProvided sp i)) →
     ∃ ann, assertiveAnnounce_ true sp = Ok (Some ann, sp)
            ∧ Some <$> announcedRows ann = cachedOrProvided sp <$> indices
            ∧ (percentScrolled ann ≤ 100)%Z)
  ∧ (∀ i, i ∈ indices → cachedOrProvided sp i = None →
          assertiveAnnounce_ true sp = Throw TypeError).
Proof.
  intros Hcur top indices.
  assert (seqZ top (getBottomRowIndex sp top - top + 1) = indices) as Hidx.
  { subst indices. unfold getBottomRowIndex. f_equal. lia. }
  split_and!; [done| |].
  - intros Hall. destruct (announceRows_reads indices sp Hcur Hall)
      as (rows & Hrun & Hrows).
    unfold assertiveAnnounce_. cbn [negb]. cbv zeta. fold top.
    rewrite Hidx, Hrun, Ok_bind. eexists. split; [reflexivity|].
    split; [done|]. cbn [percentScrolled]. lia.
  - intros i Hin Hnone. unfold assertiveAnnounce_. cbn [negb]. cbv zeta.
    fold top. rewrite Hidx.
    by rewrite (announceRows_throws indices sp i Hcur Hin Hnone).
Qed.

Lemma assertiveAnnounce__reads_window_witness :
  currentRowNodeCache_ gappyExample = None
  ∧ cachedOrProvided gappyExample 1 = None
  ∧ assertiveAnnounce_ true gappyExample = Throw TypeError.
Proof.
  assert (currentRowNodeCache_ gappyExample = None) as Hcur by reflexivity.
  assert (cachedOrProvided gappyExample 1 = None) as Hnone by reflexivity.
  split_and!; [exact Hcur|exact Hnone|].
  pose proof (assertiveAnnounce__reads_window gappyExample Hcur) as H.
  cbv zeta in H. destruct H as (_ & _ & H).
  apply (H 1%Z); [|exact Hnone].
  apply elem_of_seqZ. vm_compute. split; congruence.
Defined.

(** ** Two schedulers, one timer queue *)

Lemma scheduleInvalidate_armed sp :
  is_Some (timeouts_ sp !! "invalidate") → scheduleInvalidate sp = sp.
Proof. unfold scheduleInvalidate. by intros [handle ->]. Qed.

Lemma scheduleInvalidate_idle sp :
  timeouts_ sp !! "invalidate" = None →
  timeouts_ (scheduleInvalidate sp)
  = <["invalidate" := nextTimerId sp]> (timeouts_ sp)
  ∧ timerQueue (scheduleInvalidate sp)
    = timerQueue sp ++ [(nextTimerId sp, InvalidateTask)]
  ∧ nextTimerId (scheduleInvalidate sp) = Pos.succ (nextTimerId sp).
Proof. unfold scheduleInvalidate. by intros ->. Qed.

Lemma scheduleRedraw_idle_fields sp :
  timeouts_ sp !! "redraw" = None →
  timeouts_ (scheduleRedraw sp) = <["redraw" := nextTimerId sp]> (timeouts_ sp)
  ∧ timerQueue (scheduleRedraw sp)
    = timerQueue sp ++ [(nextTimerId sp, RedrawTask)]
  ∧ nextTimerId (scheduleRedraw sp) = Pos.succ (nextTimerId sp).
Proof. unfold scheduleRedraw. by intros ->. Qed.

Lemma scheduleInvalidate_repeated k sp :
  Nat.iter (S k) scheduleInvalidate sp = scheduleInvalidate sp.
Proof.
  induction k as [|k IH]; [done|].
  change (Nat.iter (S (S k)) scheduleInvalidate sp)
    with (scheduleInvalidate (Nat.iter (S k) scheduleInvalidate sp)).
  rewrite IH. apply scheduleInvalidate_armed.
  destruct (timeouts_ sp !! "invalidate") as [handle|] eqn:Hidle.
  - rewrite scheduleInvalidate_armed by (by rewrite Hidle). by rewrite Hidle.
  - destruct (scheduleInvalidate_idle sp Hidle) as [-> _].
    rewrite lookup_insert_eq. by eexists.
Qed.

(** X16: [scheduleRedraw] and [scheduleInvalidate] coalesce apart from
    each other.  On an idle scroll port, any number of calls of the one
    followed by any number of calls of the other leave exactly one
    redraw callback and one invalidate callback pending, in this order;
    the host runs the redraw pass first, and a completed pass leaves the
    invalidate callback pending as the next one to run. *)
Theorem schedulers_coalesce_apart j k sp :
  timeouts_ sp !! "redraw" = None → timeouts_ sp !! "invalidate" = None →
  timerQueue sp = [] →
  let armed :=
    Nat.iter (S k) scheduleInvalidate (Nat.iter (S j) scheduleRedraw sp) in
  timerQueue armed
  = [(nextTimerId sp, RedrawTask);
     (Pos.succ (nextTimerId sp), InvalidateTask)]
  ∧ timeouts_ armed !! "redraw" = Some (nextTimerId sp)
  ∧ timeouts_ armed !! "invalidate" = Some (Pos.succ (nextTimerId sp))
  ∧ ∃ pass,
      fireTimer armed = Some (RedrawTask, redraw_ pass)
      ∧ ∀ sp', redraw_ pass = Ok sp' →
               timeouts_ sp' !! "redraw" = None
               ∧ is_Some (timeouts_ sp' !! "invalidate")
               ∧ ∃ rest, fireTimer sp' = Some (InvalidateTask, invalidate rest).
Proof.
  intros Hr Hi Hq armed. subst armed.
  rewrite scheduleInvalidate_repeated, scheduleRedraw_repeated.
  destruct (scheduleRedraw_idle_fields sp Hr) as (Ht1 & Hq1 & Hn1).
  set (sp1 := scheduleRedraw sp) in *.
  assert (timeouts_ sp1 !! "invalidate" = None) as Hi1
    by (by rewrite Ht1, lookup_insert_ne).
  destruct (scheduleInvalidate_idle sp1 Hi1) as (Ht2 & Hq2 & Hn2).
  set (sp2 := scheduleInvalidate sp1) in *.
  rewrite Hq in Hq1. simpl in Hq1. rewrite Hq1, Hn1 in Hq2. simpl in Hq2.
  rewrite Ht1, Hn1 in Ht2.
  split_and!; [done| | |].
  - by rewrite Ht2, lookup_insert_ne, lookup_insert_eq.
  - by rewrite Ht2, lookup_insert_eq.
  - unfold fireTimer. rewrite Hq2. cbn [runTask]. eexists.
    split; [reflexivity|]. intros sp' Hpass%redraw__sched.
    unfold sched in Hpass. injection Hpass as Hq' Ht' _.
    cbn [timerQueue timeouts_ set_timeouts_ set_timerQueue] in Hq', Ht'.
    rewrite Ht2 in Ht'. rewrite Hq', Ht'. split_and!.
    + apply lookup_delete_eq.
    + rewrite lookup_delete_ne, lookup_insert_eq by done. by eexists.
    + by eexists.
Qed.

Lemma schedulers_coalesce_apart_witness :
  timeouts_ evenExample !! "redraw" = None
  ∧ timeouts_ evenExample !! "invalidate" = None
  ∧ timerQueue evenExample = []
  ∧ timerQueue (Nat.iter 2 scheduleInvalidate
                  (Nat.iter 3 scheduleRedraw evenExample))
    = [(nextTimerId evenExample, RedrawTask);
       (Pos.succ (nextTimerId evenExample), InvalidateTask)].
Proof.
  assert (timeouts_ evenExample !! "redraw" = None) as Hr by reflexivity.
  assert (timeouts_ evenExample !! "invalidate" = None) as Hi
    by reflexivity.
  assert (timerQueue evenExample = []) as Hq by reflexivity.
  split_and!; [exact Hr|exact Hi|exact Hq|].
  pose proof (schedulers_coalesce_apart 2 1 evenExample Hr Hi Hq) as H.
  cbv zeta in H. exact (proj1 H).
Defined.

(** ** The maximum scroll position *)




(** ** Selecting everything *)

Lemma previousSibling_head n B :
  Dom.previousSibling (n :: B) n = None.
Proof. destruct B; simpl; [done|]. by rewrite decide_True. Qed.

Lemma removeBefore_spec n R :
  ∀ pre fuel,
    NoDup (pre ++ n :: R) → (length pre ≤ fuel)%nat →
    removeBefore fuel (pre ++ n :: R) n = Ok (n :: R).
Proof.
  induction pre as [|p pre IH] using rev_ind; intros fuel Hnd Hfuel.
  - destruct fuel; cbn [removeBefore app]; by rewrite previousSibling_head.
  - rewrite length_app in Hfuel. simpl in Hfuel.
    destruct fuel as [|fuel]; [lia|].
    rewrite <- app_assoc in *. simpl in *.
    assert ((n ∉ pre) ∧ p ≠ n) as [Hn Hp].
    { apply NoDup_app in Hnd as (_ & Hd & Hr).
      apply NoDup_cons in Hr as [Hp _]. split; [|set_solver].
      intros Hin. apply (Hd _ Hin). set_solver. }
    cbn [removeBefore]. rewrite previousSibling_middle by done.
    rewrite removeChild_middle by done. rewrite Ok_bind.
    apply IH; [|lia]. eapply sublist_NoDup; [exact Hnd|].
    apply sublist_app; [done|]. by apply sublist_cons.
Qed.

Lemma removeAfter_spec n A :
  ∀ R fuel,
    NoDup (A ++ n :: R) → (length R ≤ fuel)%nat →
    removeAfter fuel (A ++ n :: R) n = Ok (A ++ [n]).
Proof.
  induction R as [|x R IH]; intros fuel Hnd Hfuel.
  - assert (n ∉ A) by (eapply NoDup_app_notin; [done|left]).
    destruct fuel; cbn [removeAfter]; by rewrite nextSibling_middle.
  - simpl in Hfuel. destruct fuel as [|fuel]; [lia|].
    assert (n ∉ A) by (eapply NoDup_app_notin; [done|left]).
    cbn [removeAfter]. rewrite nextSibling_middle by done. simpl.
    replace (A ++ n :: x :: R) with ((A ++ [n]) ++ x :: R) in * by reassoc.
    rewrite removeChild_middle by done. rewrite Ok_bind.
    replace ((A ++ [n]) ++ R) with (A ++ n :: R) by reassoc.
    apply IH; [|lia]. eapply sublist_NoDup; [exact Hnd|].
    rewrite <- app_assoc. simpl. apply sublist_app; [done|].
    apply sublist_skip. by apply sublist_cons.
Qed.

Lemma cachedOrProvided_env sp sp' :
  selectEnv sp' = selectEnv sp → cachedOrProvided sp' = cachedOrProvided sp.
Proof.
  unfold selectEnv, cachedOrProvided. by intros [= -> -> _ _ _ _].
Qed.

(** The first half of [selectAll] on children that hold the top fold
    with something after it. *)
Lemma selectFirstRow_spec sp pre n R :
  NoDup (rowNodes_ sp) → rowNodes_ sp = pre ++ TopFold :: n :: R →
  currentRowNodeCache_ sp = None →
  selectFirstRow sp = Throw TypeError
  ∨ ∃ r0 sp1,
      selectFirstRow sp = Ok (r0, sp1) ∧ selectEnv sp1 = selectEnv sp
      ∧ ((n = XRow r0 ∧ rowIndex r0 = 0%Z ∧ sp1 = sp)
         ∨ ((rowIndexOf n ≠ Some 0%Z) ∧ cachedOrProvided sp 0 = Some r0
            ∧ rowNodes_ sp1
              = XRow r0 :: TopFold :: Dom.detach (XRow r0) (n :: R))).
Proof.
  intros Hnd Hkids Hcur.
  assert (TopFold ∉ pre) as Hpre
    by (eapply NoDup_app_notin; [by rewrite <- Hkids|left]).
  set (fetched :=
         kids ← removeBefore (S (length (rowNodes_ sp))) (rowNodes_ sp)
                  TopFold;
         '(node, sp1) ← fetchRowNode_ 0 (set_rowNodes_ kids sp);
         match node with
         | None => Throw TypeError
         | Some r =>
             kids ← Dom.insertBefore (rowNodes_ sp1) (XRow r) (Some TopFold);
             Ok (r, syncRowNodesDimensions_ (set_rowNodes_ kids sp1))
         end).
  assert (selectFirstRow sp
          = match n with
            | XRow r => if (rowIndex r =? 0)%Z then Ok (r, sp) else fetched
            | _ => fetched
            end) as ->.
  { unfold selectFirstRow. rewrite Hkids at 1.
    rewrite nextSibling_middle by done. cbn [head]. by rewrite Ok_bind. }
  assert (fetched = Throw TypeError
          ∨ ∃ r0 sp1,
              fetched = Ok (r0, sp1) ∧ selectEnv sp1 = selectEnv sp
              ∧ cachedOrProvided sp 0 = Some r0
              ∧ rowNodes_ sp1
                = XRow r0 :: TopFold :: Dom.detach (XRow r0) (n :: R))
    as Hfetched.
  { subst fetched. rewrite Hkids.
    rewrite removeBefore_spec; [|by rewrite <- Hkids|rewrite length_app; lia].
    rewrite Ok_bind. cbv beta zeta.
    rewrite fetchRowNode__idle by done. rewrite Ok_bind. cbv beta iota.
    change (cachedOrProvided (set_rowNodes_ (TopFold :: n :: R) sp) 0)
      with (cachedOrProvided sp 0).
    destruct (cachedOrProvided sp 0) as [r0|] eqn:Hr0; [|by left].
    right. change (rowNodes_ (set_rowNodes_ (TopFold :: n :: R) sp))
      with (TopFold :: n :: R).
    pose proof (insertBefore_middle (XRow r0) TopFold [] (n :: R)) as Hins.
    cbn [app] in Hins. rewrite Hins; [| |done].
    2:{ rewrite Hkids in Hnd. by apply NoDup_app in Hnd as (_ & _ & ?). }
    rewrite Ok_bind. eexists _, _. split; [reflexivity|].
    split_and!; done. }
  clearbody fetched.
  assert (rowIndexOf n ≠ Some 0%Z →
          fetched = Throw TypeError
          ∨ ∃ r0 sp1,
              fetched = Ok (r0, sp1) ∧ selectEnv sp1 = selectEnv sp
              ∧ ((n = XRow r0 ∧ rowIndex r0 = 0%Z ∧ sp1 = sp)
                 ∨ ((rowIndexOf n ≠ Some 0%Z) ∧ cachedOrProvided sp 0 = Some r0
                    ∧ rowNodes_ sp1
                      = XRow r0 :: TopFold
                        :: Dom.detach (XRow r0) (n :: R)))) as Hother.
  { intros Hn. destruct Hfetched as [->|(r0 & sp1 & -> & ? & ? & ?)];
      [by left|]. right. exists r0, sp1. split_and!; [done|done|].
    by right. }
  destruct n as [| | | |r| |]; try (apply Hother; done).
  destruct (Z.eqb_spec (rowIndex r) 0) as [Hz|Hz].
  - right. exists r, sp. split_and!; [done|done|]. by left.
  - apply Hother. simpl. congruence.
Qed.

Lemma selectEnv_fields sp sp' :
  selectEnv sp' = selectEnv sp →
  rowProvider_ sp' = rowProvider_ sp
  ∧ currentRowNodeCache_ sp' = currentRowNodeCache_ sp
  ∧ document_selection sp' = document_selection sp
  ∧ accessibilityEnabled sp' = accessibilityEnabled sp
  ∧ selection sp' = selection sp.
Proof. unfold selectEnv. by intros [= -> _ -> -> -> ->]. Qed.

(** X18: [selectAll] throws a [TypeError] whenever the row before the
    bottom fold is already the last row, as it is while the port is
    scrolled to the end: on that branch it keeps the row's index, a
    number, where it needs the row node, and reading [childNodes] of it
    fails. *)
Theorem selectAll_throws_at_last_row rowDom sp pre W l suf :
  NoDup (rowNodes_ sp) →
  rowNodes_ sp = pre ++ TopFold :: W ++ XRow l :: BottomFold :: suf →
  rowIndex l = (getRowCount (rowProvider_ sp) - 1)%Z →
  currentRowNodeCache_ sp = None →
  cachedOrProvided sp 0 ≠ Some l →
  selectAll rowDom sp = Throw TypeError.
Proof.
  intros Hnd Hkids Hl Hcur Hfirst.
  assert (∃ n R, W ++ XRow l :: BottomFold :: suf = n :: R) as (n & R & HnR).
  { destruct W as [|w W]; by eexists _, _. }
  pose proof Hkids as Hkids'. rewrite HnR in Hkids'.
  unfold selectAll.
  destruct (selectFirstRow_spec sp pre n R Hnd Hkids' Hcur)
    as [->|(r0 & sp1 & -> & Henv & Hcases)]; [done|].
  rewrite Ok_bind. cbv beta iota.
  destruct (selectEnv_fields _ _ Henv) as (Hprov & _ & _ & _ & _).
  assert (Dom.previousSibling (rowNodes_ sp1) BottomFold = Some (XRow l))
    as Hprev.
  { assert (BottomFold ∉ pre ++ TopFold :: W) as Hbf.
    { eapply (NoDup_app_notin _ (XRow l :: BottomFold :: suf));
        [|set_solver].
      rewrite Hkids in Hnd. by rewrite <- app_assoc. }
    destruct Hcases as [(_ & _ & ->)|(_ & Hr0 & ->)].
    - rewrite Hkids.
      replace (pre ++ TopFold :: W ++ XRow l :: BottomFold :: suf)
        with ((pre ++ TopFold :: W) ++ XRow l :: BottomFold :: suf)
        by reassoc.
      by apply previousSibling_middle.
    - rewrite <- HnR.
      assert (r0 ≠ l) as Hne by congruence.
      rewrite detach_app, detach_cons_ne by congruence.
      rewrite detach_cons_ne by done.
      replace (XRow r0 :: TopFold :: Dom.detach (XRow r0) W ++ XRow l
                 :: BottomFold :: Dom.detach (XRow r0) suf)
        with ((XRow r0 :: TopFold :: Dom.detach (XRow r0) W) ++ XRow l
                :: BottomFold :: Dom.detach (XRow r0) suf) by reassoc.
      apply previousSibling_middle; [|done].
      rewrite !not_elem_of_cons, elem_of_detach. set_solver. }
  unfold selectLastRow. cbv zeta. rewrite Hprev, Ok_bind, Hprov.
  rewrite decide_True by (simpl; congruence).
  rewrite Ok_bind. cbv beta iota.
  by destruct (document_selection sp1).
Qed.

Lemma selectAll_throws_at_last_row_witness :
  NoDup (rowNodes_ shortExample)
  ∧ rowIndex row2 = (getRowCount (rowProvider_ shortExample) - 1)%Z
  ∧ selectAll rowElement shortExample = Throw TypeError.
Proof.
  assert (NoDup (rowNodes_ shortExample)) as Hnd.
  { refine (bool_decide_unpack _ _). vm_compute. exact I. }
  assert (rowIndex row2 = (getRowCount (rowProvider_ shortExample) - 1)%Z)
    as Hl by reflexivity.
  split_and!; [exact Hnd|exact Hl|].
  apply (selectAll_throws_at_last_row rowElement shortExample []
           [XRow (mkRow 0 0); XRow (mkRow 1 1)] row2 []);
    [exact Hnd|reflexivity|exact Hl|reflexivity|].
  vm_compute. discriminate.
Defined.

Lemma previousSibling_last A n B :
  NoDup (A ++ n :: B) → A ≠ [] →
  Dom.previousSibling (A ++ n :: B) n = last A.
Proof.
  intros Hnd HA. destruct A as [|a A] using rev_ind; [done|].
  rewrite last_snoc. rewrite <- app_assoc in *. simpl in *.
  apply previousSibling_middle.
  - eapply NoDup_app_notin; [exact Hnd|set_solver].
  - intros ->. apply NoDup_app in Hnd as (_ & _ & Hnd).
    apply NoDup_cons in Hnd as [Hin _]. set_solver.
Qed.

Lemma selectFirstRow_fetches sp pre n R r0 :
  NoDup (rowNodes_ sp) → rowNodes_ sp = pre ++ TopFold :: n :: R →
  currentRowNodeCache_ sp = None →
  rowIndexOf n ≠ Some 0%Z → cachedOrProvided sp 0 = Some r0 →
  ∃ sp1, selectFirstRow sp = Ok (r0, sp1) ∧ selectEnv sp1 = selectEnv sp
         ∧ rowNodes_ sp1
           = XRow r0 :: TopFold :: Dom.detach (XRow r0) (n :: R).
Proof.
  intros Hnd Hkids Hcur Hn Hr0.
  destruct (selectFirstRow_spec sp pre n R Hnd Hkids Hcur)
    as [Hthrow|(r & sp1 & Hrun & Henv & Hcases)].
  - exfalso. revert Hthrow. unfold selectFirstRow.
    assert (TopFold ∉ pre) as Hpre
      by (eapply NoDup_app_notin; [by rewrite <- Hkids|left]).
    rewrite Hkids at 1. rewrite nextSibling_middle by done.
    cbn [head]. rewrite Ok_bind. cbv zeta.
    assert (removeBefore (S (length (rowNodes_ sp))) (rowNodes_ sp) TopFold
            = Ok (TopFold :: n :: R)) as ->.
    { rewrite Hkids. rewrite removeBefore_spec;
        [done|by rewrite <- Hkids|rewrite length_app; lia]. }
    rewrite Ok_bind. cbv beta zeta.
    rewrite fetchRowNode__idle by done. rewrite Ok_bind. cbv beta iota.
    change (cachedOrProvided (set_rowNodes_ (TopFold :: n :: R) sp) 0)
      with (cachedOrProvided sp 0). rewrite Hr0.
    change (rowNodes_ (set_rowNodes_ (TopFold :: n :: R) sp))
      with (TopFold :: n :: R).
    pose proof (insertBefore_middle (XRow r0) TopFold [] (n :: R)) as Hins.
    cbn [app] in Hins. rewrite Hins; [| |done].
    2:{ rewrite Hkids in Hnd. by apply NoDup_app in Hnd as (_ & _ & ?). }
    rewrite Ok_bind.
    destruct n as [| | | |r'| |]; try done.
    destruct (Z.eqb_spec (rowIndex r') 0) as [Hz|Hz]; [|done].
    simpl in Hn. congruence.
  - destruct Hcases as [(-> & Hz & _)|(_ & Hr & Hk)].
    + simpl in Hn. congruence.
    + rewrite Hr0 in Hr. injection Hr as <-. by exists sp1.
Qed.

Lemma closestRow_rowDom rowDom r :
  self (rowDom r) = XRow r →
  SelectionProxy.resolveRow (Some (rowDom r)) = Some (r, rowDom r).
Proof.
  unfold SelectionProxy.resolveRow. simpl.
  destruct (rowDom r) as [s p k]. simpl. by intros ->.
Qed.

(** X19: [selectAll] away from both ends.  With the window on other rows
    than row 0 and the last row, [selectAll] fetches these two, leaves
    row 0 as the only child before the top fold and the last row as the
    only child after the bottom fold, keeps the window between the
    folds, and selects from row 0 to the last row: the synced selection
    starts at row 0, ends at the last row and spans several lines. *)
Theorem selectAll_selects_first_to_last rowDom sp pre W suf r0 rN :
  NoDup (rowNodes_ sp) →
  rowNodes_ sp = pre ++ TopFold :: W ++ BottomFold :: suf →
  currentRowNodeCache_ sp = None → is_Some (document_selection sp) →
  (∀ r, XRow r ∈ W →
        (rowIndex r ≠ 0%Z)
        ∧ (rowIndex r ≠ (getRowCount (rowProvider_ sp) - 1)%Z)) →
  cachedOrProvided sp 0 = Some r0 →
  cachedOrProvided sp (getRowCount (rowProvider_ sp) - 1) = Some rN →
  rowIndex r0 = 0%Z → rowIndex rN = (getRowCount (rowProvider_ sp) - 1)%Z →
  (rowIndex r0 < rowIndex rN)%Z →
  self (rowDom r0) = XRow r0 → self (rowDom rN) = XRow rN →
  ∃ sp',
    selectAll rowDom sp = Ok sp'
    ∧ rowNodes_ sp' = XRow r0 :: TopFold :: W ++ [BottomFold; XRow rN]
    ∧ startRow (selection sp') = Some r0
    ∧ endRow (selection sp') = Some rN
    ∧ isMultiline (selection sp') = Some true
    ∧ isCollapsed (selection sp') = Some false.
Proof.
  intros Hnd Hkids Hcur [native Hnative] HW Hr0 HrN Hi0 HiN Hlt Hd0 HdN.
  assert ((XRow r0 ∉ W) ∧ (XRow rN ∉ W) ∧ r0 ≠ rN) as (H0W & HNW & Hne).
  { split_and!; [intros Hin; by destruct (HW _ Hin)
                |intros Hin; by destruct (HW _ Hin)|intros ->; lia]. }
  assert ((BottomFold ∉ W) ∧ (TopFold ∉ W)) as [HbW HtW].
  { rewrite Hkids in Hnd. apply NoDup_app in Hnd as (_ & _ & Hnd).
    apply NoDup_cons in Hnd as [Ht Hnd]. split; [|set_solver].
    eapply NoDup_app_notin; [exact Hnd|left]. }
  (* the first row *)
  assert (∃ n R, W ++ BottomFold :: suf = n :: R ∧ rowIndexOf n ≠ Some 0%Z)
    as (n & R & HnR & Hn).
  { destruct W as [|w W]; [by eexists _, _|]. eexists _, _. split; [done|].
    destruct w as [| | | |r| |]; try done.
    simpl. destruct (HW r); [left|congruence]. }
  pose proof Hkids as Hkids'. rewrite HnR in Hkids'.
  destruct (selectFirstRow_fetches sp pre n R r0 Hnd Hkids' Hcur Hn Hr0)
    as (sp1 & Hfirst & Henv1 & Hkids1).
  rewrite <- HnR in Hkids1.
  rewrite detach_app, detach_cons_ne, (detach_notin _ W) in Hkids1 by done.
  destruct (selectEnv_fields _ _ Henv1)
    as (Hprov1 & Hcur1 & Hdoc1 & Ha11y1 & Hsel1).
  assert (NoDup (rowNodes_ sp1)) as Hnd1.
  { rewrite Hkids1. apply NoDup_cons. split.
    - rewrite not_elem_of_cons, not_elem_of_app, not_elem_of_cons.
      split_and!; [done|done|done|apply notin_detach].
    - rewrite Hkids in Hnd. apply NoDup_app in Hnd as (_ & _ & Hnd).
      eapply sublist_NoDup; [exact Hnd|]. apply sublist_skip.
      apply sublist_app; [done|]. apply sublist_skip.
      apply sublist_filter. }
  (* the last row *)
  set (kids2 := (XRow r0 :: TopFold :: W) ++ [BottomFold]).
  assert (selectLastRow sp1
          = Ok (LastRowNode rN,
                set_rowNodes_ (kids2 ++ [XRow rN])
                  (set_rowNodes_ kids2 sp1))) as Hlast.
  { unfold selectLastRow. cbv zeta. rewrite Hprov1.
    replace (rowNodes_ sp1)
      with ((XRow r0 :: TopFold :: W) ++ BottomFold
              :: Dom.detach (XRow r0) suf) in * by (rewrite Hkids1; reassoc).
    assert (∃ p, last (XRow r0 :: TopFold :: W) = Some p
                 ∧ rowIndexOf p
                   ≠ Some (getRowCount (rowProvider_ sp) - 1)%Z)
      as (p & Hp & Hidx).
    { change (XRow r0 :: TopFold :: W) with ([XRow r0; TopFold] ++ W).
      destruct W as [|w W] using rev_ind; [by exists TopFold|].
      exists w. rewrite app_assoc, last_snoc. split; [done|].
      destruct w as [| | | |r| |]; try done.
      simpl. destruct (HW r); [set_solver|congruence]. }
    rewrite previousSibling_last by done. rewrite Hp, Ok_bind.
    rewrite decide_False by done.
    rewrite removeAfter_spec; [|done|rewrite length_app; simpl; lia].
    rewrite Ok_bind. cbv beta zeta.
    rewrite fetchRowNode__idle by (by rewrite <- Hcur1 in Hcur).
    rewrite Ok_bind. cbv beta iota.
    change (cachedOrProvided (set_rowNodes_ ?k sp1)) with (cachedOrProvided sp1).
    rewrite (cachedOrProvided_env _ _ Henv1), HrN.
    change (rowNodes_ (set_rowNodes_ ?k sp1)) with k.
    unfold Dom.appendChild. rewrite detach_notin; [done|].
    rewrite not_elem_of_app, !not_elem_of_cons.
    split_and!; [congruence|done|done|done|apply not_elem_of_nil]. }
  (* the selection *)
  unfold selectAll. rewrite Hfirst, Ok_bind. cbv beta iota.
  rewrite Hlast, Ok_bind. cbv beta iota.
  set (sp3 := set_rowNodes_ (kids2 ++ [XRow rN]) (set_rowNodes_ kids2 sp1)).
  assert (document_selection sp3 = document_selection sp1
          ∧ accessibilityEnabled sp3 = accessibilityEnabled sp1
          ∧ selection sp3 = selection sp1
          ∧ rowNodes_ sp3 = kids2 ++ [XRow rN])
    as (Hdoc3 & Ha11y3 & Hsel3 & Hkids3) by done.
  rewrite Hdoc3, Hdoc1, Hnative. cbv zeta.
  set (native' := {| anchorNode := Some (rowDom r0); anchorOffset := 0;
                     focusNode := Some (rowDom rN);
                     focusOffset := length (childNodes (rowDom rN)) |}).
  unfold syncSelection.
  change (document_selection (set_document_selection (Some native') sp3))
    with (Some native').
  change (accessibilityEnabled (set_document_selection (Some native') sp3))
    with (accessibilityEnabled sp3).
  change (selection (set_document_selection (Some native') sp3))
    with (selection sp3).
  assert (dom_isCollapsed native' = false) as Hcol.
  { unfold dom_isCollapsed, sameNode. simpl. rewrite Hd0, HdN.
    rewrite bool_decide_eq_false_2 by congruence. done. }
  unfold SelectionProxy.sync. rewrite Hcol. cbn [andb].
  change (anchorNode native') with (Some (rowDom r0)).
  change (focusNode native') with (Some (rowDom rN)).
  rewrite !closestRow_rowDom by done.
  destruct (Z.ltb_spec (rowIndex r0) (rowIndex rN)); [|lia].
  rewrite Ok_bind. eexists. split; [reflexivity|].
  destruct (Z.eqb_spec (rowIndex r0) (rowIndex rN)); [lia|].
  split_and!; [|done..].
  change (rowNodes_ (set_selection ?x (set_document_selection ?y sp3)))
    with (rowNodes_ sp3). rewrite Hkids3. subst kids2. reassoc.
Qed.

Lemma selectAll_selects_first_to_last_witness :
  NoDup (rowNodes_ middleExample)
  ∧ ∃ sp',
      selectAll rowElement middleExample = Ok sp'
      ∧ startRow (selection sp') = Some (mkRow 0 0)
      ∧ endRow (selection sp') = Some (mkRow 2999 2999).
Proof.
  assert (NoDup (rowNodes_ middleExample)) as Hnd.
  { refine (bool_decide_unpack _ _). vm_compute. exact I. }
  split; [exact Hnd|].
  destruct (selectAll_selects_first_to_last rowElement middleExample []
              [XRow (mkRow 500 500); XRow (mkRow 501 501)] []
              (mkRow 0 0) (mkRow 2999 2999))
    as (sp' & Hrun & _ & Hs & He & _);
    [exact Hnd|reflexivity|reflexivity|by eexists| |reflexivity|reflexivity
    |reflexivity|reflexivity|reflexivity|reflexivity|reflexivity|].
  - intros r Hin. apply elem_of_cons in Hin as [Hin|Hin].
    { injection Hin as ->. split; discriminate. }
    apply list_elem_of_singleton in Hin. injection Hin as ->.
    split; discriminate.
  - exists sp'. split_and!; [exact Hrun|exact Hs|exact He].
Defined.

(** ** A move of a touch that never started *)



